(** * VocaFuse Speech SDK (web): a shallow embedding of the recording-to-upload
    pipeline and the properties of its specification.

    Source files embedded here:
    - [errors.ts]   : the error taxonomy, [createErrorFromResponse],
                      [wrapUnknownError];
    - [client.ts]   : [HttpClient] (retry loop, response processing, backoff);
    - [token.ts]    : [TokenManager], [decodeJwtPayload], [isJwtExpired];
    - [recorder.ts] : [AudioRecorder] (elapsed time, pause/resume, auto-stop);
    - [upload.ts]   : [VocaFuseUploader] (single and multipart transfer);
    - [recorder-controller.ts] : [VoiceRecorder] (the session state machine).

    Conventions.  JavaScript numbers are modelled by rationals [Q] (times in
    milliseconds, durations in seconds); a JavaScript exception is an explicit
    [Throw] result; [async] functions are cut at their [await] points into the
    synchronous segments the event loop runs one at a time; callbacks and
    platform calls are recorded in an explicit trace of effects. *)

From Stdlib Require Import String Ascii List ZArith QArith Qminmax Qpower Qround.
From Stdlib Require Import Lia Lqa Bool DecimalString.
Import ListNotations.

Local Open Scope string_scope.
Set Warnings "-register-all".

(* ================================================================= *)
(** ** JavaScript values, objects and completions *)

Module Js.

(** Plain data as the SDK sees it: JSON values plus [undefined]. *)
Inductive value : Type :=
| VUndefined
| VNull
| VBool (b : bool)
| VNum (q : Q)
| VStr (s : string)
| VArr (items : list value)
| VObj (fields : list (string * value)).

(** An object literal keeps its keys in insertion order. *)
Definition obj : Type := list (string * value).

Fixpoint obj_get (k : string) (o : obj) : option value :=
  match o with
  | [] => None
  | (k', v) :: rest => if String.eqb k k' then Some v else obj_get k rest
  end.

(** [k in o] for an object without inherited enumerable data. *)
Definition obj_has (k : string) (o : obj) : bool :=
  match obj_get k o with Some _ => true | None => false end.

(** [{...o, k: v}]: an existing key keeps its place and takes the new
    value, a new key goes last. *)
Fixpoint obj_set (k : string) (v : value) (o : obj) : obj :=
  match o with
  | [] => [(k, v)]
  | (k', v') :: rest =>
      if String.eqb k k' then (k', v) :: rest else (k', v') :: obj_set k v rest
  end.

(** [typeof v === 'object' && v !== null] (arrays are objects). *)
Definition is_object (v : value) : bool :=
  match v with
  | VArr _ | VObj _ => true
  | _ => false
  end.

(** ['k' in v] for a value that passed [is_object]; an array has only
    index keys and [length]. *)
Definition has_property (k : string) (v : value) : bool :=
  match v with
  | VObj o => obj_has k o
  | VArr _ => String.eqb k "length"
  | _ => false
  end.

(** [typeof v.k === 'number'] where property access on a primitive yields
    [undefined]. *)
Definition number_property (k : string) (v : value) : option Q :=
  match v with
  | VObj o => match obj_get k o with Some (VNum q) => Some q | _ => None end
  | _ => None
  end.

(** JavaScript truthiness, for [!v] and [v || d]. *)
Definition truthy (v : value) : bool :=
  match v with
  | VUndefined | VNull => false
  | VBool b => b
  | VNum q => negb (Qeq_bool q 0)
  | VStr s => negb (String.eqb s "")
  | VArr _ | VObj _ => true
  end.

(** [s || d] on strings: the empty string is falsy. *)
Definition str_or (s : option string) (d : string) : string :=
  match s with
  | Some x => if String.eqb x "" then d else x
  | None => d
  end.

(** [String.prototype.includes]. *)
Definition includes (needle hay : string) : bool :=
  match String.index 0 needle hay with Some _ => true | None => false end.

(** Decimal rendering of an integer, as a template literal does. *)
Definition string_of_Z (z : Z) : string :=
  NilZero.string_of_int (Z.to_int z).

(** A [Blob]: its bytes and its MIME type. *)
Record Blob : Type := mkBlob {
  blob_bytes : list Byte.byte;
  blob_type : string
}.

Definition blob_size (b : Blob) : Z := Z.of_nat (List.length (blob_bytes b)).

(** [new Blob(chunks, {type})]. *)
Definition new_Blob (chunks : list Blob) (type : string) : Blob :=
  {| blob_bytes := List.concat (map blob_bytes chunks); blob_type := type |}.

(** [blob.slice(start, end)]: a negative bound counts from the end, both are
    clamped to the size, and the slice carries the empty type. *)
Definition blob_slice (b : Blob) (start stop : Z) : Blob :=
  let size := blob_size b in
  let clamp (x : Z) := if (x <? 0)%Z then Z.max (size + x) 0 else Z.min x size in
  let from := clamp start in
  let span := Z.max (clamp stop - from) 0 in
  {| blob_bytes := firstn (Z.to_nat span) (skipn (Z.to_nat from) (blob_bytes b));
     blob_type := "" |}.

End Js.
Export Js.

(* ================================================================= *)
(** ** errors.ts *)

Module Errors.

Inductive ErrorCode : Type :=
| AUTHENTICATION_FAILED | TOKEN_EXPIRED | TOKEN_REFRESH_FAILED
| NETWORK_ERROR | REQUEST_TIMEOUT | REQUEST_FAILED
| MICROPHONE_ACCESS_DENIED | RECORDING_NOT_SUPPORTED | RECORDING_FAILED
| RECORDING_TOO_LONG
| UPLOAD_FAILED | FILE_TOO_LARGE | INVALID_FILE_FORMAT
| INVALID_CONFIG | MISSING_TOKEN_ENDPOINT
| UNKNOWN_ERROR | VALIDATION_ERROR.

(** The class an error object was constructed by (its prototype). *)
Inductive ErrorClass : Type :=
| CVocaFuseError | CAuthenticationError | CNetworkError
| CVoicenoteError | CUploadError | CConfigurationError.

(** The fields of a [VocaFuseError]; [E] is the type of [originalError]. *)
Record VocaFuseErrorOf (E : Type) : Type := mkVocaFuseError {
  cls : ErrorClass;
  name : string;
  code : ErrorCode;
  message : string;
  originalError : option E;
  context : obj;
  retryable : bool;
  userMessage : string
}.
Arguments mkVocaFuseError {E}.
Arguments cls {E}. Arguments name {E}. Arguments code {E}.
Arguments message {E}. Arguments originalError {E}.
Arguments context {E}. Arguments retryable {E}. Arguments userMessage {E}.

(** Every [Error] instance: a platform error (a name and a message) or one
    of the SDK's own. *)
Inductive JsError : Type :=
| PlainError (ename emessage : string)
| SdkError (e : VocaFuseErrorOf JsError).

Definition VocaFuseError : Type := VocaFuseErrorOf JsError.

(** What a [catch] clause receives: an [Error] or any other value. *)
Inductive thrown : Type :=
| ThrowError (e : JsError)
| ThrowValue (v : value).

(** A completion: normal with a value, or abrupt with the thrown thing. *)
Inductive result (A : Type) : Type :=
| Ok (a : A)
| Throw (t : thrown).
Arguments Ok {A}. Arguments Throw {A}.

Definition error_name (e : JsError) : string :=
  match e with
  | PlainError n _ => n
  | SdkError v => name v
  end.

Definition error_message (e : JsError) : string :=
  match e with
  | PlainError _ m => m
  | SdkError v => message v
  end.

(** [x instanceof Error], [x instanceof VocaFuseError] and the subclasses. *)
Definition instanceof_Error (t : thrown) : bool :=
  match t with ThrowError _ => true | ThrowValue _ => false end.

Definition instanceof_VocaFuseError (t : thrown) : bool :=
  match t with ThrowError (SdkError _) => true | _ => false end.

Definition instanceof_class (c : ErrorClass) (t : thrown) : bool :=
  match t with
  | ThrowError (SdkError v) =>
      match c, cls v with
      | CVocaFuseError, _ => true
      | CAuthenticationError, CAuthenticationError
      | CNetworkError, CNetworkError
      | CVoicenoteError, CVoicenoteError
      | CUploadError, CUploadError
      | CConfigurationError, CConfigurationError => true
      | _, _ => false
      end
  | _ => false
  end.

Record ErrorDetails : Type := mkDetails {
  d_code : ErrorCode;
  d_message : string;
  d_originalError : option JsError;
  d_context : option obj;
  d_retryable : option bool;
  d_userMessage : option string
}.

Definition getDefaultUserMessage (c : ErrorCode) : string :=
  match c with
  | MICROPHONE_ACCESS_DENIED => "Please allow microphone access to record audio."
  | RECORDING_NOT_SUPPORTED => "Audio voicenote is not supported in this browser."
  | NETWORK_ERROR =>
      "Network connection failed. Please check your internet connection."
  | TOKEN_EXPIRED => "Your session has expired. Please refresh and try again."
  | FILE_TOO_LARGE => "The audio file is too large to upload."
  | RECORDING_TOO_LONG => "Voicenote is too long. Maximum duration is 60 seconds."
  | _ => "An unexpected error occurred. Please try again."
  end.

(** [new VocaFuseError(details)]. *)
Definition new_VocaFuseError (d : ErrorDetails) : VocaFuseError :=
  {| cls := CVocaFuseError;
     name := "VocaFuseError";
     code := d_code d;
     message := d_message d;
     originalError := d_originalError d;
     context := match d_context d with Some c => c | None => [] end;
     retryable := match d_retryable d with Some b => b | None => false end;
     userMessage := str_or (d_userMessage d) (getDefaultUserMessage (d_code d)) |}.

(** A subclass constructor: [super(details)], then [this.name = ...]. *)
Definition subclass (c : ErrorClass) (n : string) (d : ErrorDetails)
  : VocaFuseError :=
  let e := new_VocaFuseError d in
  {| cls := c; name := n; code := code e; message := message e;
     originalError := originalError e; context := context e;
     retryable := retryable e; userMessage := userMessage e |}.

Definition new_AuthenticationError (msg : string) (orig : option JsError)
    (ctx : option obj) : VocaFuseError :=
  subclass CAuthenticationError "AuthenticationError"
    (mkDetails AUTHENTICATION_FAILED msg orig ctx (Some false)
       (Some "Authentication failed. Please check your credentials.")).

(** [retryable] defaults to [true] when the argument is left out. *)
Definition new_NetworkError (msg : string) (orig : option JsError)
    (retry : option bool) (ctx : option obj) : VocaFuseError :=
  subclass CNetworkError "NetworkError"
    (mkDetails NETWORK_ERROR msg orig ctx
       (Some (match retry with Some b => b | None => true end))
       (Some "Network error occurred. Please check your connection and try again.")).

Definition new_VoicenoteError (c : ErrorCode) (msg : string)
    (orig : option JsError) (ctx : option obj) : VocaFuseError :=
  subclass CVoicenoteError "VoicenoteError"
    (mkDetails c msg orig ctx (Some false) None).

Definition new_UploadError (msg : string) (orig : option JsError)
    (retry : option bool) (ctx : option obj) : VocaFuseError :=
  subclass CUploadError "UploadError"
    (mkDetails UPLOAD_FAILED msg orig ctx
       (Some (match retry with Some b => b | None => true end))
       (Some "Upload failed. Please try again.")).

Definition new_ConfigurationError (msg : string) (ctx : option obj)
  : VocaFuseError :=
  subclass CConfigurationError "ConfigurationError"
    (mkDetails INVALID_CONFIG msg None ctx (Some false)
       (Some "SDK configuration error. Please contact support.")).

(** [createErrorFromResponse(response, responseBody, context)], on the
    response's [status] and [statusText]. *)
Definition createErrorFromResponse (status : Z) (statusText : string)
    (responseBody : value) (ctx : option obj) : VocaFuseError :=
  let '(c, retry) :=
    if (status =? 401)%Z then (AUTHENTICATION_FAILED, false)
    else if (status =? 403)%Z then (AUTHENTICATION_FAILED, false)
    else if (status =? 413)%Z then (FILE_TOO_LARGE, false)
    else if (status =? 429)%Z then (REQUEST_FAILED, true)
    else if (status >=? 500)%Z then (REQUEST_FAILED, true)
    else (REQUEST_FAILED, false) in
  new_VocaFuseError
    (mkDetails c
       ("HTTP " ++ string_of_Z status ++ ": " ++ statusText)
       None
       (Some (obj_set "responseBody" responseBody
                (obj_set "statusText" (VStr statusText)
                   (obj_set "status" (VNum (inject_Z status))
                      (match ctx with Some c0 => c0 | None => [] end)))))
       (Some retry) None).

(** [wrapUnknownError(error, context)]. *)
Definition wrapUnknownError (error : thrown) (ctx : option obj)
  : VocaFuseError :=
  match error with
  | ThrowError (SdkError v) => v
  | ThrowError (PlainError n m) =>
      new_VocaFuseError
        (mkDetails UNKNOWN_ERROR m (Some (PlainError n m)) ctx None None)
  | ThrowValue v =>
      new_VocaFuseError
        (mkDetails UNKNOWN_ERROR "An unknown error occurred" None
           (Some (obj_set "originalValue" v
                    (match ctx with Some c => c | None => [] end)))
           None None)
  end.

End Errors.
Export Errors.

(* ================================================================= *)
(** ** client.ts *)

Module Client.

Record RetryOptions : Type := mkRetryOptions {
  maxRetries : Z;
  baseDelay : Q;
  maxDelay : Q;
  backoffFactor : Q
}.

(** The resolved configuration of an [HttpClient] instance. *)
Record HttpClient : Type := mkHttpClient {
  baseUrl : string;
  timeout : Q;
  retryOptions : RetryOptions
}.

(** The defaults the constructor fills in. *)
Definition defaultRetryOptions : RetryOptions :=
  {| maxRetries := 3; baseDelay := 1000; maxDelay := 10000; backoffFactor := 2 |}.

Definition defaultClient : HttpClient :=
  {| baseUrl := ""; timeout := 30000; retryOptions := defaultRetryOptions |}.

(** The fields of [RequestOptions] the retry loop reads. *)
Record RequestOptions : Type := mkRequestOptions {
  method : option string;
  retries : option Z
}.

(** A settled [fetch] response: status line, headers, and how reading the
    body as JSON, respectively as text, completes. *)
Record Response : Type := mkResponse {
  status : Z;
  statusText : string;
  headers : list (string * string);
  json : result value;
  text : result string
}.

Definition ok (r : Response) : bool :=
  ((200 <=? status r) && (status r <=? 299))%Z.

Definition lower_ascii (c : ascii) : ascii :=
  let n := nat_of_ascii c in
  if ((65 <=? n) && (n <=? 90))%nat then ascii_of_nat (n + 32) else c.

Fixpoint lower (s : string) : string :=
  match s with
  | EmptyString => EmptyString
  | String c rest => String (lower_ascii c) (lower rest)
  end.

(** [headers.get(name)]: names compare without case; several values of one
    name are joined by a comma and a space; an absent name gives [null]. *)
Definition headers_get (h : list (string * string)) (n : string)
  : option string :=
  match filter (fun kv => String.eqb (lower (fst kv)) (lower n)) h with
  | [] => None
  | hits => Some (String.concat ", " (map snd hits))
  end.

Definition ends_with (suffix s : string) : bool :=
  let n := String.length s in
  let m := String.length suffix in
  (m <=? n)%nat && String.eqb (substring (n - m) m s) suffix.

Definition buildUrl (c : HttpClient) (url : string) : string :=
  if prefix "http://" url || prefix "https://" url then url
  else
    let base :=
      if ends_with "/" (baseUrl c)
      then substring 0 (String.length (baseUrl c) - 1) (baseUrl c)
      else baseUrl c in
    let path := if prefix "/" url then url else "/" ++ url in
    base ++ path.

(** [executeRequest], given how [fetch] settles.  A rejection by an [Error]
    named [AbortError] becomes a [NetworkError] built with
    [retryable = false]; any other [Error] one built with [retryable = true];
    a thrown non-[Error] passes through. *)
Definition executeRequest (url : string) (settled : result Response)
  : result Response :=
  match settled with
  | Ok r => Ok r
  | Throw (ThrowError e) =>
      if String.eqb (error_name e) "AbortError"
      then Throw (ThrowError (SdkError
             (new_NetworkError "Request timeout" (Some e) (Some false)
                (Some [("url", VStr url)]))))
      else Throw (ThrowError (SdkError
             (new_NetworkError "Network request failed" (Some e) (Some true)
                (Some [("url", VStr url)]))))
  | Throw (ThrowValue v) => Throw (ThrowValue v)
  end.

(** The final step of [processResponse]: a body that is an object with a
    [data] key is the envelope already; anything else is put under [data]. *)
Definition normalizeEnvelope (requestId : option string) (responseBody : value)
  : value :=
  if is_object responseBody && has_property "data" responseBody
  then responseBody
  else VObj [("object", VStr "response");
             ("data", responseBody);
             ("request_id", VStr (str_or requestId "unknown"))].

(** The [try] block of [processResponse]: the body read as JSON when the
    content type says so, as text otherwise. *)
Definition readBody (r : Response) : result value :=
  let contentType := headers_get (headers r) "content-type" in
  let isJson :=
    match contentType with
    | Some ct => negb (String.eqb ct "") && includes "application/json" ct
    | None => false
    end in
  if isJson then json r
  else match text r with Ok s => Ok (VStr s) | Throw t => Throw t end.

Definition processResponse (r : Response) : result value :=
  match readBody r with
  | Throw t =>
      Throw (ThrowError (SdkError
        (new_NetworkError "Failed to parse response"
           (match t with ThrowError e => Some e | ThrowValue _ => None end)
           (Some false)
           (Some [("status", VNum (inject_Z (status r)));
                  ("statusText", VStr (statusText r))]))))
  | Ok responseBody =>
      if negb (ok r)
      then Throw (ThrowError (SdkError
             (createErrorFromResponse (status r) (statusText r) responseBody None)))
      else Ok (normalizeEnvelope (headers_get (headers r) "X-Request-Id")
                 responseBody)
  end.

Definition shouldRetry (c : HttpClient) (error : JsError) (attempt : Z) : bool :=
  if (attempt >=? maxRetries (retryOptions c))%Z then false
  else
    match error with
    | SdkError v =>
        if negb (retryable v) then false
        else if instanceof_class CNetworkError (ThrowError error) && retryable v
        then true
        else String.eqb (name v) "AbortError"
    | PlainError n _ => String.eqb n "AbortError"
    end.

(** [calculateRetryDelay(attempt)], with the value [Math.random()] returned. *)
Definition calculateRetryDelay (c : HttpClient) (attempt : Z) (random : Q) : Q :=
  let delay :=
    baseDelay (retryOptions c) * (backoffFactor (retryOptions c)) ^ (attempt - 1) in
  let jitter := random * (1 # 10) * delay in
  Qmin (delay + jitter) (maxDelay (retryOptions c)).

(** What one call of [request] did: its completion, the number of [fetch]
    calls issued, and the delays slept between attempts. *)
Record RequestRun : Type := mkRequestRun {
  completion : result value;
  fetches : nat;
  sleeps : list Q
}.

Section Request.

(** [String(x)] on a thrown value that is not an [Error]. *)
Variable js_String : value -> string.
Variable c : HttpClient.
(** The environment: how the [fetch] of attempt [n] settles, and what
    [Math.random()] returns in the backoff after attempt [n]. *)
Variable fetch_at : Z -> result Response.
Variable random_at : Z -> Q.

Definition as_Error (t : thrown) : JsError :=
  match t with
  | ThrowError e => e
  | ThrowValue v => PlainError "Error" (js_String v)
  end.

(** The statement after the loop: [throw wrapUnknownError(lastError, ...)]. *)
Definition exhausted (fullUrl : string) (options : RequestOptions)
    (maxAttempts : Z) (lastError : option JsError) : result value :=
  Throw (ThrowError (SdkError
    (wrapUnknownError
       (match lastError with
        | Some e => ThrowError e
        | None => ThrowValue VUndefined
        end)
       (Some [("url", VStr fullUrl);
              ("method", VStr (str_or (method options) "GET"));
              ("attempts", VNum (inject_Z maxAttempts))])))).

(** The [for] loop of [request]; [fuel] is the number of iterations left
    until [attempt] passes [maxAttempts]. *)
Fixpoint request_loop (fullUrl : string) (options : RequestOptions)
    (maxAttempts : Z) (fuel : nat) (attempt : Z) (lastError : option JsError)
    (issued : nat) (slept : list Q) : RequestRun :=
  match fuel with
  | O => mkRequestRun (exhausted fullUrl options maxAttempts lastError) issued slept
  | S fuel' =>
      let outcome :=
        match executeRequest fullUrl (fetch_at attempt) with
        | Ok response => processResponse response
        | Throw t => Throw t
        end in
      match outcome with
      | Ok v => mkRequestRun (Ok v) (S issued) slept
      | Throw t =>
          let err := as_Error t in
          if (attempt =? maxAttempts)%Z || negb (shouldRetry c err attempt)
          then mkRequestRun (exhausted fullUrl options maxAttempts (Some err))
                 (S issued) slept
          else
            let delay := calculateRetryDelay c attempt (random_at attempt) in
            request_loop fullUrl options maxAttempts fuel' (attempt + 1)
              (Some err) (S issued) (slept ++ [delay])
      end
  end.

(** [request(url, options)] from the point where [buildRequestOptions] has
    returned: [buildUrl], the retry loop and the statement after it.
    ([Requests.request] below puts [buildRequestOptions] in front.) *)
Definition request (url : string) (options : RequestOptions) : RequestRun :=
  let fullUrl := buildUrl c url in
  let maxAttempts :=
    (match retries options with
     | Some r => r
     | None => maxRetries (retryOptions c)
     end + 1)%Z in
  request_loop fullUrl options maxAttempts (Z.to_nat maxAttempts) 1 None 0 [].

End Request.

End Client.

(* ================================================================= *)
(** ** token.ts *)

Module Token.

(** The body of the token endpoint's answer, at its declared type
    [TokenResponse]; fields the server may leave out are options. *)
Record TokenDataIn : Type := mkTokenDataIn {
  id_token : option string;
  in_token_type : option string;
  in_expires_in : option Q;
  in_tenant_id : option string;
  in_scopes : option (list string)
}.

Record TokenResponse : Type := mkTokenResponse {
  success : bool;
  data : option TokenDataIn
}.

(** The token endpoint's HTTP answer, with how [response.json()] completes. *)
Record TokenHttpResponse : Type := mkTokenHttpResponse {
  t_status : Z;
  t_statusText : string;
  t_json : result TokenResponse
}.

Definition t_ok (r : TokenHttpResponse) : bool :=
  ((200 <=? t_status r) && (t_status r <=? 299))%Z.

Record TokenData : Type := mkTokenData {
  jwt_token : string;
  token_type : string;
  expires_in : Q;
  tenant_id : string;
  scopes : list string
}.

Record CachedToken : Type := mkCachedToken {
  cached_data : TokenData;
  expiresAt : Q;
  fetchedAt : Q
}.

(** A [TokenManager] instance.  [refreshPromise] holds the identity of the
    pending [fetchTokenData()] promise: the number of the fetch it wraps. *)
Record TokenManager : Type := mkTokenManager {
  tokenEndpoint : string;
  refreshBuffer : Q;
  cachedToken : option CachedToken;
  actualJwtToken : option string;
  refreshPromise : option nat
}.

(** [new TokenManager({tokenEndpoint})] with the default buffer of 300 s. *)
Definition newTokenManager (endpoint : string) : TokenManager :=
  {| tokenEndpoint := endpoint; refreshBuffer := 300;
     cachedToken := None; actualJwtToken := None; refreshPromise := None |}.

Definition set_refreshPromise (p : option nat) (m : TokenManager) : TokenManager :=
  {| tokenEndpoint := tokenEndpoint m; refreshBuffer := refreshBuffer m;
     cachedToken := cachedToken m; actualJwtToken := actualJwtToken m;
     refreshPromise := p |}.

Definition isTokenValid (m : TokenManager) (now : Q) : bool :=
  match cachedToken m with
  | None => false
  | Some ct =>
      let bufferMs := refreshBuffer m * 1000 in
      negb (Qle_bool (expiresAt ct) (now + bufferMs))
  end.

(** The test at the head of [getToken]:
    [this.actualJwtToken && this.cachedToken && this.isTokenValid()]. *)
Definition hasValidToken (m : TokenManager) (now : Q) : bool :=
  match actualJwtToken m, cachedToken m with
  | Some t, Some _ => negb (String.eqb t "") && isTokenValid m now
  | _, _ => false
  end.

Definition q_or (x : option Q) (d : Q) : Q :=
  match x with
  | Some q => if Qeq_bool q 0 then d else q
  | None => d
  end.

(** [fetchTokenData] from the point where the [fetch] has settled and, for an
    answer, its body has been read; [now] is [Date.now()] at that point. *)
Definition fetchTokenData_settled (m : TokenManager)
    (settled : result TokenHttpResponse) (now : Q)
  : TokenManager * result unit :=
  let failed (orig : thrown) :=
    Throw (ThrowError (SdkError
      (new_AuthenticationError "Failed to fetch token from endpoint"
         (match orig with ThrowError e => Some e | ThrowValue _ => None end)
         (Some [("endpoint", VStr (tokenEndpoint m))])))) in
  let rethrow_or_wrap (t : thrown) : result unit :=
    if instanceof_class CAuthenticationError t then Throw t else failed t in
  match settled with
  | Throw t => (m, rethrow_or_wrap t)
  | Ok response =>
      if negb (t_ok response)
      then (m, Throw (ThrowError (SdkError
                (new_AuthenticationError
                   ("HTTP " ++ string_of_Z (t_status response) ++ ": "
                      ++ t_statusText response) None None))))
      else
        match t_json response with
        | Throw t => (m, rethrow_or_wrap t)
        | Ok tokenData =>
            match data tokenData with
            | Some d =>
                let idToken := str_or (id_token d) "" in
                if success tokenData && negb (String.eqb idToken "")
                then
                  ({| tokenEndpoint := tokenEndpoint m;
                      refreshBuffer := refreshBuffer m;
                      cachedToken := Some
                        {| cached_data :=
                             {| jwt_token := idToken;
                                token_type := str_or (in_token_type d) "Bearer";
                                expires_in := q_or (in_expires_in d) 3600;
                                tenant_id := str_or (in_tenant_id d) "";
                                scopes :=
                                  match in_scopes d with
                                  | Some s => s
                                  | None => ["voice-api.upload"]
                                  end |};
                           expiresAt := now + q_or (in_expires_in d) 3600 * 1000;
                           fetchedAt := now |};
                      actualJwtToken := Some idToken;
                      refreshPromise := refreshPromise m |}, Ok tt)
                else
                  (m, Throw (ThrowError (SdkError
                     (new_AuthenticationError
                        "No authentication token received from server" None None))))
            | None =>
                (m, Throw (ThrowError (SdkError
                   (new_AuthenticationError
                      "No authentication token received from server" None None))))
            end
        end
  end.

(** *** The event loop around one [TokenManager]

    Each public method runs synchronously up to its first [await]; the
    [fetch] inside [fetchTokenData] is issued in that synchronous part.  The
    continuation runs when the awaited promise settles. *)

Inductive Call : Type := GetToken | RefreshToken.

(** A caller suspended at an [await], and the fetch whose promise it waits on:
    - [InFetchNewToken]: [getToken -> fetchNewToken], at
      [await this.fetchTokenData()];
    - [RefreshOwner]: [refreshToken] past the guard, having stored the promise
      in [refreshPromise], at [await this.refreshPromise] inside [try];
    - [RefreshFollower]: [refreshToken] inside the guard, at
      [await this.refreshPromise]. *)
Inductive Waiting : Type :=
| InFetchNewToken (caller fetchId : nat)
| RefreshOwner (caller fetchId : nat)
| RefreshFollower (caller fetchId : nat).

Definition waits_on (w : Waiting) : nat :=
  match w with
  | InFetchNewToken _ f | RefreshOwner _ f | RefreshFollower _ f => f
  end.

Inductive Event : Type :=
| Invoke (caller : nat) (call : Call) (now : Q)
| FetchSettled (fetchId : nat) (settled : result TokenHttpResponse) (now : Q)
| ClearToken.

Record World : Type := mkWorld {
  mgr : TokenManager;
  issued : nat;                          (* [fetch] calls made so far *)
  inflight : list nat;                   (* fetches not yet settled *)
  waiting : list Waiting;                (* in order of suspension *)
  delivered : list (nat * result string) (* what each caller's promise settled to *)
}.

Definition initWorld (endpoint : string) : World :=
  {| mgr := newTokenManager endpoint; issued := 0; inflight := [];
     waiting := []; delivered := [] |}.

(** [return this.actualJwtToken || ''] after a settled [fetchTokenData]. *)
Definition token_or_error (m : TokenManager) (r : result unit) : result string :=
  match r with
  | Ok _ => Ok (str_or (actualJwtToken m) "")
  | Throw t => Throw t
  end.

(** Resume one suspended caller after its promise settled with [r]. *)
Definition resume (r : result unit) (w : Waiting)
    (acc : TokenManager * list (nat * result string))
  : TokenManager * list (nat * result string) :=
  let '(m, out) := acc in
  match w with
  | InFetchNewToken caller _ => (m, (out ++ [(caller, token_or_error m r)])%list)
  | RefreshOwner caller _ =>
      (set_refreshPromise None m, (out ++ [(caller, token_or_error m r)])%list)
  | RefreshFollower caller _ => (m, (out ++ [(caller, token_or_error m r)])%list)
  end.

(** [getToken()] up to its first [await]: a valid cached token is returned
    at once; otherwise [fetchNewToken() -> fetchTokenData()] issues a fetch
    and the caller waits for that fetch. *)
Definition getToken (caller : nat) (now : Q) (w : World) : World :=
  if hasValidToken (mgr w) now
  then {| mgr := mgr w; issued := issued w; inflight := inflight w;
          waiting := waiting w;
          delivered := delivered w
                         ++ [(caller, Ok (str_or (actualJwtToken (mgr w)) ""))] |}
  else {| mgr := mgr w; issued := S (issued w);
          inflight := inflight w ++ [issued w];
          waiting := waiting w ++ [InFetchNewToken caller (issued w)];
          delivered := delivered w |}.

(** [refreshToken()] up to its first [await]: with a promise stored the
    caller waits on it; otherwise [fetchTokenData()] issues a fetch, its
    promise is stored, and the caller waits on it. *)
Definition refreshToken (caller : nat) (w : World) : World :=
  match refreshPromise (mgr w) with
  | Some p =>
      {| mgr := mgr w; issued := issued w; inflight := inflight w;
         waiting := waiting w ++ [RefreshFollower caller p];
         delivered := delivered w |}
  | None =>
      {| mgr := set_refreshPromise (Some (issued w)) (mgr w);
         issued := S (issued w);
         inflight := inflight w ++ [issued w];
         waiting := waiting w ++ [RefreshOwner caller (issued w)];
         delivered := delivered w |}
  end.

Definition clearToken (w : World) : World :=
  {| mgr := {| tokenEndpoint := tokenEndpoint (mgr w);
               refreshBuffer := refreshBuffer (mgr w);
               cachedToken := None; actualJwtToken := None;
               refreshPromise := None |};
     issued := issued w; inflight := inflight w;
     waiting := waiting w; delivered := delivered w |}.

(** The fetch [f] settles: [fetchTokenData] runs to its end, then the
    callers waiting on its promise resume, in the order they suspended. *)
Definition fetchSettled (f : nat) (settled : result TokenHttpResponse) (now : Q)
    (w : World) : World :=
  if existsb (Nat.eqb f) (inflight w)
  then
    let '(m1, r) := fetchTokenData_settled (mgr w) settled now in
    let woken := filter (fun x => Nat.eqb (waits_on x) f) (waiting w) in
    let '(m2, out) :=
      fold_left (fun acc x => resume r x acc) woken (m1, delivered w) in
    {| mgr := m2; issued := issued w;
       inflight := filter (fun x => negb (Nat.eqb x f)) (inflight w);
       waiting := filter (fun x => negb (Nat.eqb (waits_on x) f)) (waiting w);
       delivered := out |}
  else w.

Definition step (w : World) (e : Event) : World :=
  match e with
  | Invoke caller GetToken now => getToken caller now w
  | Invoke caller RefreshToken _ => refreshToken caller w
  | FetchSettled f settled now => fetchSettled f settled now w
  | ClearToken => clearToken w
  end.

Definition run (w : World) (events : list Event) : World :=
  fold_left step events w.

(** [n] callers invoking the same method one after the other, before any
    fetch settles; caller [i] calls at time [now_at i]. *)
Definition concurrent_calls (call : Call) (now_at : nat -> Q) (n : nat)
  : list Event :=
  map (fun i => Invoke i call (now_at i)) (seq 0 n).

(** *** JWT helpers *)

Fixpoint split (sep : ascii) (s : string) : list string :=
  match s with
  | EmptyString => [EmptyString]
  | String ch rest =>
      if Ascii.eqb ch sep then EmptyString :: split sep rest
      else match split sep rest with
           | h :: t => String ch h :: t
           | [] => [String ch EmptyString]
           end
  end.

Fixpoint repeat_string (s : string) (n : nat) : string :=
  match n with
  | O => EmptyString
  | S n' => s ++ repeat_string s n'
  end.

(** [s.repeat(count)]: a negative count raises a [RangeError]. *)
Definition js_repeat (s : string) (count : Z) : result string :=
  if (count <? 0)%Z
  then Throw (ThrowError (PlainError "RangeError" "Invalid count value"))
  else Ok (repeat_string s (Z.to_nat count)).

(** [try { body } catch (_error) { handler }]. *)
Definition try_catch {A : Type} (body : result A) (handler : thrown -> result A)
  : result A :=
  match body with
  | Ok a => Ok a
  | Throw t => handler t
  end.

Definition bind {A B : Type} (x : result A) (k : A -> result B) : result B :=
  match x with
  | Ok a => k a
  | Throw t => Throw t
  end.

Section Jwt.

(** The platform's [atob] and [JSON.parse]; each may throw. *)
Variable atob : string -> result string.
Variable JSON_parse : string -> result value.

(** The padding expression [(4 - payload.length % 4) % 4]. *)
Definition padding (payload : string) : Z :=
  Z.rem (4 - Z.rem (Z.of_nat (String.length payload)) 4) 4.

Definition decodeJwtPayload (token : string) : result value :=
  try_catch
    (let parts := split "." token in
     if negb (Nat.eqb (List.length parts) 3) then Ok VNull
     else
       let payload := nth 1 parts EmptyString in
       bind (js_repeat "=" (padding payload)) (fun pad =>
       let paddedPayload := payload ++ pad in
       bind (atob paddedPayload) (fun decoded =>
       JSON_parse decoded)))
    (fun _error => Ok VNull).

(** [isJwtExpired(token)] with [now] the value of [Date.now()]. *)
Definition isJwtExpired (token : string) (now : Q) : result bool :=
  bind (decodeJwtPayload token) (fun payload =>
  if negb (truthy payload) then Ok true
  else
    match number_property "exp" payload with
    | None => Ok true
    | Some exp =>
        let nowSec := Qfloor (now / 1000) in
        Ok (Qle_bool exp (inject_Z nowSec))
    end).

End Jwt.

End Token.

(* ================================================================= *)
(** ** recorder.ts *)

Module Recorder.

(** The platform's [MediaRecorder.state], one of the strings ["inactive"],
    ["recording"] and ["paused"] (MediaStream Recording API). *)
Inductive RecordingState : Type := MRInactive | MRRecording | MRPaused.

Definition state_string (s : RecordingState) : string :=
  match s with
  | MRInactive => "inactive"
  | MRRecording => "recording"
  | MRPaused => "paused"
  end.

(** [enum RecorderState], with the string values the source gives it. *)
Definition RecorderState : Type := string.
Definition INACTIVE : RecorderState := "inactive".
Definition RECORDING : RecorderState := "voicenote".
Definition PAUSED : RecorderState := "paused".

Record VoicenoteResult : Type := mkVoicenoteResult {
  blob : Blob;
  mimeType : string;
  duration : Q;
  size : Z;
  format : string
}.

(** An [AudioRecorder] instance.  [mediaRecorder] is [None] for [null] and
    otherwise holds the platform recorder's state; [mediaStream] tells
    whether a stream is held; [timerSeq] is the platform's counter of
    interval handles (handles are positive). *)
Record AudioRecorder : Type := mkAudioRecorder {
  maxDuration : Q;
  supportedMimeType : string;
  mediaRecorder : option RecordingState;
  mediaStream : bool;
  chunks : list Blob;
  startTime : Q;
  pausedTime : Q;
  progressTimer : option nat;
  timerSeq : nat
}.

(** [new AudioRecorder({maxDuration})] in a browser whose best format is
    [mime]. *)
Definition newAudioRecorder (maxDur : Q) (mime : string) : AudioRecorder :=
  {| maxDuration := maxDur; supportedMimeType := mime;
     mediaRecorder := None; mediaStream := false; chunks := [];
     startTime := 0; pausedTime := 0; progressTimer := None; timerSeq := 0 |}.

(** Calls into the platform and callbacks out of the recorder. *)
Inductive Effect : Type :=
| MediaRecorderStart
| MediaRecorderPause
| MediaRecorderResume
| MediaRecorderStop
| TrackStop
| SetInterval (id : nat)
| ClearInterval (id : nat)
| OnProgress (seconds : Q)
| OnDataAvailable (chunk : Blob)
| UnhandledRejection (e : VocaFuseError).

(** A method body: it reads and writes the instance, emits effects, and
    completes normally or throws. *)
Definition M (A : Type) : Type :=
  AudioRecorder -> result A * AudioRecorder * list Effect.

Definition ret {A : Type} (a : A) : M A := fun r => (Ok a, r, []).
Definition throw {A : Type} (e : VocaFuseError) : M A :=
  fun r => (Throw (ThrowError (SdkError e)), r, []).
Definition rethrow {A : Type} (t : thrown) : M A := fun r => (Throw t, r, []).
Definition get : M AudioRecorder := fun r => (Ok r, r, []).
Definition put (r' : AudioRecorder) : M unit := fun _ => (Ok tt, r', []).
Definition emit (e : Effect) : M unit := fun r => (Ok tt, r, [e]).

Definition mbind {A B : Type} (m : M A) (k : A -> M B) : M B :=
  fun r =>
    match m r with
    | (Ok a, r1, t1) =>
        match k a r1 with
        | (x, r2, t2) => (x, r2, (t1 ++ t2)%list)
        end
    | (Throw t, r1, t1) => (Throw t, r1, t1)
    end.

(** [try { body } catch (error) { handler(error) }]. *)
Definition mcatch {A : Type} (body : M A) (handler : thrown -> M A) : M A :=
  fun r =>
    match body r with
    | (Ok a, r1, t1) => (Ok a, r1, t1)
    | (Throw t, r1, t1) =>
        match handler t r1 with
        | (x, r2, t2) => (x, r2, (t1 ++ t2)%list)
        end
    end.

Declare Scope rec_scope.
Delimit Scope rec_scope with rec.
Notation "x <- m ;; k" := (mbind m (fun x => k))
  (at level 61, m at next level, right associativity) : rec_scope.
Notation "m ;;; k" := (mbind m (fun _ => k))
  (at level 61, right associativity) : rec_scope.
Local Open Scope rec_scope.

Definition set_mediaRecorder (x : option RecordingState) : M unit :=
  r <- get ;;
  put {| maxDuration := maxDuration r; supportedMimeType := supportedMimeType r;
         mediaRecorder := x; mediaStream := mediaStream r; chunks := chunks r;
         startTime := startTime r; pausedTime := pausedTime r;
         progressTimer := progressTimer r; timerSeq := timerSeq r |}.

Definition set_mediaStream (x : bool) : M unit :=
  r <- get ;;
  put {| maxDuration := maxDuration r; supportedMimeType := supportedMimeType r;
         mediaRecorder := mediaRecorder r; mediaStream := x; chunks := chunks r;
         startTime := startTime r; pausedTime := pausedTime r;
         progressTimer := progressTimer r; timerSeq := timerSeq r |}.

Definition set_chunks (x : list Blob) : M unit :=
  r <- get ;;
  put {| maxDuration := maxDuration r; supportedMimeType := supportedMimeType r;
         mediaRecorder := mediaRecorder r; mediaStream := mediaStream r;
         chunks := x; startTime := startTime r; pausedTime := pausedTime r;
         progressTimer := progressTimer r; timerSeq := timerSeq r |}.

Definition set_startTime (x : Q) : M unit :=
  r <- get ;;
  put {| maxDuration := maxDuration r; supportedMimeType := supportedMimeType r;
         mediaRecorder := mediaRecorder r; mediaStream := mediaStream r;
         chunks := chunks r; startTime := x; pausedTime := pausedTime r;
         progressTimer := progressTimer r; timerSeq := timerSeq r |}.

Definition set_pausedTime (x : Q) : M unit :=
  r <- get ;;
  put {| maxDuration := maxDuration r; supportedMimeType := supportedMimeType r;
         mediaRecorder := mediaRecorder r; mediaStream := mediaStream r;
         chunks := chunks r; startTime := startTime r; pausedTime := x;
         progressTimer := progressTimer r; timerSeq := timerSeq r |}.

Definition set_progressTimer (x : option nat) (seq' : nat) : M unit :=
  r <- get ;;
  put {| maxDuration := maxDuration r; supportedMimeType := supportedMimeType r;
         mediaRecorder := mediaRecorder r; mediaStream := mediaStream r;
         chunks := chunks r; startTime := startTime r; pausedTime := pausedTime r;
         progressTimer := x; timerSeq := seq' |}.

(** [get state()]. *)
Definition state (r : AudioRecorder) : RecorderState :=
  match mediaRecorder r with
  | None => INACTIVE
  | Some s => state_string s
  end.

(** [get currentDuration()], with [now] the value of [Date.now()]. *)
Definition currentDuration (r : AudioRecorder) (now : Q) : Q :=
  if String.eqb (state r) INACTIVE then 0
  else if String.eqb (state r) PAUSED then pausedTime r
  else (now - startTime r) / 1000.

Definition stopProgressTimer : M unit :=
  r <- get ;;
  match progressTimer r with
  | Some id =>
      emit (ClearInterval id) ;;;
      set_progressTimer None (timerSeq r)
  | None => ret tt
  end.

(** [startProgressTimer]: installs the interval whose callback is [tick]. *)
Definition startProgressTimer : M unit :=
  stopProgressTimer ;;;
  r <- get ;;
  emit (SetInterval (S (timerSeq r))) ;;;
  set_progressTimer (Some (S (timerSeq r))) (S (timerSeq r)).

Definition cleanup : M unit :=
  stopProgressTimer ;;;
  r <- get ;;
  (if mediaStream r
   then emit TrackStop ;;; set_mediaStream false
   else ret tt) ;;;
  set_mediaRecorder None ;;;
  set_chunks [] ;;;
  set_startTime 0 ;;;
  set_pausedTime 0.

Definition extractFormatFromMimeType (mime : string) : string :=
  if includes "webm" mime then "webm"
  else if includes "ogg" mime then "ogg"
  else if includes "mp4" mime then "mp4"
  else "unknown".

(** [requestMicrophoneAccess], given how [getUserMedia] settles. *)
Definition requestMicrophoneAccess (access : result unit) : M unit :=
  match access with
  | Ok _ => ret tt
  | Throw (ThrowError e) =>
      if String.eqb (error_name e) "NotAllowedError"
      then throw (new_VoicenoteError MICROPHONE_ACCESS_DENIED
             "Microphone access denied. Please allow microphone access and try again."
             (Some e) None)
      else rethrow (ThrowError e)
  | Throw t => rethrow t
  end.

(** [start()], with the outcome of the permission request and the time read
    once the stream is there. *)
Definition start (access : result unit) (now : Q) : M unit :=
  mcatch
    (r <- get ;;
     (if negb (String.eqb (state r) INACTIVE)
      then throw (new_VoicenoteError RECORDING_FAILED
             ("Cannot start voicenote: current state is " ++ state r) None None)
      else ret tt) ;;;
     requestMicrophoneAccess access ;;;
     set_mediaStream true ;;;
     set_mediaRecorder (Some MRInactive) ;;;
     set_chunks [] ;;;
     set_startTime now ;;;
     set_pausedTime 0 ;;;
     emit MediaRecorderStart ;;;
     set_mediaRecorder (Some MRRecording) ;;;
     startProgressTimer)
    (fun error =>
       cleanup ;;;
       if instanceof_class CVoicenoteError error then rethrow error
       else
         match error with
         | ThrowError e =>
             if String.eqb (error_name e) "NotAllowedError"
             then throw (new_VoicenoteError MICROPHONE_ACCESS_DENIED
                    "Microphone access was denied by the user" (Some e) None)
             else if String.eqb (error_name e) "NotFoundError"
             then throw (new_VoicenoteError RECORDING_NOT_SUPPORTED
                    "No microphone found on this device" (Some e) None)
             else if String.eqb (error_name e) "NotSupportedError"
             then throw (new_VoicenoteError RECORDING_NOT_SUPPORTED
                    "MediaRecorder is not supported in this browser" (Some e) None)
             else throw (wrapUnknownError error
                           (Some [("operation", VStr "start voicenote")]))
         | ThrowValue _ =>
             throw (wrapUnknownError error
                      (Some [("operation", VStr "start voicenote")]))
         end).

Definition pause (now : Q) : M unit :=
  r <- get ;;
  if negb (String.eqb (state r) RECORDING)
  then throw (new_VoicenoteError RECORDING_FAILED
         ("Cannot pause voicenote: current state is " ++ state r) None None)
  else
    emit MediaRecorderPause ;;;
    set_mediaRecorder (Some MRPaused) ;;;
    set_pausedTime ((now - startTime r) / 1000) ;;;
    stopProgressTimer.

Definition resume (now : Q) : M unit :=
  r <- get ;;
  if negb (String.eqb (state r) PAUSED)
  then throw (new_VoicenoteError RECORDING_FAILED
         ("Cannot resume voicenote: current state is " ++ state r) None None)
  else
    emit MediaRecorderResume ;;;
    set_mediaRecorder (Some MRRecording) ;;;
    set_startTime (now - pausedTime r * 1000) ;;;
    startProgressTimer.

(** The executor of the promise [stop()] returns: it rejects at once when
    nothing is active, and otherwise asks the platform recorder to stop and
    leaves the promise pending until the platform's [stop] event. *)
Definition stop_executor : M unit :=
  r <- get ;;
  if String.eqb (state r) INACTIVE
  then throw (new_VoicenoteError RECORDING_FAILED
         "Cannot stop voicenote: no active voicenote" None None)
  else
    emit MediaRecorderStop ;;;
    set_mediaRecorder (Some MRInactive) ;;;
    stopProgressTimer.

(** [handleStop], from the end of its 100 ms wait; [now] is the time read
    there.  Its completion settles the promise of [stop()]. *)
Definition handleStop (now : Q) : M VoicenoteResult :=
  r <- get ;;
  let duration := (now - startTime r) / 1000 in
  let blob := new_Blob (chunks r) (supportedMimeType r) in
  let format := extractFormatFromMimeType (supportedMimeType r) in
  cleanup ;;;
  ret {| blob := blob; mimeType := supportedMimeType r; duration := duration;
         size := blob_size blob; format := format |}.

Definition cancel : M unit :=
  r <- get ;;
  if String.eqb (state r) INACTIVE then ret tt
  else
    emit MediaRecorderStop ;;;
    set_mediaRecorder (Some MRInactive) ;;;
    stopProgressTimer ;;;
    cleanup.

(** The [dataavailable] listener. *)
Definition onDataAvailable (chunk : Blob) : M unit :=
  r <- get ;;
  if (0 <? blob_size chunk)%Z
  then set_chunks (chunks r ++ [chunk]) ;;; emit (OnDataAvailable chunk)
  else ret tt.

(** *** One capture session on the event loop

    The application's calls, the interval's ticks and the platform
    recorder's [dataavailable] and [stop] events, one at a time (the
    recorder's [error] event is left out of the runs).  A promise returned by
    [stop()] stays pending from [stop_executor] until the platform's [stop]
    event has run [handleStop]; [pendingStop] remembers who holds it.

    The [dataavailable] listener is attached to the platform recorder, not
    to the field [mediaRecorder]: a recorder that [cleanup] let go without
    stopping it (in the [catch] clause of a [start()] on an active recorder)
    goes on recording and calling the listener.  The instance keeps no
    record of such recorders, so a [DataAvailable] event is accepted in every
    state of the instance; a tick runs only while an interval is installed,
    and a [stop] event only while a [handleStop] listener is attached. *)

Inductive StopOrigin : Type :=
| ByCaller   (* the application called [stop()] and awaits the promise *)
| ByTimer.   (* the interval callback called [this.stop().catch(...)] *)

Inductive Input : Type :=
| CallStart (access : result unit) (now : Q)
| CallPause (now : Q)
| CallResume (now : Q)
| CallStop
| CallCancel
| TimerTick (now : Q)
| DataAvailable (chunk : Blob)
| StopEvent (now : Q).

(** What can be seen from outside: effects, how each synchronous call
    completed, and how a [stop()] promise settled.  For [ByTimer] the
    resolution has no consumer; only the [catch] handler is attached. *)
Inductive Obs : Type :=
| Eff (e : Effect)
| Returned (method : string) (r : result unit)
| StopSettled (who : StopOrigin) (r : result VoicenoteResult).

Record Session : Type := mkSession {
  rec : AudioRecorder;
  pendingStop : option StopOrigin;
  log : list Obs
}.

Definition newSession (maxDur : Q) (mime : string) : Session :=
  {| rec := newAudioRecorder maxDur mime; pendingStop := None; log := [] |}.

Section Timer.

(** Number-to-string conversion of a template literal. *)
Variable js_number : Q -> string.

(** The error the interval callback's [catch] handler throws. *)
Definition tooLongError (r : AudioRecorder) (error : thrown) : VocaFuseError :=
  new_VoicenoteError RECORDING_TOO_LONG
    ("Voicenote stopped: maximum duration of " ++ js_number (maxDuration r)
       ++ " seconds exceeded")
    (match error with ThrowError e => Some e | ThrowValue _ => None end)
    None.

(** The interval callback.  It returns [true] when it left a [stop()]
    promise pending. *)
Definition tick (now : Q) : M bool :=
  r <- get ;;
  let duration := currentDuration r now in
  if Qle_bool (maxDuration r) duration
  then
    mcatch (stop_executor ;;; ret true)
      (fun error =>
         emit (UnhandledRejection (tooLongError r error)) ;;; ret false)
  else emit (OnProgress duration) ;;; ret false.

Definition observe (s : Session) (r : AudioRecorder) (p : option StopOrigin)
    (effects : list Effect) (more : list Obs) : Session :=
  {| rec := r; pendingStop := p;
     log := (log s ++ map Eff effects ++ more)%list |}.

Definition call (s : Session) (method : string) (body : M unit) : Session :=
  match body (rec s) with
  | (x, r, effects) => observe s r (pendingStop s) effects [Returned method x]
  end.

Definition sstep (s : Session) (i : Input) : Session :=
  match i with
  | CallStart access now => call s "start" (start access now)
  | CallPause now => call s "pause" (pause now)
  | CallResume now => call s "resume" (resume now)
  | CallCancel => call s "cancel" cancel
  | CallStop =>
      match stop_executor (rec s) with
      | (Ok _, r, effects) => observe s r (Some ByCaller) effects []
      | (Throw t, r, effects) =>
          observe s r (pendingStop s) effects [StopSettled ByCaller (Throw t)]
      end
  | TimerTick now =>
      match progressTimer (rec s) with
      | None => s
      | Some _ =>
          match tick now (rec s) with
          | (Ok true, r, effects) => observe s r (Some ByTimer) effects []
          | (_, r, effects) => observe s r (pendingStop s) effects []
          end
      end
  | DataAvailable chunk =>
      match onDataAvailable chunk (rec s) with
      | (_, r, effects) => observe s r (pendingStop s) effects []
      end
  | StopEvent now =>
      match pendingStop s with
      | None => s
      | Some who =>
          let r0 := rec s in
          match handleStop now r0 with
          | (Ok res, r, effects) =>
              observe s r None effects [StopSettled who (Ok res)]
          | (Throw t, r, effects) =>
              observe s r None effects
                (StopSettled who (Throw t)
                 :: match who with
                    | ByTimer => [Eff (UnhandledRejection (tooLongError r0 t))]
                    | ByCaller => []
                    end)
          end
      end
  end.

Definition srun (s : Session) (inputs : list Input) : Session :=
  fold_left sstep inputs s.

(** The ticks of an interval installed at time [t0]: one every 100 ms. *)
Definition ticks (t0 : Q) (n : nat) : list Input :=
  map (fun k => TimerTick (t0 + 100 * inject_Z (Z.of_nat k))) (seq 1 n).

(** Does the log carry the "too long" condition in any form? *)
Definition is_too_long (o : Obs) : bool :=
  match o with
  | Eff (UnhandledRejection e) =>
      match code e with RECORDING_TOO_LONG => true | _ => false end
  | Returned _ (Throw (ThrowError (SdkError e)))
  | StopSettled _ (Throw (ThrowError (SdkError e))) =>
      match code e with RECORDING_TOO_LONG => true | _ => false end
  | _ => false
  end.

Definition reports_too_long (s : Session) : bool := existsb is_too_long (log s).

End Timer.

End Recorder.


(* ================================================================= *)
(** ** upload.ts *)

Module Upload.

Import Recorder.

Inductive UploadType : Type := Single | Multipart.

Record Part : Type := mkPart {
  part_number : Z;
  part_presigned_url : string;
  start_byte : Z;
  end_byte : Z;
  content_length : Z
}.

Record PresignedUrlResponse : Type := mkPresigned {
  voicenote_id : string;
  upload_type : UploadType;
  presigned_url : option string;
  s3_key : string;
  processing_strategy : string;
  client_processed : bool;
  upload_info : option (list Part)   (* [upload_info.parts] *)
}.

Record UploadResult : Type := mkUploadResult {
  r_voicenote_id : string;
  r_upload_type : UploadType;
  r_processing_strategy : string;
  r_client_processed : bool;
  r_s3_key : string;
  file_size : Z;
  duration_seconds : Q;
  audio_format : string
}.

(** Which callbacks the configuration carries. *)
Record UploadConfig : Type := mkUploadConfig {
  has_onProgress : bool;
  has_onUploadProgress : bool;
  has_onComplete : bool;
  has_onError : bool
}.

(** How one [XMLHttpRequest] ends: a [load] event with the response status,
    an [error] event, or a [timeout] event.  The [progress] events before
    that only feed the progress callback and are left out. *)
Inductive XhrOutcome : Type :=
| XhrLoad (status : Z) (statusText : string)
| XhrError
| XhrTimeout.

Inductive Effect : Type :=
| OnProgress (percentage : Q)
| OnUploadProgress (percentage : Q)
| XhrPut (url : string) (body : Blob)
| OnComplete (r : UploadResult)
| OnError (e : VocaFuseError).

Definition notifyProgress (cfg : UploadConfig) (percentage : Q) : list Effect :=
  if has_onUploadProgress cfg then [OnUploadProgress percentage]
  else if has_onProgress cfg then [OnProgress percentage]
  else [].

Definition status_ok (status : Z) : bool :=
  ((200 <=? status) && (status <? 300))%Z.

(** How the promise of [uploadSingle] settles once the request ended. *)
Definition uploadSingle_settled (o : XhrOutcome) : result unit :=
  match o with
  | XhrLoad status statusText =>
      if status_ok status then Ok tt
      else Throw (ThrowError (SdkError
             (new_UploadError
                ("Upload failed with status " ++ string_of_Z status ++ ": "
                   ++ statusText) None None None)))
  | XhrError =>
      Throw (ThrowError (SdkError
        (new_NetworkError "Network error during upload" None None None)))
  | XhrTimeout =>
      Throw (ThrowError (SdkError
        (new_NetworkError "Upload timed out" None None None)))
  end.

(** How the promise of [uploadPart(chunk, url, partIndex, totalParts)]
    settles once the part's request ended. *)
Definition uploadPart_settled (partIndex : nat) (o : XhrOutcome) : result unit :=
  let n := string_of_Z (Z.of_nat partIndex + 1) in
  match o with
  | XhrLoad status statusText =>
      if status_ok status then Ok tt
      else Throw (ThrowError (SdkError
             (new_UploadError
                ("Part " ++ n ++ " upload failed with status "
                   ++ string_of_Z status ++ ": " ++ statusText) None None None)))
  | XhrError =>
      Throw (ThrowError (SdkError
        (new_NetworkError ("Network error during part " ++ n ++ " upload")
           None None None)))
  | XhrTimeout =>
      Throw (ThrowError (SdkError
        (new_NetworkError ("Part " ++ n ++ " upload timed out") None None None)))
  end.

Definition is_rejected {A : Type} (r : result A) : bool :=
  match r with Ok _ => false | Throw _ => true end.

(** The order in which [n] concurrent promises settle: the indices of
    [order] first, as listed, then whatever is left, by index. *)
Definition settle_sequence (n : nat) (order : list nat) : list nat :=
  (filter (fun i => (i <? n)%nat) order ++ seq 0 n)%list.

(** [Promise.all]: rejected with the reason of the promise that is the first
    to reject, fulfilled when none rejects. *)
Definition promise_all (n : nat) (settled : nat -> result unit)
    (order : list nat) : result unit :=
  match find (fun i => is_rejected (settled i)) (settle_sequence n order) with
  | Some i => settled i
  | None => Ok tt
  end.

Section Uploader.

Variable js_String : value -> string.
Variable cfg : UploadConfig.

Definition as_Error (t : thrown) : JsError :=
  match t with
  | ThrowError e => e
  | ThrowValue v => PlainError "Error" (js_String v)
  end.

(** [requestPresignedUrl], given how its [try] block (the credential, the
    request to [/upload], and [response.data]) completes. *)
Definition requestPresignedUrl (presign : result PresignedUrlResponse)
  : result PresignedUrlResponse :=
  match presign with
  | Ok r => Ok r
  | Throw t =>
      Throw (ThrowError (SdkError
        (new_UploadError "Failed to get presigned upload URL"
           (Some (as_Error t)) None None)))
  end.

Definition uploadSingle (b : Blob) (response : PresignedUrlResponse)
    (xhr : XhrOutcome) : result unit * list Effect :=
  match presigned_url response with
  | Some url =>
      if String.eqb url ""
      then (Throw (ThrowError (SdkError
              (new_UploadError "No presigned URL provided for single upload"
                 None None None))), [])
      else (uploadSingle_settled xhr, [XhrPut url b])
  | None =>
      (Throw (ThrowError (SdkError
         (new_UploadError "No presigned URL provided for single upload"
            None None None))), [])
  end.

(** [uploadMultipart]: every part's request is sent, in plan order, before
    anything is awaited; the parts' promises go to [Promise.all]. *)
Definition uploadMultipart (b : Blob) (response : PresignedUrlResponse)
    (xhr_at : nat -> XhrOutcome) (order : list nat)
  : result unit * list Effect :=
  match upload_info response with
  | None =>
      (Throw (ThrowError (SdkError
         (new_UploadError "No multipart upload info provided" None None None))),
       [])
  | Some parts =>
      let sends :=
        map (fun part =>
               XhrPut (part_presigned_url part)
                 (blob_slice b (start_byte part) (end_byte part + 1)))
            parts in
      (promise_all (List.length parts)
         (fun index => uploadPart_settled index (xhr_at index)) order,
       sends)
  end.

(** [upload(voicenote)] under a configuration whose callbacks return
    normally ([UploadCallbacks.upload] below lifts this).  The environment
    gives the completion of the presign step, the end of the single request,
    the end of each part's request and the order in which the parts end. *)
Definition upload (voicenote : VoicenoteResult)
    (presign : result PresignedUrlResponse)
    (xhr_single : XhrOutcome) (xhr_at : nat -> XhrOutcome) (order : list nat)
  : result UploadResult * list Effect :=
  let body : result UploadResult * list Effect :=
    let t0 := notifyProgress cfg 0 in
    match requestPresignedUrl presign with
    | Throw t => (Throw t, t0)
    | Ok presignedResponse =>
        let t1 := (t0 ++ notifyProgress cfg 10)%list in
        let '(sent, t2) :=
          match upload_type presignedResponse with
          | Single => uploadSingle (blob voicenote) presignedResponse xhr_single
          | Multipart =>
              uploadMultipart (blob voicenote) presignedResponse xhr_at order
          end in
        match sent with
        | Throw t => (Throw t, (t1 ++ t2)%list)
        | Ok _ =>
            let result :=
              {| r_voicenote_id := voicenote_id presignedResponse;
                 r_upload_type := upload_type presignedResponse;
                 r_processing_strategy := processing_strategy presignedResponse;
                 r_client_processed := client_processed presignedResponse;
                 r_s3_key := s3_key presignedResponse;
                 file_size := size voicenote;
                 duration_seconds := duration voicenote;
                 audio_format := format voicenote |} in
            (Ok result,
             (t1 ++ t2 ++ notifyProgress cfg 100
                ++ (if has_onComplete cfg then [OnComplete result] else []))%list)
        end
    end in
  match body with
  | (Ok r, trace) => (Ok r, trace)
  | (Throw error, trace) =>
      let uploadError :=
        if instanceof_class CUploadError error
        then match error with
             | ThrowError (SdkError e) => e
             | _ => wrapUnknownError error
                      (Some [("operation", VStr "upload voicenote")])
             end
        else wrapUnknownError error
               (Some [("operation", VStr "upload voicenote")]) in
      (Throw (ThrowError (SdkError uploadError)),
       (trace ++ (if has_onError cfg then [OnError uploadError] else []))%list)
  end.

End Uploader.



End Upload.

(* ================================================================= *)
(** ** recorder-controller.ts *)

Module Controller.

(** [type RecorderState] of the controller. *)
Inductive RecorderState : Type :=
| idle | recording | stopped | uploading | uploaded | error.

Record RecorderOptions : Type := mkRecorderOptions {
  maxDuration : option Q;
  autoUpload : option bool;
  has_onStateChange : bool;
  has_onRecordProgress : bool;
  has_onCancel : bool
}.

Record VoiceRecorder : Type := mkVoiceRecorder {
  audioRecorder : Recorder.AudioRecorder;
  options : RecorderOptions;
  _state : RecorderState;
  _duration : Q;
  recordingResult : option Recorder.VoicenoteResult
}.

Inductive Effect : Type :=
| Device (e : Recorder.Effect)       (* a call on the capture device or timer *)
| StateChange (s : RecorderState)    (* [onStateChange(s)] *)
| OnCancel.                          (* [onCancel()] *)

(** [new VoiceRecorder(httpClient, tokenManager, options)]. *)
Definition newVoiceRecorder (o : RecorderOptions) (mime : string)
  : VoiceRecorder :=
  {| audioRecorder :=
       Recorder.newAudioRecorder
         (match maxDuration o with Some d => d | None => 60 end) mime;
     options := o; _state := idle; _duration := 0; recordingResult := None |}.

Definition setState (newState : RecorderState) (v : VoiceRecorder)
  : VoiceRecorder * list Effect :=
  ({| audioRecorder := audioRecorder v; options := options v;
      _state := newState; _duration := _duration v;
      recordingResult := recordingResult v |},
   if has_onStateChange (options v) then [StateChange newState] else []).

Definition with_recorder (r : Recorder.AudioRecorder) (v : VoiceRecorder)
  : VoiceRecorder :=
  {| audioRecorder := r; options := options v; _state := _state v;
     _duration := _duration v; recordingResult := recordingResult v |}.

Definition state_name (s : RecorderState) : string :=
  match s with
  | idle => "idle" | recording => "recording" | stopped => "stopped"
  | uploading => "uploading" | uploaded => "uploaded" | error => "error"
  end.

Definition start (access : result unit) (now : Q) (v : VoiceRecorder)
  : result unit * VoiceRecorder * list Effect :=
  match _state v with
  | idle =>
      let '(v1, t1) := setState recording v in
      match Recorder.start access now (audioRecorder v1) with
      | (x, r, t2) => (x, with_recorder r v1, (t1 ++ map Device t2)%list)
      end
  | s =>
      (Throw (ThrowError (SdkError
         (new_VoicenoteError RECORDING_FAILED
            ("Cannot start recording from state: " ++ state_name s) None None))),
       v, [])
  end.

Definition cancel (v : VoiceRecorder)
  : result unit * VoiceRecorder * list Effect :=
  match Recorder.cancel (audioRecorder v) with
  | (Throw t, r, t1) => (Throw t, with_recorder r v, map Device t1)
  | (Ok _, r, t1) =>
      let '(v1, t2) := setState idle (with_recorder r v) in
      let v2 :=
        {| audioRecorder := audioRecorder v1; options := options v1;
           _state := _state v1; _duration := 0; recordingResult := None |} in
      (Ok tt, v2,
       (map Device t1 ++ t2
          ++ (if has_onCancel (options v) then [OnCancel] else []))%list)
  end.

Definition pause (now : Q) (v : VoiceRecorder)
  : result unit * VoiceRecorder * list Effect :=
  match Recorder.pause now (audioRecorder v) with
  | (x, r, t) => (x, with_recorder r v, map Device t)
  end.

Definition resume (now : Q) (v : VoiceRecorder)
  : result unit * VoiceRecorder * list Effect :=
  match Recorder.resume now (audioRecorder v) with
  | (x, r, t) => (x, with_recorder r v, map Device t)
  end.

Definition is_notification (e : Effect) : bool :=
  match e with StateChange _ => true | _ => false end.

Definition is_device_call (e : Effect) : bool :=
  match e with Device _ => true | _ => false end.

End Controller.

(* ================================================================= *)
(** ** A platform to run the helpers on

    [atob] as the HTML standard defines it (forgiving base64 decoding),
    [String(v)] on primitive values, and a cut-down [JSON.parse] that knows
    the three literal texts and rejects every other input.  The general
    theorems hold for any such functions; these serve to evaluate the code
    on concrete inputs. *)

Module Platform.

Definition b64_digit (ch : ascii) : option N :=
  let n := N_of_ascii ch in
  if ((65 <=? n) && (n <=? 90))%N then Some (n - 65)%N
  else if ((97 <=? n) && (n <=? 122))%N then Some (n - 71)%N
  else if ((48 <=? n) && (n <=? 57))%N then Some (n + 4)%N
  else if (n =? 43)%N then Some 62%N
  else if (n =? 47)%N then Some 63%N
  else None.

Definition is_ascii_whitespace (ch : ascii) : bool :=
  let n := N_of_ascii ch in
  ((n =? 9) || (n =? 10) || (n =? 12) || (n =? 13) || (n =? 32))%N.

Fixpoint digits (l : list ascii) : option (list N) :=
  match l with
  | [] => Some []
  | ch :: rest =>
      match b64_digit ch, digits rest with
      | Some d, Some ds => Some (d :: ds)
      | _, _ => None
      end
  end.

Fixpoint decode_sextets (l : list N) : list N :=
  match l with
  | a :: b :: c :: d :: rest =>
      let n := (a * 262144 + b * 4096 + c * 64 + d)%N in
      (n / 65536)%N :: ((n / 256) mod 256)%N :: (n mod 256)%N
        :: decode_sextets rest
  | [a; b; c] =>
      let n := (a * 4096 + b * 64 + c)%N in
      [(n / 1024)%N; ((n / 4) mod 256)%N]
  | [a; b] => [((a * 64 + b) / 16)%N]
  | _ => []
  end.

Definition strip_padding (l : list ascii) : list ascii :=
  if (List.length l mod 4 =? 0)%nat
  then
    match rev l with
    | "="%char :: "="%char :: r => rev r
    | "="%char :: r => rev r
    | _ => l
    end
  else l.

Definition invalidCharacter : thrown :=
  ThrowError (PlainError "InvalidCharacterError"
                "The string to be decoded is not correctly encoded.").

Definition atob (s : string) : result string :=
  let chars :=
    strip_padding
      (filter (fun ch => negb (is_ascii_whitespace ch)) (list_ascii_of_string s)) in
  if (List.length chars mod 4 =? 1)%nat then Throw invalidCharacter
  else
    match digits chars with
    | None => Throw invalidCharacter
    | Some ds => Ok (string_of_list_ascii (map ascii_of_N (decode_sextets ds)))
    end.

(** A number in a template literal, rendered when integral. *)
Definition js_number (q : Q) : string := string_of_Z (Qfloor q).

(** [String(v)] on primitive values. *)
Definition js_String (v : value) : string :=
  match v with
  | VUndefined => "undefined"
  | VNull => "null"
  | VBool true => "true"
  | VBool false => "false"
  | VNum q => js_number q
  | VStr s => s
  | VArr _ => ""
  | VObj _ => "[object Object]"
  end.

Definition JSON_parse_literals (s : string) : result value :=
  if String.eqb s "null" then Ok VNull
  else if String.eqb s "true" then Ok (VBool true)
  else if String.eqb s "false" then Ok (VBool false)
  else Throw (ThrowError (PlainError "SyntaxError" "Unexpected token")).

End Platform.

(* ================================================================= *)
(** ** The vocabulary of the properties, and the runs they are checked on *)

(** *** client.ts *)

(** A body that is no envelope: not an object, or an object without [data]. *)
Definition lacks_envelope (body : value) : bool :=
  negb (is_object body && has_property "data" body).

Definition envelope_of (requestId : string) (body : value) : value :=
  VObj [("object", VStr "response"); ("data", body);
        ("request_id", VStr requestId)].

(** The body [{"foo":1}] of a 200 answer without request id. *)
Definition dquote : string := String (ascii_of_nat 34) EmptyString.

Definition foo_body : value := VObj [("foo", VNum 1)].

Definition foo_response : Client.Response :=
  {| Client.status := 200; Client.statusText := "OK";
     Client.headers := [("Content-Type", "application/json; charset=utf-8")];
     Client.json := Ok foo_body;
     Client.text := Ok ("{" ++ dquote ++ "foo" ++ dquote ++ ":1}") |}.

(** The delay before jitter is added: [baseDelay * backoffFactor^(n-1)]. *)
Definition raw_delay (c : Client.HttpClient) (n : Z) : Q :=
  Client.baseDelay (Client.retryOptions c)
  * Client.backoffFactor (Client.retryOptions c) ^ (n - 1).

(** What [executeRequest] throws for an aborted attempt. *)
Definition timeoutError (url : string) (e : JsError) : VocaFuseError :=
  new_NetworkError "Request timeout" (Some e) (Some false)
    (Some [("url", VStr url)]).

(** An environment in which the first attempt is aborted by the timeout and
    every later attempt would be answered with [200 OK]. *)
Definition abortError : JsError :=
  PlainError "AbortError" "The operation was aborted.".

Definition okResponse : Client.Response :=
  {| Client.status := 200; Client.statusText := "OK";
     Client.headers := [("content-type", "application/json")];
     Client.json := Ok (VObj [("data", VObj [])]);
     Client.text := Ok "" |}.

Definition first_attempt_times_out (attempt : Z) : result Client.Response :=
  if (attempt =? 1)%Z then Throw (ThrowError abortError) else Ok okResponse.

(** The same with a first attempt that fails in transport. *)
Definition first_attempt_fails (attempt : Z) : result Client.Response :=
  if (attempt =? 1)%Z
  then Throw (ThrowError (PlainError "TypeError" "Failed to fetch"))
  else Ok okResponse.

(** *** token.ts *)

Definition getToken_call (c : nat * Q) : Token.Event :=
  Token.Invoke (fst c) Token.GetToken (snd c).

Definition refreshToken_call (c : nat * Q) : Token.Event :=
  Token.Invoke (fst c) Token.RefreshToken (snd c).

(** A [200] answer of the token endpoint carrying the token [tok]. *)
Definition tokenAnswer (tok : string) : result Token.TokenHttpResponse :=
  Ok {| Token.t_status := 200; Token.t_statusText := "OK";
        Token.t_json :=
          Ok {| Token.success := true;
                Token.data :=
                  Some {| Token.id_token := Some tok;
                          Token.in_token_type := None;
                          Token.in_expires_in := Some 3600;
                          Token.in_tenant_id := Some "tenant";
                          Token.in_scopes := None |} |} |}.

(** The middle segment with its padding, the argument given to [atob]. *)
Definition paddedPayload (token : string) : string :=
  let payload := nth 1 (Token.split "." token) EmptyString in
  payload ++ Token.repeat_string "=" (Z.to_nat (Token.padding payload)).

(** *** recorder.ts *)

(** The durations of the [stop()] promises that resolved, in lowest terms,
    and the completions of the calls of one method. *)
Definition settled_durations (s : Recorder.Session) : list Q :=
  flat_map
    (fun o =>
       match o with
       | Recorder.StopSettled _ (Ok res) => [Qred (Recorder.duration res)]
       | _ => []
       end)
    (Recorder.log s).

Definition returned (method : string) (s : Recorder.Session)
  : list (result unit) :=
  flat_map
    (fun o =>
       match o with
       | Recorder.Returned m r => if String.eqb m method then [r] else []
       | _ => []
       end)
    (Recorder.log s).

Definition device_calls (s : Recorder.Session) : list Recorder.Effect :=
  flat_map
    (fun o =>
       match o with
       | Recorder.Eff Recorder.MediaRecorderStart => [Recorder.MediaRecorderStart]
       | Recorder.Eff Recorder.MediaRecorderPause => [Recorder.MediaRecorderPause]
       | Recorder.Eff Recorder.MediaRecorderResume => [Recorder.MediaRecorderResume]
       | Recorder.Eff Recorder.MediaRecorderStop => [Recorder.MediaRecorderStop]
       | Recorder.Eff Recorder.TrackStop => [Recorder.TrackStop]
       | _ => []
       end)
    (Recorder.log s).

Definition webm : string := "audio/webm;codecs=opus".

(** A session with [maxDuration = 2] started at time 0 and left alone: the
    interval ticks every 100 ms (ticks after the handle is cleared do not
    run), and the platform's [stop] event plus the 100 ms wait of
    [handleStop] end at 2100 ms. *)
Definition unattended_session (js_number : Q -> string) : Recorder.Session :=
  Recorder.srun js_number (Recorder.newSession 2 webm)
    (Recorder.CallStart (Ok tt) 0
     :: Recorder.ticks 0 30 ++ [Recorder.StopEvent 2100])%list.

(** The run of the specification: start, 1.0 s, [pause()], 5.0 s, [resume()],
    1.0 s, [stop()], whose [handleStop] reads the clock 100 ms later. *)
Definition pause_resume_session (js_number : Q -> string) : Recorder.Session :=
  Recorder.srun js_number (Recorder.newSession 60 webm)
    [Recorder.CallStart (Ok tt) 0;
     Recorder.CallPause 1000;
     Recorder.CallResume 6000;
     Recorder.CallStop;
     Recorder.StopEvent 7100].

Definition too_long_code (c : ErrorCode) : bool :=
  match c with RECORDING_TOO_LONG => true | _ => false end.

Definition benign_thrown (t : thrown) : bool :=
  match t with
  | ThrowError (SdkError e) => negb (too_long_code (code e))
  | _ => true
  end.

Definition benign_effect (e : Recorder.Effect) : bool :=
  match e with
  | Recorder.UnhandledRejection v => negb (too_long_code (code v))
  | _ => true
  end.

Definition benign_result {A : Type} (x : result A) : bool :=
  match x with Ok _ => true | Throw t => benign_thrown t end.

(** A method body is quiet when it keeps the limit and neither emits nor
    throws the "too long" error. *)
Definition quiet_at {A : Type} (m : Recorder.M A) (r : Recorder.AudioRecorder)
  : Prop :=
  Recorder.maxDuration (snd (fst (m r))) = Recorder.maxDuration r
  /\ forallb benign_effect (snd (m r)) = true
  /\ benign_result (fst (fst (m r))) = true.

Definition quiet {A : Type} (m : Recorder.M A) : Prop := forall r, quiet_at m r.

(** The permission request fails, if it does, with a platform error. *)
Definition platform_access (access : result unit) : Prop :=
  match access with
  | Throw (ThrowError (SdkError _)) => False
  | _ => True
  end.

Definition platform_input (i : Recorder.Input) : Prop :=
  match i with
  | Recorder.CallStart access _ => platform_access access
  | _ => True
  end.

(** *** upload.ts *)

(** A part's transfer succeeds when its request loads with a 2xx status. *)
Definition transfer_ok (o : Upload.XhrOutcome) : bool :=
  match o with
  | Upload.XhrLoad status _ => Upload.status_ok status
  | Upload.XhrError | Upload.XhrTimeout => false
  end.



(** The requests a multipart plan sends: one [PUT] per part, in plan order,
    with the bytes [[start_byte, end_byte]] of the blob. *)
Definition part_requests (b : Blob) (parts : list Upload.Part)
  : list Upload.Effect :=
  map (fun part =>
         Upload.XhrPut (Upload.part_presigned_url part)
           (blob_slice b (Upload.start_byte part) (Upload.end_byte part + 1)))
      parts.

(** A plan of three parts of two bytes each, for a recording of six bytes. *)
Definition six_bytes : Blob :=
  {| blob_bytes := List.repeat Byte.x2a 6; blob_type := "audio/webm" |}.

Definition six_byte_voicenote : Recorder.VoicenoteResult :=
  {| Recorder.blob := six_bytes; Recorder.mimeType := "audio/webm";
     Recorder.duration := 2; Recorder.size := 6; Recorder.format := "webm" |}.

Definition three_parts : list Upload.Part :=
  [ {| Upload.part_number := 1; Upload.part_presigned_url := "https://s3/p1";
       Upload.start_byte := 0; Upload.end_byte := 1; Upload.content_length := 2 |};
    {| Upload.part_number := 2; Upload.part_presigned_url := "https://s3/p2";
       Upload.start_byte := 2; Upload.end_byte := 3; Upload.content_length := 2 |};
    {| Upload.part_number := 3; Upload.part_presigned_url := "https://s3/p3";
       Upload.start_byte := 4; Upload.end_byte := 5; Upload.content_length := 2 |} ].

Definition three_part_plan : Upload.PresignedUrlResponse :=
  {| Upload.voicenote_id := "vn_1"; Upload.upload_type := Upload.Multipart;
     Upload.presigned_url := None; Upload.s3_key := "k";
     Upload.processing_strategy := "standard"; Upload.client_processed := false;
     Upload.upload_info := Some three_parts |}.

Definition all_callbacks : Upload.UploadConfig :=
  {| Upload.has_onProgress := true; Upload.has_onUploadProgress := false;
     Upload.has_onComplete := true; Upload.has_onError := true |}.

(** Part 2 answers [500]; parts 1 and 3 answer [200]. *)
Definition part2_status_500 (index : nat) : Upload.XhrOutcome :=
  if (index =? 1)%nat then Upload.XhrLoad 500 "Internal Server Error"
  else Upload.XhrLoad 200 "OK".


(** *** recorder-controller.ts *)

(** The notifications an idle [cancel()] makes: the state hook, then the
    cancel hook, each if the options carry it. *)
Definition idle_cancel_trace (o : Controller.RecorderOptions)
  : list Controller.Effect :=
  ((if Controller.has_onStateChange o
    then [Controller.StateChange Controller.idle] else [])
   ++ (if Controller.has_onCancel o then [Controller.OnCancel] else []))%list.

(** A controller fresh from its constructor, with every hook set. *)
Definition hooked_options : Controller.RecorderOptions :=
  {| Controller.maxDuration := None; Controller.autoUpload := None;
     Controller.has_onStateChange := true;
     Controller.has_onRecordProgress := true;
     Controller.has_onCancel := true |}.

Definition fresh_controller : Controller.VoiceRecorder :=
  Controller.newVoiceRecorder hooked_options webm.

(* ================================================================= *)
(** ** Further vocabulary *)

(** *** client.ts *)

(** The one kind of failed attempt [request] goes on from: the [fetch]
    rejected with an [Error] that is not named [AbortError]. *)
Definition transient (settled : result Client.Response) : bool :=
  match settled with
  | Throw (ThrowError e) => negb (String.eqb (error_name e) "AbortError")
  | _ => false
  end.

(** What [executeRequest] throws for such a rejection. *)
Definition transportError (url : string) (e : JsError) : VocaFuseError :=
  new_NetworkError "Network request failed" (Some e) (Some true)
    (Some [("url", VStr url)]).

(** A completion of [request]: a value, or a thrown [VocaFuseError]. *)
Definition sdk_completion {A : Type} (x : result A) : Prop :=
  match x with
  | Ok _ => True
  | Throw (ThrowError (SdkError _)) => True
  | Throw _ => False
  end.

(* ================================================================= *)
(** ** Further code: constructors, token info, formats, upload request,
    and the controller's [stop] *)

(** *** client.ts and index.ts: the constructors *)

Module Sdk.

(** [ClientConfig]; an absent field is [None]. *)
Record ClientConfig : Type := mkClientConfig {
  cfg_baseUrl : option string;
  cfg_timeout : option Q;
  cfg_retries : option Client.RetryOptions
}.

(** [new HttpClient(config)]. *)
Definition new_HttpClient (config : ClientConfig) : Client.HttpClient :=
  {| Client.baseUrl := str_or (cfg_baseUrl config) "";
     Client.timeout := Token.q_or (cfg_timeout config) 30000;
     Client.retryOptions :=
       match cfg_retries config with
       | Some r => r
       | None => Client.defaultRetryOptions
       end |}.

(** [SDKConfig]; an absent field is [None]. *)
Record SDKConfig : Type := mkSDKConfig {
  tokenEndpoint : string;
  apiBaseUrl : option string;
  timeout : option Q;
  retries : option Z
}.

Record VocaFuseSDK : Type := mkVocaFuseSDK {
  tokenManager : Token.TokenManager;
  httpClient : Client.HttpClient
}.

(** [new VocaFuseSDK(config)]. *)
Definition new_VocaFuseSDK (config : SDKConfig) : result VocaFuseSDK :=
  if String.eqb (tokenEndpoint config) ""
  then Throw (ThrowError (SdkError
         (new_ConfigurationError
            "tokenEndpoint is required in SDK configuration" None)))
  else
    let apiBase :=
      match apiBaseUrl config with
      | Some u => u
      | None => "https://api.vocafuse.com"
      end in
    let time := match timeout config with Some t => t | None => 30000 end in
    let tries := match retries config with Some r => r | None => 3%Z end in
    Ok {| tokenManager := Token.newTokenManager (tokenEndpoint config);
          httpClient :=
            new_HttpClient
              {| cfg_baseUrl := Some apiBase;
                 cfg_timeout := Some time;
                 cfg_retries :=
                   Some {| Client.maxRetries := tries;
                           Client.baseDelay := 1000;
                           Client.maxDelay := 10000;
                           Client.backoffFactor := 2 |} |} |}.

End Sdk.

(** *** client.ts: [request] from its first statement

    [Client.request] above is [request] from the point where
    [buildRequestOptions] has returned.  Here [buildRequestOptions] comes
    first: it serialises the body, which may throw, outside the [try] of the
    loop, and arms the one abort timer of the whole request, which
    [executeRequest] clears when a [fetch] has settled.  How each [fetch]
    settles is the environment's, as above; that includes an abort by the
    timer or by the caller's signal. *)

Module Requests.

(** [options.body]: absent, a [FormData], or any other value, given with
    how [JSON.stringify] completes on it. *)
Inductive Body : Type :=
| NoBody
| FormData
| Json (stringified : result string).

(** The fields of [RequestOptions] that [buildRequestOptions] reads, the
    headers and the caller's signal apart. *)
Record BuildOptions : Type := mkBuildOptions {
  body : Body;
  timeout : option Q
}.

(** The body of the [RequestInit]. *)
Inductive InitBody : Type :=
| NoInitBody
| FormBody
| Text (s : string).

(** The [RequestInit] built, the headers and the signal apart;
    [timeoutDelay] is the delay of the timer behind [timeoutId]. *)
Record RequestInit : Type := mkRequestInit {
  init_method : string;
  init_body : InitBody;
  timeoutDelay : Q
}.

(** What a request does, in order. *)
Inductive Event : Type :=
| SetTimeout (ms : Q)       (* the abort timer is armed *)
| Fetch (attempt : Z)       (* [fetch] is called *)
| ClearTimeout              (* [clearTimeout(options.timeoutId)] *)
| Sleep (ms : Q).           (* the wait before the next attempt *)

Section Request.

Variable js_String : value -> string.
Variable c : Client.HttpClient.
Variable fetch_at : Z -> result Client.Response.
Variable random_at : Z -> Q.

(** [buildRequestOptions(options)]. *)
Definition buildRequestOptions (options : Client.RequestOptions)
    (o : BuildOptions) : result RequestInit * list Event :=
  let serialised : result InitBody :=
    match body o with
    | NoBody => Ok NoInitBody
    | FormData => Ok FormBody
    | Json (Ok s) => Ok (Text s)
    | Json (Throw t) => Throw t
    end in
  match serialised with
  | Throw t => (Throw t, [])
  | Ok b =>
      let delay := Token.q_or (timeout o) (Client.timeout c) in
      (Ok {| init_method := str_or (Client.method options) "GET";
             init_body := b;
             timeoutDelay := delay |},
       [SetTimeout delay])
  end.

(** The [for] loop of [request], as [Client.request_loop], with what it
    does: every [executeRequest] calls [fetch] and then [clearTimeout]. *)
Fixpoint request_loop (fullUrl : string) (options : Client.RequestOptions)
    (maxAttempts : Z) (fuel : nat) (attempt : Z) (lastError : option JsError)
  : result value * list Event :=
  match fuel with
  | O => (Client.exhausted fullUrl options maxAttempts lastError, [])
  | S fuel' =>
      let outcome :=
        match Client.executeRequest fullUrl (fetch_at attempt) with
        | Ok response => Client.processResponse response
        | Throw t => Throw t
        end in
      let events := [Fetch attempt; ClearTimeout] in
      match outcome with
      | Ok v => (Ok v, events)
      | Throw t =>
          let err := Client.as_Error js_String t in
          if (attempt =? maxAttempts)%Z
             || negb (Client.shouldRetry c err attempt)
          then (Client.exhausted fullUrl options maxAttempts (Some err), events)
          else
            let delay :=
              Client.calculateRetryDelay c attempt (random_at attempt) in
            match request_loop fullUrl options maxAttempts fuel' (attempt + 1)
                    (Some err) with
            | (x, rest) => (x, (events ++ Sleep delay :: rest)%list)
            end
      end
  end.

(** [request(url, options)]. *)
Definition request (url : string) (options : Client.RequestOptions)
    (o : BuildOptions) : result value * list Event :=
  let fullUrl := Client.buildUrl c url in
  match buildRequestOptions options o with
  | (Throw t, events) => (Throw t, events)
  | (Ok requestOptions, events) =>
      let maxAttempts :=
        (match Client.retries options with
         | Some r => r
         | None => Client.maxRetries (Client.retryOptions c)
         end + 1)%Z in
      match request_loop fullUrl options maxAttempts (Z.to_nat maxAttempts) 1
              None with
      | (x, rest) => (x, (events ++ rest)%list)
      end
  end.

End Request.

(** The attempts, the waits and the timers of a run. *)
Definition fetches (events : list Event) : list Z :=
  flat_map (fun e => match e with Fetch n => [n] | _ => [] end) events.

Definition sleeps (events : list Event) : list Q :=
  flat_map (fun e => match e with Sleep d => [d] | _ => [] end) events.


End Requests.

(** *** token.ts: [getTokenInfo] *)

Module TokenInfo.

Record Info : Type := mkInfo {
  isValid : bool;
  expiresAt : option Q;
  tenantId : option string;
  scopes : option (list string)
}.

(** [getTokenInfo()], with [now] the value of [Date.now()]. *)
Definition getTokenInfo (m : Token.TokenManager) (now : Q) : Info :=
  if negb (Token.hasValidToken m now)
  then {| isValid := false; expiresAt := None; tenantId := None; scopes := None |}
  else
    match Token.cachedToken m with
    | Some ct =>
        {| isValid := true;
           expiresAt := Some (Token.expiresAt ct);
           tenantId := Some (Token.tenant_id (Token.cached_data ct));
           scopes := Some (Token.scopes (Token.cached_data ct)) |}
    | None =>
        {| isValid := false; expiresAt := None; tenantId := None; scopes := None |}
    end.

End TokenInfo.

(** The number of occurrences of a character in a string. *)
Fixpoint count (ch : ascii) (s : string) : nat :=
  match s with
  | EmptyString => O
  | String x rest => (if Ascii.eqb x ch then 1 else 0) + count ch rest
  end.

(** *** recorder.ts: format detection and the constructor *)

Module Formats.


Section Browser.

(** The platform's [MediaRecorder.isTypeSupported]. *)
Variable isTypeSupported : string -> bool.




End Browser.

End Formats.

(** *** upload.ts: the upload request *)

Module UploadRequest.

Record SdkMetadata : Type := mkSdkMetadata {
  m_duration_seconds : Q;
  sample_rate : Z;
  channels : Z;
  bit_rate : Z;
  codec : string;
  file_size_bytes : Z
}.

Record UploadRequest : Type := mkUploadRequest {
  file_name : string;
  file_size : Z;
  audio_format : string;
  duration_seconds : Q;
  use_multipart : bool;
  sdk_metadata : SdkMetadata
}.

(** [getFileExtension(format)]. *)
Definition getFileExtension (format : string) : string :=
  let f := Client.lower format in
  if String.eqb f "webm" then "webm"
  else if String.eqb f "ogg" then "ogg"
  else if String.eqb f "mp4" then "mp4"
  else "webm".

(** [s.replace(/[:.]/g, '-')]. *)
Fixpoint replace_punctuation (s : string) : string :=
  match s with
  | EmptyString => EmptyString
  | String ch rest =>
      String (if Ascii.eqb ch ":" || Ascii.eqb ch "." then "-"%char else ch)
        (replace_punctuation rest)
  end.

Section Numbers.

(** [Math.round(x * 100) / 100] as the platform computes it, in
    double-precision arithmetic: the product and the quotient are rounded to
    the nearest double, so the value is not always the hundredth nearest to
    [x] (for 1.005 it is 1).  It is left to the platform. *)
Variable hundredths : Q -> Q.

(** [createUploadRequest(voicenote)], with [iso] the value of
    [new Date().toISOString()]. *)
Definition createUploadRequest (voicenote : Recorder.VoicenoteResult)
    (iso : string) : UploadRequest :=
  let timestamp := replace_punctuation iso in
  let extension := getFileExtension (Recorder.format voicenote) in
  let fileName := "voicenote-" ++ timestamp ++ "." ++ extension in
  {| file_name := fileName;
     file_size := Recorder.size voicenote;
     audio_format := Recorder.format voicenote;
     duration_seconds := hundredths (Recorder.duration voicenote);
     use_multipart := (5 * 1024 * 1024 <? Recorder.size voicenote)%Z;
     sdk_metadata :=
       {| m_duration_seconds := hundredths (Recorder.duration voicenote);
          codec := Recorder.format voicenote;
          file_size_bytes := Recorder.size voicenote;
          sample_rate := 44100;
          channels := 1;
          bit_rate := 128000 |} |}.

End Numbers.

End UploadRequest.

(** *** upload.ts: [upload] with callbacks that may throw

    [Upload.upload] above is [upload()] under a configuration whose
    callbacks return normally.  Here a callback is given with how each call
    of it completes; a call that throws inside the [try] block of [upload()]
    lands in its [catch] clause, and [onError] throwing there replaces what
    [upload()] throws.  (The [progress] events of the requests are left out,
    as above: an exception in an event listener does not reach [upload()].) *)

Module UploadCallbacks.

Record Callbacks : Type := mkCallbacks {
  onProgress : option (Q -> result unit);
  onUploadProgress : option (Q -> result unit);
  onComplete : option (Upload.UploadResult -> result unit);
  onError : option (VocaFuseError -> result unit)
}.

(** Which callbacks the configuration carries. *)
Definition config (cb : Callbacks) : Upload.UploadConfig :=
  {| Upload.has_onProgress :=
       match onProgress cb with Some _ => true | None => false end;
     Upload.has_onUploadProgress :=
       match onUploadProgress cb with Some _ => true | None => false end;
     Upload.has_onComplete :=
       match onComplete cb with Some _ => true | None => false end;
     Upload.has_onError :=
       match onError cb with Some _ => true | None => false end |}.

Section Uploader.

Variable js_String : value -> string.
Variable cb : Callbacks.

(** [notifyProgress(progress)]: the callback called, if any, and how the
    call completes. *)
Definition notifyProgress (percentage : Q)
  : result unit * list Upload.Effect :=
  match onUploadProgress cb with
  | Some f => (f percentage, [Upload.OnUploadProgress percentage])
  | None =>
      match onProgress cb with
      | Some f => (f percentage, [Upload.OnProgress percentage])
      | None => (Ok tt, [])
      end
  end.

(** The [try] block of [upload(voicenote)]. *)
Definition upload_body (voicenote : Recorder.VoicenoteResult)
    (presign : result Upload.PresignedUrlResponse)
    (xhr_single : Upload.XhrOutcome) (xhr_at : nat -> Upload.XhrOutcome)
    (order : list nat) : result Upload.UploadResult * list Upload.Effect :=
  let '(p0, t0) := notifyProgress 0 in
  match p0 with
  | Throw t => (Throw t, t0)
  | Ok _ =>
      match Upload.requestPresignedUrl js_String presign with
      | Throw t => (Throw t, t0)
      | Ok presignedResponse =>
          let '(p10, t10) := notifyProgress 10 in
          let t1 := (t0 ++ t10)%list in
          match p10 with
          | Throw t => (Throw t, t1)
          | Ok _ =>
              let '(sent, t2) :=
                match Upload.upload_type presignedResponse with
                | Upload.Single =>
                    Upload.uploadSingle (Recorder.blob voicenote)
                      presignedResponse xhr_single
                | Upload.Multipart =>
                    Upload.uploadMultipart (Recorder.blob voicenote)
                      presignedResponse xhr_at order
                end in
              match sent with
              | Throw t => (Throw t, (t1 ++ t2)%list)
              | Ok _ =>
                  let '(p100, t100) := notifyProgress 100 in
                  let t3 := (t1 ++ t2 ++ t100)%list in
                  match p100 with
                  | Throw t => (Throw t, t3)
                  | Ok _ =>
                      let result :=
                        {| Upload.r_voicenote_id :=
                             Upload.voicenote_id presignedResponse;
                           Upload.r_upload_type :=
                             Upload.upload_type presignedResponse;
                           Upload.r_processing_strategy :=
                             Upload.processing_strategy presignedResponse;
                           Upload.r_client_processed :=
                             Upload.client_processed presignedResponse;
                           Upload.r_s3_key := Upload.s3_key presignedResponse;
                           Upload.file_size := Recorder.size voicenote;
                           Upload.duration_seconds :=
                             Recorder.duration voicenote;
                           Upload.audio_format := Recorder.format voicenote |} in
                      match onComplete cb with
                      | Some f =>
                          match f result with
                          | Ok _ =>
                              (Ok result, (t3 ++ [Upload.OnComplete result])%list)
                          | Throw t =>
                              (Throw t, (t3 ++ [Upload.OnComplete result])%list)
                          end
                      | None => (Ok result, t3)
                      end
                  end
              end
          end
      end
  end.

(** The error of the [catch] clause:
    [error instanceof UploadError ? error : wrapUnknownError(error, ...)]. *)
Definition uploadError (error : thrown) : VocaFuseError :=
  if instanceof_class CUploadError error
  then match error with
       | ThrowError (SdkError e) => e
       | _ => wrapUnknownError error
                (Some [("operation", VStr "upload voicenote")])
       end
  else wrapUnknownError error
         (Some [("operation", VStr "upload voicenote")]).

(** [upload(voicenote)]. *)
Definition upload (voicenote : Recorder.VoicenoteResult)
    (presign : result Upload.PresignedUrlResponse)
    (xhr_single : Upload.XhrOutcome) (xhr_at : nat -> Upload.XhrOutcome)
    (order : list nat) : result Upload.UploadResult * list Upload.Effect :=
  match upload_body voicenote presign xhr_single xhr_at order with
  | (Ok r, trace) => (Ok r, trace)
  | (Throw error, trace) =>
      let e := uploadError error in
      match onError cb with
      | Some f =>
          match f e with
          | Ok _ =>
              (Throw (ThrowError (SdkError e)), (trace ++ [Upload.OnError e])%list)
          | Throw t => (Throw t, (trace ++ [Upload.OnError e])%list)
          end
      | None => (Throw (ThrowError (SdkError e)), trace)
      end
  end.

End Uploader.

End UploadCallbacks.

(** *** recorder-controller.ts: [stop] and [destroy] *)

Module ControllerStop.

(** The upload callbacks of [RecorderOptions]. *)
Record UploadHooks : Type := mkUploadHooks {
  has_onUploadProgress : bool;
  has_onComplete : bool;
  has_onError : bool
}.

(** The configuration the constructor gives its uploader: [onProgress] and
    [onComplete] are the options' hooks, [onError] is always a function, one
    that calls the options' hook when there is one. *)
Definition uploaderConfig (hooks : UploadHooks) : Upload.UploadConfig :=
  {| Upload.has_onProgress := has_onUploadProgress hooks;
     Upload.has_onUploadProgress := false;
     Upload.has_onComplete := has_onComplete hooks;
     Upload.has_onError := true |}.

Inductive Effect : Type :=
| Ctl (e : Controller.Effect)   (* the recorder, the state hook, [onCancel] *)
| Upl (e : Upload.Effect).      (* the requests sent and the upload hooks called *)

(** What the application sees of an uploader effect: the uploader's
    [onError] reaches the options' hook only when that is set. *)
Definition relay (hooks : UploadHooks) (e : Upload.Effect) : list Effect :=
  match e with
  | Upload.OnError _ => if has_onError hooks then [Upl e] else []
  | _ => [Upl e]
  end.

Definition set_result (res : option Recorder.VoicenoteResult)
    (v : Controller.VoiceRecorder) : Controller.VoiceRecorder :=
  {| Controller.audioRecorder := Controller.audioRecorder v;
     Controller.options := Controller.options v;
     Controller._state := Controller._state v;
     Controller._duration := Controller._duration v;
     Controller.recordingResult := res |}.

(** The [dataavailable] events the platform fires on a recorder between
    [MediaRecorder.stop()] and the moment [handleStop], after its wait,
    builds the blob: the listener runs on each chunk, in order. *)
Fixpoint deliver (chunks : list Blob) (r : Recorder.AudioRecorder)
  : Recorder.AudioRecorder * list Recorder.Effect :=
  match chunks with
  | [] => (r, [])
  | chunk :: rest =>
      match Recorder.onDataAvailable chunk r with
      | (_, r1, t1) =>
          match deliver rest r1 with
          | (r2, t2) => (r2, (t1 ++ t2)%list)
          end
      end
  end.

Section Stop.

Variable js_String : value -> string.
Variable hooks : UploadHooks.

(** [stop()].  The environment gives the chunks [final] the platform
    delivers after [MediaRecorder.stop()] and before [handleStop] builds the
    blob, the time [handleStop] reads after its wait, and what
    [Upload.upload] needs:
    the completion of the presign step, the end of the single request, the
    end of each part's request and their order.  The application's hooks
    return normally. *)
Definition stop (now : Q) (final : list Blob)
    (presign : result Upload.PresignedUrlResponse)
    (xhr_single : Upload.XhrOutcome) (xhr_at : nat -> Upload.XhrOutcome)
    (order : list nat) (v : Controller.VoiceRecorder)
  : result (Upload.UploadResult + Recorder.VoicenoteResult)
    * Controller.VoiceRecorder * list Effect :=
  match Controller._state v with
  | Controller.recording =>
      match Recorder.stop_executor (Controller.audioRecorder v) with
      | (Throw t, r, t1) =>
          (Throw t, Controller.with_recorder r v, map Ctl (map Controller.Device t1))
      | (Ok _, r0, t0) =>
          let '(r1, td) := deliver final r0 in
          let t1 := (t0 ++ td)%list in
          match Recorder.handleStop now r1 with
          | (Throw t, r2, t2) =>
              (Throw t, Controller.with_recorder r2 v,
               map Ctl (map Controller.Device (t1 ++ t2)))
          | (Ok res, r2, t2) =>
              let v1 := set_result (Some res) (Controller.with_recorder r2 v) in
              let '(v2, n1) := Controller.setState Controller.stopped v1 in
              let before :=
                (map Ctl (map Controller.Device (t1 ++ t2)) ++ map Ctl n1)%list in
              let autoUpload :=
                match Controller.autoUpload (Controller.options v) with
                | Some false => false
                | _ => true
                end in
              if autoUpload
              then
                let '(v3, n2) := Controller.setState Controller.uploading v2 in
                match Upload.upload js_String (uploaderConfig hooks) res presign
                        xhr_single xhr_at order with
                | (Throw t, u) =>
                    (Throw t, v3,
                     (before ++ map Ctl n2 ++ flat_map (relay hooks) u)%list)
                | (Ok result, u) =>
                    let '(v4, n3) := Controller.setState Controller.uploaded v3 in
                    (Ok (inl result), v4,
                     (before ++ map Ctl n2 ++ flat_map (relay hooks) u
                        ++ map Ctl n3)%list)
                end
              else (Ok (inr res), v2, before)
          end
      end
  | s =>
      (Throw (ThrowError (SdkError
         (new_VoicenoteError RECORDING_FAILED
            ("Cannot stop recording from state: " ++ Controller.state_name s)
            None None))),
       v, [])
  end.

End Stop.

(** [destroy()]. *)
Definition destroy (v : Controller.VoiceRecorder)
  : Controller.VoiceRecorder * list Effect :=
  match Recorder.cancel (Controller.audioRecorder v) with
  | (_, r, t) => (Controller.with_recorder r v, map Ctl (map Controller.Device t))
  end.

(** The state notifications in a trace, in order. *)
Definition notifications (t : list Effect) : list Controller.RecorderState :=
  flat_map
    (fun e =>
       match e with
       | Ctl (Controller.StateChange s) => [s]
       | _ => []
       end)
    t.

End ControllerStop.

(* ================================================================= *)
(** ** Further vocabulary: recorder.ts *)

(** The recorder with everything released: no platform recorder, no stream,
    no chunks, no timer, both clocks at zero. *)
Definition released (r : Recorder.AudioRecorder) : Recorder.AudioRecorder :=
  {| Recorder.maxDuration := Recorder.maxDuration r;
     Recorder.supportedMimeType := Recorder.supportedMimeType r;
     Recorder.mediaRecorder := None;
     Recorder.mediaStream := false;
     Recorder.chunks := [];
     Recorder.startTime := 0;
     Recorder.pausedTime := 0;
     Recorder.progressTimer := None;
     Recorder.timerSeq := Recorder.timerSeq r |}.

(** The calls that release what [r] holds: its interval, its stream. *)
Definition releases (r : Recorder.AudioRecorder) : list Recorder.Effect :=
  (match Recorder.progressTimer r with
   | Some id => [Recorder.ClearInterval id]
   | None => []
   end
   ++ if Recorder.mediaStream r then [Recorder.TrackStop] else [])%list.

(** The recorder is inactive as [get state()] reads it. *)
Definition inactive (r : Recorder.AudioRecorder) : bool :=
  String.eqb (Recorder.state r) Recorder.INACTIVE.

(** The seconds a trace hands to [onProgress]. *)
Definition progress_values (t : list Recorder.Effect) : list Q :=
  flat_map
    (fun e => match e with Recorder.OnProgress d => [d] | _ => [] end) t.

(** The chunks a session handed to [onDataAvailable], in order. *)
Definition data_callbacks (s : Recorder.Session) : list Blob :=
  flat_map
    (fun o =>
       match o with
       | Recorder.Eff (Recorder.OnDataAvailable c) => [c]
       | _ => []
       end)
    (Recorder.log s).

(** How the promises of [stop()] settled in a session, in order. *)
Definition stop_results (s : Recorder.Session)
  : list (result Recorder.VoicenoteResult) :=
  flat_map
    (fun o =>
       match o with
       | Recorder.StopSettled _ x => [x]
       | _ => []
       end)
    (Recorder.log s).

(** The chunks the [dataavailable] listener keeps: those that have bytes. *)
Definition kept (cs : list Blob) : list Blob :=
  filter (fun c => (0 <? blob_size c)%Z) cs.

(** One whole capture on a recorder [r]: [start()] at [t0] with the
    microphone granted, the platform delivering the chunks [cs], [stop()],
    and the platform's [stop] event, whose handler reads the clock at [t1]. *)
Definition capture (js_number : Q -> string) (r : Recorder.AudioRecorder)
    (t0 : Q) (cs : list Blob) (t1 : Q) : Recorder.Session :=
  Recorder.srun js_number
    {| Recorder.rec := r; Recorder.pendingStop := None; Recorder.log := [] |}
    (Recorder.CallStart (Ok tt) t0
     :: map Recorder.DataAvailable cs
     ++ [Recorder.CallStop; Recorder.StopEvent t1])%list.

(** The recorder between [start()] at [t0] and [stop()], holding [cs]. *)
Definition capturing (r : Recorder.AudioRecorder) (t0 : Q) (cs : list Blob)
  : Recorder.AudioRecorder :=
  {| Recorder.maxDuration := Recorder.maxDuration r;
     Recorder.supportedMimeType := Recorder.supportedMimeType r;
     Recorder.mediaRecorder := Some Recorder.MRRecording;
     Recorder.mediaStream := true;
     Recorder.chunks := cs;
     Recorder.startTime := t0;
     Recorder.pausedTime := 0;
     Recorder.progressTimer := Some (S (Recorder.timerSeq r));
     Recorder.timerSeq := S (Recorder.timerSeq r) |}.


(* ================================================================= *)
(** ** Further vocabulary: upload.ts *)


(** Every transfer the presigned response asks for can be sent and ends
    with a status in [200, 300). *)
Definition transfers_succeed (response : Upload.PresignedUrlResponse)
    (xhr_single : Upload.XhrOutcome) (xhr_at : nat -> Upload.XhrOutcome)
  : bool :=
  match Upload.upload_type response with
  | Upload.Single =>
      match Upload.presigned_url response with
      | Some url => negb (String.eqb url "") && transfer_ok xhr_single
      | None => false
      end
  | Upload.Multipart =>
      match Upload.upload_info response with
      | Some parts =>
          forallb (fun i => transfer_ok (xhr_at i)) (seq 0 (List.length parts))
      | None => false
      end
  end.

(** The result [upload] builds from the recording and the response. *)
Definition upload_result (voicenote : Recorder.VoicenoteResult)
    (response : Upload.PresignedUrlResponse) : Upload.UploadResult :=
  {| Upload.r_voicenote_id := Upload.voicenote_id response;
     Upload.r_upload_type := Upload.upload_type response;
     Upload.r_processing_strategy := Upload.processing_strategy response;
     Upload.r_client_processed := Upload.client_processed response;
     Upload.r_s3_key := Upload.s3_key response;
     Upload.file_size := Recorder.size voicenote;
     Upload.duration_seconds := Recorder.duration voicenote;
     Upload.audio_format := Recorder.format voicenote |}.

(** The bytes sent by the [PUT] requests of a trace, in order. *)
Definition put_bytes (t : list Upload.Effect) : list Byte.byte :=
  flat_map
    (fun e =>
       match e with
       | Upload.XhrPut _ body => blob_bytes body
       | _ => []
       end)
    t.

(** A plan whose parts tile the bytes [[from, size)]: each part starts where
    the one before it ended, none is empty, and the last ends at the last
    byte.  [start_byte] and [end_byte] are both inclusive. *)
Fixpoint tiles (from : Z) (parts : list Upload.Part) (size : Z) : Prop :=
  match parts with
  | [] => from = size
  | p :: rest =>
      Upload.start_byte p = from
      /\ (from <= Upload.end_byte p)%Z
      /\ tiles (Upload.end_byte p + 1) rest size
  end.

(* ================================================================= *)
(** ** Further vocabulary: recorder-controller.ts *)

(** What [handleStop] makes of a recorder's chunks at time [now]. *)
Definition recording_of (r : Recorder.AudioRecorder) (now : Q)
  : Recorder.VoicenoteResult :=
  {| Recorder.blob :=
       new_Blob (Recorder.chunks r) (Recorder.supportedMimeType r);
     Recorder.mimeType := Recorder.supportedMimeType r;
     Recorder.duration := (now - Recorder.startTime r) / 1000;
     Recorder.size :=
       blob_size (new_Blob (Recorder.chunks r) (Recorder.supportedMimeType r));
     Recorder.format :=
       Recorder.extractFormatFromMimeType (Recorder.supportedMimeType r) |}.

(** The recorder [r] holding the chunks [cs]. *)
Definition with_chunks (r : Recorder.AudioRecorder) (cs : list Blob)
  : Recorder.AudioRecorder :=
  {| Recorder.maxDuration := Recorder.maxDuration r;
     Recorder.supportedMimeType := Recorder.supportedMimeType r;
     Recorder.mediaRecorder := Recorder.mediaRecorder r;
     Recorder.mediaStream := Recorder.mediaStream r;
     Recorder.chunks := cs;
     Recorder.startTime := Recorder.startTime r;
     Recorder.pausedTime := Recorder.pausedTime r;
     Recorder.progressTimer := Recorder.progressTimer r;
     Recorder.timerSeq := Recorder.timerSeq r |}.

(** A call of one of the controller's methods, with what its environment
    does during the call. *)
Inductive ControllerCall : Type :=
| CStart (access : result unit) (now : Q)
| CStop (now : Q) (final : list Blob)
    (presign : result Upload.PresignedUrlResponse)
    (xhr_single : Upload.XhrOutcome) (xhr_at : nat -> Upload.XhrOutcome)
    (order : list nat)
| CCancel
| CPause (now : Q)
| CResume (now : Q)
| CDestroy.

(** One call, each awaited to its end before the next: the controller
    afterwards, and what the application saw. *)
Definition controller_call (js_String : value -> string)
    (hooks : ControllerStop.UploadHooks) (v : Controller.VoiceRecorder)
    (c : ControllerCall)
  : Controller.VoiceRecorder * list ControllerStop.Effect :=
  match c with
  | CStart access now =>
      match Controller.start access now v with
      | (_, v', t) => (v', map ControllerStop.Ctl t)
      end
  | CStop now final presign xhr_single xhr_at order =>
      match ControllerStop.stop js_String hooks now final presign xhr_single
              xhr_at order v with
      | (_, v', t) => (v', t)
      end
  | CCancel =>
      match Controller.cancel v with
      | (_, v', t) => (v', map ControllerStop.Ctl t)
      end
  | CPause now =>
      match Controller.pause now v with
      | (_, v', t) => (v', map ControllerStop.Ctl t)
      end
  | CResume now =>
      match Controller.resume now v with
      | (_, v', t) => (v', map ControllerStop.Ctl t)
      end
  | CDestroy => ControllerStop.destroy v
  end.

Definition controller_run (js_String : value -> string)
    (hooks : ControllerStop.UploadHooks) (v : Controller.VoiceRecorder)
    (calls : list ControllerCall)
  : Controller.VoiceRecorder * list ControllerStop.Effect :=
  fold_left
    (fun acc c =>
       match controller_call js_String hooks (fst acc) c with
       | (v', t) => (v', (snd acc ++ t)%list)
       end)
    calls (v, []).

(** The upload effects the application saw in a trace. *)
Definition upload_effects (t : list ControllerStop.Effect)
  : list Upload.Effect :=
  flat_map
    (fun e => match e with ControllerStop.Upl u => [u] | _ => [] end) t.

(** A controller in [idle] sits over an inactive recorder. *)
Definition idle_means_inactive (v : Controller.VoiceRecorder) : Prop :=
  Controller._state v = Controller.idle ->
  Recorder.state (Controller.audioRecorder v) = Recorder.INACTIVE.

(** An HTTP client, built by the constructor, that halves its delay from one
    attempt to the next. *)
Definition halving_client : Client.HttpClient :=
  Sdk.new_HttpClient
    {| Sdk.cfg_baseUrl := None; Sdk.cfg_timeout := None;
       Sdk.cfg_retries :=
         Some {| Client.maxRetries := 3; Client.baseDelay := 1000;
                 Client.maxDelay := 10000; Client.backoffFactor := 1 # 2 |} |}.


(** The calls of the callbacks that a successful [upload()] makes return
    normally: the progress callback at 0, 10 and 100, and [onComplete] at the
    result. *)
Definition calls_return (cb : UploadCallbacks.Callbacks)
    (r : Upload.UploadResult) : bool :=
  let returns {A : Type} (x : result A) :=
    match x with Ok _ => true | Throw _ => false end in
  returns (fst (UploadCallbacks.notifyProgress cb 0))
  && returns (fst (UploadCallbacks.notifyProgress cb 10))
  && returns (fst (UploadCallbacks.notifyProgress cb 100))
  && match UploadCallbacks.onComplete cb with
     | Some f => returns (f r)
     | None => true
     end.

(** A configuration whose [onComplete] throws. *)
Definition throwing_onComplete : UploadCallbacks.Callbacks :=
  {| UploadCallbacks.onProgress := None;
     UploadCallbacks.onUploadProgress := None;
     UploadCallbacks.onComplete :=
       Some (fun _ => Throw (ThrowError (PlainError "TypeError" "x is undefined")));
     UploadCallbacks.onError := Some (fun _ => Ok tt) |}.



(* ================================================================= *)
(** * Properties *)

(** ** errors.ts *)

Section WrapUnknownError.

Lemma wrap_sdk_error (v : VocaFuseError) (ctx : option obj) :
  wrapUnknownError (ThrowError (SdkError v)) ctx = v.
Proof. reflexivity. Qed.

Lemma wrap_plain_error (n m : string) (ctx : option obj) :
  code (wrapUnknownError (ThrowError (PlainError n m)) ctx) = UNKNOWN_ERROR
  /\ message (wrapUnknownError (ThrowError (PlainError n m)) ctx) = m
  /\ originalError (wrapUnknownError (ThrowError (PlainError n m)) ctx)
     = Some (PlainError n m).
Proof. repeat split. Qed.

Lemma wrap_other_value (v : value) (ctx : option obj) :
  code (wrapUnknownError (ThrowValue v) ctx) = UNKNOWN_ERROR
  /\ message (wrapUnknownError (ThrowValue v) ctx) = "An unknown error occurred".
Proof. repeat split. Qed.

(** C9.  [wrapUnknownError(e, ctx)] is a [VocaFuseError] for every input [e];
    on an [e] that is a [VocaFuseError] already it is [e] itself, whatever
    the context; hence wrapping a wrapped error again, under any second
    context, changes nothing. *)
Theorem wrapUnknownError_idempotent :
  (forall (e : thrown) (ctx : option obj),
      instanceof_VocaFuseError
        (ThrowError (SdkError (wrapUnknownError e ctx))) = true)
  /\ (forall (e : thrown) (ctx : option obj),
         instanceof_VocaFuseError e = true ->
         ThrowError (SdkError (wrapUnknownError e ctx)) = e)
  /\ (forall (e : thrown) (ctx ctx' : option obj),
         wrapUnknownError (ThrowError (SdkError (wrapUnknownError e ctx))) ctx'
         = wrapUnknownError e ctx).
Proof.
  split; [ | split ].
  - intros e ctx. reflexivity.
  - intros e ctx H.
    destruct e as [[n m | v] | v]; simpl in H; try discriminate.
    now rewrite wrap_sdk_error.
  - intros e ctx ctx'. apply wrap_sdk_error.
Qed.

(** An [AuthenticationError] wrapped under a context comes back as it is. *)
Lemma wrapUnknownError_idempotent_witness :
  let auth := new_AuthenticationError "HTTP 401: Unauthorized" None None in
  ThrowError (SdkError
    (wrapUnknownError (ThrowError (SdkError auth))
       (Some [("operation", VStr "getToken")])))
  = ThrowError (SdkError auth).
Proof.
  intro auth.
  apply (proj1 (proj2 wrapUnknownError_idempotent)).
  reflexivity.
Defined.

End WrapUnknownError.

(** ** client.ts *)

Section ClientProperties.

Import Client.

Lemma normalize_raw (rid : option string) (body : value) :
  lacks_envelope body = true ->
  normalizeEnvelope rid body = envelope_of (str_or rid "unknown") body.
Proof.
  unfold lacks_envelope, normalizeEnvelope. intros H.
  apply negb_true_iff in H. now rewrite H.
Qed.

Lemma normalize_envelope_fixed (rid : option string) (body : value) :
  lacks_envelope body = false -> normalizeEnvelope rid body = body.
Proof.
  unfold lacks_envelope, normalizeEnvelope. intros H.
  apply negb_false_iff in H. now rewrite H.
Qed.

Lemma envelope_has_data (requestId : string) (body : value) :
  lacks_envelope (envelope_of requestId body) = false.
Proof. reflexivity. Qed.

Lemma normalizeEnvelope_idempotent (rid rid' : option string) (body : value) :
  normalizeEnvelope rid' (normalizeEnvelope rid body) = normalizeEnvelope rid body.
Proof.
  destruct (lacks_envelope body) eqn:E.
  - rewrite (normalize_raw rid body E).
    apply normalize_envelope_fixed, envelope_has_data.
  - rewrite (normalize_envelope_fixed rid body E).
    now apply normalize_envelope_fixed.
Qed.

Lemma processResponse_success (r : Response) (body : value) :
  ok r = true -> readBody r = Ok body ->
  processResponse r
  = Ok (normalizeEnvelope (headers_get (headers r) "X-Request-Id") body).
Proof.
  intros Hok Hbody. unfold processResponse. now rewrite Hbody, Hok.
Qed.

(** C8.  A successful response whose body has no [data] field is turned into
    [{object: "response", data: <body>, request_id: <X-Request-Id or
    "unknown">}], so its [data] is the raw body; a successful response whose
    body is that envelope comes back as it is, so normalizing twice is
    normalizing once. *)
Theorem processResponse_envelope_normalization :
  (forall (r : Response) (body : value),
      ok r = true -> readBody r = Ok body -> lacks_envelope body = true ->
      processResponse r
      = Ok (envelope_of
              (str_or (headers_get (headers r) "X-Request-Id") "unknown") body)
      /\ obj_get "data"
           [("object", VStr "response"); ("data", body);
            ("request_id",
             VStr (str_or (headers_get (headers r) "X-Request-Id") "unknown"))]
         = Some body)
  /\ (forall (r r' : Response) (body env : value),
         ok r = true -> readBody r = Ok body -> processResponse r = Ok env ->
         ok r' = true -> readBody r' = Ok env ->
         processResponse r' = Ok env)
  /\ (forall (rid rid' : option string) (body : value),
         normalizeEnvelope rid' (normalizeEnvelope rid body)
         = normalizeEnvelope rid body).
Proof.
  split; [ | split ].
  - intros r body Hok Hbody Hraw. split.
    + rewrite (processResponse_success r body Hok Hbody).
      now rewrite normalize_raw.
    + reflexivity.
  - intros r r' body env Hok Hbody Hres Hok' Hbody'.
    rewrite (processResponse_success r body Hok Hbody) in Hres.
    injection Hres as Hres.
    rewrite (processResponse_success r' env Hok' Hbody').
    rewrite <- Hres. now rewrite normalizeEnvelope_idempotent.
  - apply normalizeEnvelope_idempotent.
Qed.

Lemma processResponse_envelope_normalization_witness :
  processResponse foo_response = Ok (envelope_of "unknown" foo_body)
  /\ obj_get "data"
       [("object", VStr "response"); ("data", foo_body);
        ("request_id", VStr "unknown")] = Some foo_body.
Proof.
  apply (proj1 processResponse_envelope_normalization foo_response foo_body);
    reflexivity.
Defined.

End ClientProperties.

Section Backoff.

Import Client.

Variable c : HttpClient.

Lemma calculateRetryDelay_formula (n : Z) (random : Q) :
  calculateRetryDelay c n random
  == Qmin (maxDelay (retryOptions c))
       (raw_delay c n * (1 + random * (1 # 10))).
Proof.
  unfold calculateRetryDelay, raw_delay.
  rewrite Q.min_comm.
  apply Q.min_compat; [ reflexivity | ring ].
Qed.

Lemma calculateRetryDelay_capped (n : Z) (random : Q) :
  calculateRetryDelay c n random <= maxDelay (retryOptions c).
Proof. unfold calculateRetryDelay. apply Q.le_min_r. Qed.

Lemma jitter_range (random : Q) :
  0 <= random -> random < 1 ->
  0 <= random * (1 # 10) /\ random * (1 # 10) < 1 # 10.
Proof. intros H0 H1. split; lra. Qed.

Lemma raw_delay_monotone (n m : Z) :
  0 <= baseDelay (retryOptions c) -> 1 <= backoffFactor (retryOptions c) ->
  (n <= m)%Z -> raw_delay c n <= raw_delay c m.
Proof.
  intros Hb Hf Hnm. unfold raw_delay.
  rewrite (Qmult_comm (baseDelay _)), (Qmult_comm (baseDelay _)).
  apply Qmult_le_compat_r; [ | exact Hb ].
  apply Qpower_le_compat_l; [ lia | exact Hf ].
Qed.

Lemma calculateRetryDelay_no_jitter (n : Z) :
  calculateRetryDelay c n 0 == Qmin (raw_delay c n) (maxDelay (retryOptions c)).
Proof.
  unfold calculateRetryDelay, raw_delay.
  apply Q.min_compat; [ ring | reflexivity ].
Qed.

End Backoff.

(** C7, as amended.  For attempt [n] (counted from 1) and a draw [random] of
    [Math.random()], the delay is
    [min(maxDelay, baseDelay * backoffFactor^(n-1) * (1 + jitter))] with
    [jitter = random / 10], which lies in [[0, 0.1)] as [random] lies in
    [[0, 1)]; the delay never exceeds [maxDelay]; and without jitter it does
    not decrease from one attempt to a later one, for a non-negative base
    delay and a backoff factor of at least 1 (the defaults are 1000 and 2). *)
Theorem calculateRetryDelay_backoff (c : Client.HttpClient) :
  let o := Client.retryOptions c in
  (forall (n : Z) (random : Q),
      Client.calculateRetryDelay c n random
      == Qmin (Client.maxDelay o)
           (Client.baseDelay o * Client.backoffFactor o ^ (n - 1)
            * (1 + random * (1 # 10))))
  /\ (forall random : Q,
         0 <= random -> random < 1 ->
         0 <= random * (1 # 10) /\ random * (1 # 10) < 1 # 10)
  /\ (forall (n : Z) (random : Q),
         Client.calculateRetryDelay c n random <= Client.maxDelay o)
  /\ (0 <= Client.baseDelay o -> 1 <= Client.backoffFactor o ->
      forall n m : Z,
        (n <= m)%Z ->
        Client.calculateRetryDelay c n 0 <= Client.calculateRetryDelay c m 0).
Proof.
  intro o. repeat split.
  - apply calculateRetryDelay_formula.
  - now apply jitter_range.
  - now apply jitter_range.
  - apply calculateRetryDelay_capped.
  - intros Hb Hf n m Hnm.
    rewrite !calculateRetryDelay_no_jitter.
    apply Q.min_le_compat_r.
    now apply raw_delay_monotone.
Qed.

(** With the defaults, the delays without jitter are 1000, 2000 and 4000 ms
    for the attempts 1, 2 and 3, and 10000 ms from attempt 5 on. *)
Example default_delays :
  map (fun n => Qred (Client.calculateRetryDelay Client.defaultClient n 0))
    [1; 2; 3; 4; 5; 6]%Z
  = [1000; 2000; 4000; 8000; 10000; 10000].
Proof. reflexivity. Qed.

Lemma calculateRetryDelay_backoff_witness :
  Client.calculateRetryDelay Client.defaultClient 2 0
  <= Client.calculateRetryDelay Client.defaultClient 3 0.
Proof.
  apply (proj2 (proj2 (proj2 (calculateRetryDelay_backoff Client.defaultClient))));
    simpl; try lia; discriminate.
Defined.

(** C7 as stated fails for a configuration the constructor accepts: with a
    backoff factor of 1/2 the delays without jitter are 1000, 500 and 250 ms
    for the attempts 1, 2 and 3, all below [maxDelay]; they decrease. *)
Lemma calculateRetryDelay_decreases_below_factor_one :
  map (fun n => Qred (Client.calculateRetryDelay halving_client n 0))
    [1; 2; 3]%Z
  = [1000; 500; 250]
  /\ Client.calculateRetryDelay halving_client 2 0
     < Client.calculateRetryDelay halving_client 1 0
  /\ Client.calculateRetryDelay halving_client 1 0
     < Client.maxDelay (Client.retryOptions halving_client).
Proof. repeat split. Qed.

Section Retry.

Import Client.

Variable js_String : value -> string.
Variable c : HttpClient.
Variable fetch_at : Z -> result Response.
Variable random_at : Z -> Q.

Lemma executeRequest_timeout (url : string) (e : JsError) :
  error_name e = "AbortError" ->
  executeRequest url (Throw (ThrowError e))
  = Throw (ThrowError (SdkError (timeoutError url e))).
Proof.
  intros H. unfold executeRequest. now rewrite H.
Qed.

Lemma timeoutError_not_retryable (url : string) (e : JsError) :
  retryable (timeoutError url e) = false.
Proof. reflexivity. Qed.

Lemma shouldRetry_nonretryable (v : VocaFuseError) (attempt : Z) :
  retryable v = false -> shouldRetry c (SdkError v) attempt = false.
Proof.
  intros H. unfold shouldRetry. rewrite H.
  now destruct (attempt >=? maxRetries (retryOptions c))%Z.
Qed.

(** An aborted attempt is the last one, at whatever attempt number and with
    whatever number of attempts left. *)
Lemma request_loop_timeout (fullUrl : string) (options : RequestOptions)
    (maxAttempts : Z) (fuel : nat) (attempt : Z) (lastError : option JsError)
    (issued : nat) (slept : list Q) (e : JsError) :
  fetch_at attempt = Throw (ThrowError e) ->
  error_name e = "AbortError" ->
  request_loop js_String c fetch_at random_at fullUrl options maxAttempts
    (S fuel) attempt lastError issued slept
  = mkRequestRun
      (exhausted fullUrl options maxAttempts
         (Some (SdkError (timeoutError fullUrl e))))
      (S issued) slept.
Proof.
  intros Hfetch Hname. simpl.
  rewrite Hfetch, (executeRequest_timeout fullUrl e Hname). simpl as_Error.
  rewrite (shouldRetry_nonretryable _ attempt (timeoutError_not_retryable fullUrl e)).
  now rewrite orb_true_r.
Qed.

End Retry.

(** C2, on the code.  With the default policy ([maxRetries = 3]), a request
    whose first attempt times out makes that one [fetch],
    sleeps for no backoff, and raises the timeout's [NetworkError], which
    [executeRequest] has built with [retryable = false] and which
    [shouldRetry] therefore turns down, although the second attempt would
    have succeeded. *)
Theorem request_timeout_is_not_retried (js_String : value -> string)
    (random_at : Z -> Q) :
  let run :=
    Client.request js_String Client.defaultClient first_attempt_times_out
      random_at "/upload"
      {| Client.method := Some "POST"; Client.retries := None |} in
  Client.fetches run = 1%nat
  /\ Client.sleeps run = []
  /\ Client.completion run
     = Throw (ThrowError (SdkError (timeoutError "/upload" abortError)))
  /\ retryable (timeoutError "/upload" abortError) = false
  /\ Client.shouldRetry Client.defaultClient
       (SdkError (timeoutError "/upload" abortError)) 1 = false.
Proof.
  intro run. subst run. unfold Client.request.
  change (Z.to_nat _) with 4%nat.
  rewrite (request_loop_timeout js_String Client.defaultClient
             first_attempt_times_out random_at _ _ _ 3 1 None 0 [] abortError
             eq_refl eq_refl).
  repeat split.
Qed.

Example request_network_failure_is_retried (js_String : value -> string) :
  let run :=
    Client.request js_String Client.defaultClient first_attempt_fails
      (fun _ => 0) "/upload"
      {| Client.method := Some "POST"; Client.retries := None |} in
  Client.fetches run = 2%nat
  /\ map Qred (Client.sleeps run) = [1000]
  /\ Client.completion run = Ok (VObj [("data", VObj [])]).
Proof. repeat split. Qed.

(** ** token.ts *)

Section Coalescing.

Import Token.

(** A [getToken()] call that finds no valid token issues a fetch at once and
    leaves the manager as it was: nothing records the fetch in flight. *)
Lemma getToken_step_fetches (w : World) (caller : nat) (now : Q) :
  hasValidToken (mgr w) now = false ->
  issued (step w (Invoke caller GetToken now)) = S (issued w)
  /\ mgr (step w (Invoke caller GetToken now)) = mgr w
  /\ delivered (step w (Invoke caller GetToken now)) = delivered w.
Proof.
  intros H. simpl. unfold getToken. rewrite H. repeat split.
Qed.

Lemma getToken_calls_fetch_each (calls : list (nat * Q)) :
  forall w : World,
    Forall (fun c => hasValidToken (mgr w) (snd c) = false) calls ->
    issued (run w (map getToken_call calls)) = (issued w + List.length calls)%nat
    /\ mgr (run w (map getToken_call calls)) = mgr w.
Proof.
  induction calls as [ | [caller now] calls IH ]; intros w Hall.
  - simpl. split; [ lia | reflexivity ].
  - inversion Hall as [ | ? ? Hhd Htl ]; subst. simpl in Hhd.
    destruct (getToken_step_fetches w caller now Hhd) as (Hi & Hm & _).
    change (run w (map getToken_call ((caller, now) :: calls)))
      with (run (step w (Invoke caller GetToken now)) (map getToken_call calls)).
    destruct (IH (step w (Invoke caller GetToken now))) as (IHi & IHm).
    + now rewrite Hm.
    + rewrite IHi, IHm, Hi, Hm. simpl. split; [ lia | reflexivity ].
Qed.

Lemma concurrent_calls_getToken (now_at : nat -> Q) (n : nat) :
  concurrent_calls GetToken now_at n
  = map getToken_call (map (fun i => (i, now_at i)) (seq 0 n)).
Proof. unfold concurrent_calls. now rewrite map_map. Qed.

Lemma concurrent_calls_refreshToken (now_at : nat -> Q) (n : nat) :
  concurrent_calls RefreshToken now_at n
  = map refreshToken_call (map (fun i => (i, now_at i)) (seq 0 n)).
Proof. unfold concurrent_calls. now rewrite map_map. Qed.

Lemma fresh_manager_has_no_token (endpoint : string) (now : Q) :
  hasValidToken (mgr (initWorld endpoint)) now = false.
Proof. reflexivity. Qed.

(** A [refreshToken()] call that finds a promise stored issues nothing. *)
Lemma refreshToken_calls_follow (calls : list (nat * Q)) :
  forall (w : World) (p : nat),
    refreshPromise (mgr w) = Some p ->
    issued (run w (map refreshToken_call calls)) = issued w
    /\ refreshPromise (mgr (run w (map refreshToken_call calls))) = Some p.
Proof.
  induction calls as [ | [caller now] calls IH ]; intros w p Hp.
  - simpl. now split.
  - change (run w (map refreshToken_call ((caller, now) :: calls)))
      with (run (step w (Invoke caller RefreshToken now))
              (map refreshToken_call calls)).
    assert (Hs : step w (Invoke caller RefreshToken now)
                 = {| mgr := mgr w; issued := issued w; inflight := inflight w;
                      waiting := (waiting w ++ [RefreshFollower caller p])%list;
                      delivered := delivered w |}).
    { simpl. unfold refreshToken. now rewrite Hp. }
    rewrite Hs.
    exact (IH {| mgr := mgr w; issued := issued w; inflight := inflight w;
                 waiting := (waiting w ++ [RefreshFollower caller p])%list;
                 delivered := delivered w |} p Hp).
Qed.

(** The path that does coalesce: [n + 1] overlapping [refreshToken()] calls
    on a fresh manager share one fetch. *)
Lemma refreshToken_coalesces (endpoint : string) (now_at : nat -> Q) (n : nat) :
  issued (run (initWorld endpoint) (concurrent_calls RefreshToken now_at (S n)))
  = 1%nat.
Proof.
  rewrite concurrent_calls_refreshToken.
  change (seq 0 (S n)) with (0%nat :: seq 1 n).
  change (run (initWorld endpoint)
            (map refreshToken_call
               (map (fun i => (i, now_at i)) (0%nat :: seq 1 n))))
    with (run (step (initWorld endpoint) (Invoke 0 RefreshToken (now_at 0%nat)))
            (map refreshToken_call (map (fun i => (i, now_at i)) (seq 1 n)))).
  now destruct (refreshToken_calls_follow
                  (map (fun i => (i, now_at i)) (seq 1 n))
                  (step (initWorld endpoint) (Invoke 0 RefreshToken (now_at 0%nat)))
                  0%nat eq_refl) as (-> & _).
Qed.

End Coalescing.

(** C1, on the code.  [n] overlapping [getToken()] calls on a manager without
    a cached token issue [n] fetches of the token endpoint, one per caller:
    [getToken] goes to [fetchNewToken] and never looks at [refreshPromise]. *)
Theorem getToken_concurrent_calls_fetch_per_caller (endpoint : string)
    (now_at : nat -> Q) (n : nat) :
  Token.issued
    (Token.run (Token.initWorld endpoint)
       (Token.concurrent_calls Token.GetToken now_at n)) = n
  /\ List.length
       (Token.inflight
          (Token.run (Token.initWorld endpoint)
             (Token.concurrent_calls Token.GetToken now_at 2))) = 2%nat.
Proof.
  split.
  - rewrite concurrent_calls_getToken.
    destruct (getToken_calls_fetch_each
                (map (fun i => (i, now_at i)) (seq 0 n))
                (Token.initWorld endpoint)) as (H & _).
    + apply Forall_forall. intros x _. apply fresh_manager_has_no_token.
    + rewrite H. simpl. now rewrite !length_map, length_seq.
  - reflexivity.
Qed.

Example getToken_three_callers :
  let w :=
    Token.run (Token.initWorld "/token")
      (Token.concurrent_calls Token.GetToken (fun _ => 0) 3
       ++ [Token.FetchSettled 0 (tokenAnswer "t0") 50;
           Token.FetchSettled 1 (tokenAnswer "t1") 60;
           Token.FetchSettled 2 (tokenAnswer "t2") 70])%list in
  Token.issued w = 3%nat
  /\ Token.delivered w = [(0%nat, Ok "t0"); (1%nat, Ok "t1"); (2%nat, Ok "t2")].
Proof. split; reflexivity. Qed.

Example refreshToken_three_callers :
  let w :=
    Token.run (Token.initWorld "/token")
      (Token.concurrent_calls Token.RefreshToken (fun _ => 0) 3
       ++ [Token.FetchSettled 0 (tokenAnswer "t0") 50])%list in
  Token.issued w = 1%nat
  /\ Token.delivered w = [(0%nat, Ok "t0"); (1%nat, Ok "t0"); (2%nat, Ok "t0")]
  /\ Token.refreshPromise (Token.mgr w) = None.
Proof. repeat split; reflexivity. Qed.

Section JwtTotality.

Import Token.

Variable atob : string -> result string.
Variable JSON_parse : string -> result value.

Lemma padding_range (payload : string) : (0 <= padding payload < 4)%Z.
Proof.
  unfold padding.
  assert (H : (0 <= Z.rem (Z.of_nat (String.length payload)) 4 < 4)%Z).
  { apply Z.rem_bound_pos; lia. }
  apply Z.rem_bound_pos; lia.
Qed.

(** The call [repeat] of the padding never raises its [RangeError]. *)
Lemma js_repeat_padding (payload : string) :
  js_repeat "=" (padding payload)
  = Ok (repeat_string "=" (Z.to_nat (padding payload))).
Proof.
  unfold js_repeat.
  destruct (padding_range payload) as [H _].
  apply Z.ltb_ge in H. now rewrite H.
Qed.

(** [decodeJwtPayload] by cases, with the [try] and [catch] resolved. *)
Lemma decodeJwtPayload_cases (token : string) :
  decodeJwtPayload atob JSON_parse token
  = if negb (Nat.eqb (List.length (split "." token)) 3) then Ok VNull
    else match atob (paddedPayload token) with
         | Throw _ => Ok VNull
         | Ok decoded =>
             match JSON_parse decoded with
             | Throw _ => Ok VNull
             | Ok v => Ok v
             end
         end.
Proof.
  unfold decodeJwtPayload, paddedPayload.
  destruct (negb (Nat.eqb (List.length (split "." token)) 3)); [ reflexivity | ].
  rewrite js_repeat_padding. simpl.
  destruct (atob _) as [decoded | t]; [ | reflexivity ].
  simpl. now destruct (JSON_parse decoded).
Qed.

Lemma decodeJwtPayload_returns (token : string) :
  exists v : value, decodeJwtPayload atob JSON_parse token = Ok v.
Proof.
  rewrite decodeJwtPayload_cases.
  destruct (negb _); [ now exists VNull | ].
  destruct (atob _) as [decoded | t]; [ | now exists VNull ].
  destruct (JSON_parse decoded) as [v | t]; [ now exists v | now exists VNull ].
Qed.

Lemma isJwtExpired_returns (token : string) (now : Q) :
  exists b : bool, isJwtExpired atob JSON_parse token now = Ok b.
Proof.
  unfold isJwtExpired.
  destruct (decodeJwtPayload_returns token) as [v ->]. simpl.
  destruct (negb (truthy v)); [ now exists true | ].
  destruct (number_property "exp" v) as [exp | ]; eauto.
Qed.

Lemma isJwtExpired_without_exp (token : string) (now : Q) (payload : value) :
  decodeJwtPayload atob JSON_parse token = Ok payload ->
  payload = VNull \/ number_property "exp" payload = None ->
  isJwtExpired atob JSON_parse token now = Ok true.
Proof.
  intros Hdec Hcase. unfold isJwtExpired. rewrite Hdec. simpl.
  destruct Hcase as [-> | Hexp]; [ reflexivity | ].
  rewrite Hexp. now destruct (negb (truthy payload)).
Qed.

End JwtTotality.

(** C10.  Whatever [atob] and [JSON.parse] do, [decodeJwtPayload] returns on
    every string: [null] when the token has not exactly three segments
    between dots, when [atob] rejects the padded middle segment, and when
    [JSON.parse] rejects the decoded text.  [isJwtExpired] returns on every
    string as well, and returns [true] when the decoded payload is [null] or
    has no numeric [exp]. *)
Theorem decodeJwtPayload_total (atob : string -> result string)
    (JSON_parse : string -> result value) :
  (forall token : string,
      exists v : value, Token.decodeJwtPayload atob JSON_parse token = Ok v)
  /\ (forall token : string,
         List.length (Token.split "." token) <> 3%nat ->
         Token.decodeJwtPayload atob JSON_parse token = Ok VNull)
  /\ (forall (token : string) (t : thrown),
         atob (paddedPayload token) = Throw t ->
         Token.decodeJwtPayload atob JSON_parse token = Ok VNull)
  /\ (forall (token decoded : string) (t : thrown),
         atob (paddedPayload token) = Ok decoded ->
         JSON_parse decoded = Throw t ->
         Token.decodeJwtPayload atob JSON_parse token = Ok VNull)
  /\ (forall (token : string) (now : Q),
         exists b : bool, Token.isJwtExpired atob JSON_parse token now = Ok b)
  /\ (forall (token : string) (now : Q) (payload : value),
         Token.decodeJwtPayload atob JSON_parse token = Ok payload ->
         payload = VNull \/ number_property "exp" payload = None ->
         Token.isJwtExpired atob JSON_parse token now = Ok true).
Proof.
  repeat split.
  - apply decodeJwtPayload_returns.
  - intros token H. rewrite decodeJwtPayload_cases.
    apply Nat.eqb_neq in H. now rewrite H.
  - intros token t H. rewrite decodeJwtPayload_cases, H.
    now destruct (negb _).
  - intros token decoded t Ha Hj. rewrite decodeJwtPayload_cases, Ha, Hj.
    now destruct (negb _).
  - apply isJwtExpired_returns.
  - apply isJwtExpired_without_exp.
Qed.

Example atob_examples :
  Platform.atob "bnVsbA==" = Ok "null"
  /\ Platform.atob "aGVsbG8gd29ybGQ=" = Ok "hello world"
  /\ Platform.atob "!!==" = Throw Platform.invalidCharacter
  /\ Platform.atob "abcde" = Throw Platform.invalidCharacter.
Proof. repeat split. Qed.

(** A token of two segments; a middle segment that is no base64; a middle
    segment that decodes to [x], which is no JSON; a payload [null]. *)
Lemma decodeJwtPayload_total_witness :
  Token.decodeJwtPayload Platform.atob Platform.JSON_parse_literals "abc.def"
  = Ok VNull
  /\ Token.decodeJwtPayload Platform.atob Platform.JSON_parse_literals "a.!!.c"
     = Ok VNull
  /\ Token.decodeJwtPayload Platform.atob Platform.JSON_parse_literals "a.eA.c"
     = Ok VNull
  /\ Token.isJwtExpired Platform.atob Platform.JSON_parse_literals
       "a.bnVsbA.c" 1700000000000 = Ok true.
Proof.
  pose proof (decodeJwtPayload_total Platform.atob Platform.JSON_parse_literals)
    as (_ & Hseg & Hatob & Hjson & _ & Hexp).
  split; [ | split; [ | split ] ].
  - apply Hseg. simpl. discriminate.
  - apply (Hatob "a.!!.c" Platform.invalidCharacter). reflexivity.
  - apply (Hjson "a.eA.c" "x"
             (ThrowError (PlainError "SyntaxError" "Unexpected token")));
      reflexivity.
  - apply (Hexp "a.bnVsbA.c" 1700000000000 VNull); [ reflexivity | now left ].
Defined.

(** ** recorder.ts *)

Section RecorderProperties.

Import Recorder.

Variable js_number : Q -> string.

(** The platform recorder is never in a state called ["voicenote"]. *)
Lemma state_never_RECORDING (r : AudioRecorder) :
  String.eqb (state r) RECORDING = false.
Proof.
  unfold state. destruct (mediaRecorder r) as [ [ | | ] | ]; reflexivity.
Qed.

(** So the guard of [pause()] rejects every call, in every state, and
    nothing is paused, frozen or recorded. *)
Lemma pause_always_throws (now : Q) (r : AudioRecorder) :
  pause now r
  = (Throw (ThrowError (SdkError
       (new_VoicenoteError RECORDING_FAILED
          ("Cannot pause voicenote: current state is " ++ state r) None None))),
     r, []).
Proof.
  unfold pause, mbind, get, throw.
  now rewrite state_never_RECORDING.
Qed.

(** [resume()] on a recorder the platform reports as paused moves the start
    reference back by the frozen elapsed time. *)
Lemma resume_shifts_start_reference (now : Q) (r : AudioRecorder) :
  mediaRecorder r = Some MRPaused ->
  exists (r' : AudioRecorder) (t : list Effect),
    resume now r = (Ok tt, r', t)
    /\ startTime r' = now - pausedTime r * 1000
    /\ mediaRecorder r' = Some MRRecording
    /\ forall later : Q,
         currentDuration r' later == pausedTime r + (later - now) / 1000.
Proof.
  intros H. destruct r as [md mime mr ms ch st pt timer sq].
  simpl in H. subst mr.
  destruct timer as [id | ]; do 2 eexists;
    (split; [ reflexivity | ]); simpl; repeat split;
    intros later; unfold currentDuration; simpl; field.
Qed.

(** While the platform reports the recorder as paused, the elapsed time
    read is the frozen [pausedTime], whatever the clock says. *)
Lemma currentDuration_frozen (r : AudioRecorder) (now : Q) :
  mediaRecorder r = Some MRPaused -> currentDuration r now = pausedTime r.
Proof.
  intros H. unfold currentDuration, state. now rewrite H.
Qed.

End RecorderProperties.

(** C6, on the code.  [pause()] throws [RECORDING_FAILED] in every state and
    changes nothing: [RecorderState.RECORDING] is the string ["voicenote"],
    which the platform's state ["recording"] never equals.  So in the run
    [pause_resume_session] both [pause()] and [resume()] throw, the platform
    recorder is never paused, and the duration reported is 7.1 s. *)
Theorem pause_resume_run_reports_wall_clock (js_number : Q -> string) :
  (forall (now : Q) (r : Recorder.AudioRecorder),
      Recorder.pause now r
      = (Throw (ThrowError (SdkError
           (new_VoicenoteError RECORDING_FAILED
              ("Cannot pause voicenote: current state is " ++ Recorder.state r)
              None None))),
         r, []))
  /\ returned "pause" (pause_resume_session js_number)
     = [Throw (ThrowError (SdkError
          (new_VoicenoteError RECORDING_FAILED
             "Cannot pause voicenote: current state is recording" None None)))]
  /\ returned "resume" (pause_resume_session js_number)
     = [Throw (ThrowError (SdkError
          (new_VoicenoteError RECORDING_FAILED
             "Cannot resume voicenote: current state is recording" None None)))]
  /\ device_calls (pause_resume_session js_number)
     = [Recorder.MediaRecorderStart; Recorder.MediaRecorderStop;
        Recorder.TrackStop]
  /\ settled_durations (pause_resume_session js_number) = [71 # 10].
Proof.
  split; [ exact pause_always_throws | ].
  vm_compute. repeat split.
Qed.

(** Beyond the one run: no session with a positive limit ever carries the
    "too long" condition, whatever the application calls and whenever the
    timer ticks (the permission request failing with platform errors only). *)
Section TooLongNeverReported.

Import Recorder.
Local Open Scope rec_scope.

Variable js_number : Q -> string.

Lemma quiet_ret {A : Type} (a : A) : quiet (ret a).
Proof. intros r. now repeat split. Qed.

Lemma quiet_get : quiet get.
Proof. intros r. now repeat split. Qed.

Lemma quiet_throw {A : Type} (e : VocaFuseError) :
  too_long_code (code e) = false -> quiet (@throw A e).
Proof. intros H r. repeat split. simpl. now rewrite H. Qed.

Lemma quiet_rethrow {A : Type} (t : thrown) :
  benign_thrown t = true -> quiet (@rethrow A t).
Proof. intros H r. now repeat split. Qed.

Lemma quiet_emit (e : Effect) : benign_effect e = true -> quiet (emit e).
Proof. intros H r. repeat split. simpl. now rewrite H. Qed.

Lemma quiet_bind {A B : Type} (m : M A) (k : A -> M B) :
  quiet m -> (forall a, quiet (k a)) -> quiet (mbind m k).
Proof.
  intros Hm Hk r. destruct (Hm r) as (H1 & H2 & H3).
  unfold quiet_at, mbind in *.
  destruct (m r) as [[[a | t] r1] t1]; simpl in *.
  - destruct (Hk a r1) as (K1 & K2 & K3).
    destruct (k a r1) as [[x r2] t2]; simpl in *.
    repeat split; [ congruence | | assumption ].
    now rewrite forallb_app, H2, K2.
  - now repeat split.
Qed.

Lemma quiet_catch {A : Type} (m : M A) (h : thrown -> M A) :
  quiet m -> (forall t, benign_thrown t = true -> quiet (h t)) ->
  quiet (mcatch m h).
Proof.
  intros Hm Hh r. destruct (Hm r) as (H1 & H2 & H3).
  unfold quiet_at, mcatch in *.
  destruct (m r) as [[[a | t] r1] t1]; simpl in *.
  - now repeat split.
  - destruct (Hh t H3 r1) as (K1 & K2 & K3).
    destruct (h t r1) as [[x r2] t2]; simpl in *.
    repeat split; [ congruence | | assumption ].
    now rewrite forallb_app, H2, K2.
Qed.

Lemma quiet_if {A : Type} (b : bool) (m1 m2 : M A) :
  quiet m1 -> quiet m2 -> quiet (if b then m1 else m2).
Proof. now destruct b. Qed.

Ltac quiet_setter := intros x r; destruct r; now repeat split.

Lemma quiet_set_mediaRecorder x : quiet (set_mediaRecorder x).
Proof. revert x. quiet_setter. Qed.
Lemma quiet_set_mediaStream x : quiet (set_mediaStream x).
Proof. revert x. quiet_setter. Qed.
Lemma quiet_set_chunks x : quiet (set_chunks x).
Proof. revert x. quiet_setter. Qed.
Lemma quiet_set_startTime x : quiet (set_startTime x).
Proof. revert x. quiet_setter. Qed.
Lemma quiet_set_pausedTime x : quiet (set_pausedTime x).
Proof. revert x. quiet_setter. Qed.
Lemma quiet_set_progressTimer x sq : quiet (set_progressTimer x sq).
Proof. intros r; destruct r; now repeat split. Qed.

Create HintDb quiet.
#[local] Hint Resolve quiet_ret quiet_get quiet_set_mediaRecorder
  quiet_set_mediaStream quiet_set_chunks quiet_set_startTime
  quiet_set_pausedTime quiet_set_progressTimer : quiet.

Ltac quiet_step :=
  match goal with
  | |- quiet (mbind _ _) => apply quiet_bind; [ | intros ? ]
  | |- quiet (mcatch _ _) => apply quiet_catch; [ | intros ? ? ]
  | |- quiet (if _ then _ else _) => apply quiet_if
  | |- quiet (match ?x with Some _ => _ | None => _ end) => destruct x
  | |- quiet (emit _) => apply quiet_emit; reflexivity
  | |- quiet (throw _) => apply quiet_throw; reflexivity
  | |- quiet _ => solve [ auto with quiet ]
  end.

Lemma quiet_stopProgressTimer : quiet stopProgressTimer.
Proof. unfold stopProgressTimer. repeat quiet_step. Qed.
#[local] Hint Resolve quiet_stopProgressTimer : quiet.

Lemma quiet_startProgressTimer : quiet startProgressTimer.
Proof. unfold startProgressTimer. repeat quiet_step. Qed.
#[local] Hint Resolve quiet_startProgressTimer : quiet.

Lemma quiet_cleanup : quiet cleanup.
Proof. unfold cleanup. repeat quiet_step. Qed.
#[local] Hint Resolve quiet_cleanup : quiet.

Lemma quiet_stop_executor : quiet stop_executor.
Proof. unfold stop_executor. repeat quiet_step. Qed.

Lemma quiet_handleStop now : quiet (handleStop now).
Proof. unfold handleStop. repeat quiet_step. Qed.

Lemma quiet_cancel : quiet cancel.
Proof. unfold cancel. repeat quiet_step. Qed.

Lemma quiet_pause now : quiet (pause now).
Proof. unfold pause. repeat quiet_step. Qed.

Lemma quiet_resume now : quiet (resume now).
Proof. unfold resume. repeat quiet_step. Qed.

Lemma quiet_onDataAvailable chunk : quiet (onDataAvailable chunk).
Proof. unfold onDataAvailable. repeat quiet_step. Qed.

Lemma quiet_requestMicrophoneAccess access :
  platform_access access -> quiet (requestMicrophoneAccess access).
Proof.
  intros H. unfold requestMicrophoneAccess.
  destruct access as [ [] | [ [n m | v] | v ] ]; try contradiction.
  - apply quiet_ret.
  - repeat quiet_step; now apply quiet_rethrow.
  - now apply quiet_rethrow.
Qed.

Lemma wrapped_is_benign (t : thrown) (ctx : option obj) :
  benign_thrown t = true ->
  too_long_code (code (wrapUnknownError t ctx)) = false.
Proof.
  destruct t as [ [n m | v] | v ]; simpl; try reflexivity.
  now intros H%negb_true_iff.
Qed.

Lemma quiet_start access now :
  platform_access access -> quiet (start access now).
Proof.
  intros H. unfold start.
  apply quiet_catch.
  - pose proof (quiet_requestMicrophoneAccess access H).
    repeat quiet_step.
  - intros t Ht.
    apply quiet_bind; [ auto with quiet | intros _ ].
    apply quiet_if; [ now apply quiet_rethrow | ].
    destruct t as [ e | v ].
    + repeat quiet_step.
      apply quiet_throw. now apply wrapped_is_benign.
    + apply quiet_throw. now apply wrapped_is_benign.
Qed.

(** [stop_executor] goes through whenever something is active. *)
Lemma stop_executor_active (r : AudioRecorder) :
  String.eqb (state r) INACTIVE = false ->
  exists r' t, stop_executor r = (Ok tt, r', t).
Proof.
  intros H. destruct r as [md mime mr ms ch st pt timer sq].
  unfold stop_executor, mbind, get. cbn [fst snd]. 
  unfold state in H |- *. cbn [mediaRecorder] in H |- *. rewrite H.
  destruct timer; do 2 eexists; reflexivity.
Qed.

Lemma tick_unfold now (r : AudioRecorder) :
  tick js_number now r
  = if Qle_bool (maxDuration r) (currentDuration r now)
    then mcatch (stop_executor ;;; ret true)
           (fun error =>
              emit (UnhandledRejection (tooLongError js_number r error)) ;;;
              ret false) r
    else (Ok false, r, [OnProgress (currentDuration r now)]).
Proof.
  unfold tick, mbind at 1, get. cbv beta iota.
  destruct (Qle_bool (maxDuration r) (currentDuration r now));
    [ | reflexivity ].
  now destruct (mcatch _ _ r) as [[x r2] t2].
Qed.

Lemma quiet_tick now (r : AudioRecorder) :
  0 < maxDuration r -> quiet_at (tick js_number now) r.
Proof.
  intros Hmax. unfold quiet_at. rewrite tick_unfold.
  destruct (Qle_bool (maxDuration r) (currentDuration r now)) eqn:E.
  - destruct (String.eqb (state r) INACTIVE) eqn:Hs.
    + exfalso. unfold currentDuration in E. rewrite Hs in E.
      apply Qle_bool_iff in E. lra.
    + destruct (quiet_stop_executor r) as (H1 & H2 & H3).
      destruct (stop_executor_active r Hs) as (r' & t & Hstop).
      unfold mcatch, mbind. rewrite Hstop in *. simpl in *.
      rewrite app_nil_r. now repeat split.
  - now repeat split.
Qed.

Lemma handleStop_resolves now (r : AudioRecorder) :
  exists res r' t, handleStop now r = (Ok res, r', t).
Proof.
  destruct r as [md mime mr ms ch st pt timer sq].
  destruct timer; destruct ms; vm_compute; do 3 eexists; reflexivity.
Qed.

Lemma quiet_log (effects : list Effect) :
  forallb benign_effect effects = true ->
  existsb is_too_long (map Eff effects) = false.
Proof.
  induction effects as [ | e effects IH ]; [ reflexivity | ].
  simpl. intros [He H]%andb_true_iff. rewrite (IH H), orb_false_r.
  destruct e; try reflexivity. simpl in He |- *.
  apply negb_true_iff in He. unfold too_long_code in He.
  now destruct (code e).
Qed.

Lemma benign_returned (method : string) (x : result unit) :
  benign_result x = true -> is_too_long (Returned method x) = false.
Proof.
  destruct x as [ [] | [ [n m | e] | v ] ]; try reflexivity.
  simpl. intros H%negb_true_iff. unfold too_long_code in H.
  now destruct (code e).
Qed.

Lemma observe_quiet (s : Session) (r : AudioRecorder) (p : option StopOrigin)
    (effects : list Effect) (more : list Obs) :
  reports_too_long s = false ->
  forallb benign_effect effects = true ->
  existsb is_too_long more = false ->
  reports_too_long (observe s r p effects more) = false.
Proof.
  intros Hs He Hm. unfold reports_too_long, observe in *. simpl.
  now rewrite !existsb_app, Hs, (quiet_log effects He), Hm.
Qed.

Lemma call_quiet (s : Session) (method : string) (body : M unit) :
  quiet_at body (rec s) -> reports_too_long s = false ->
  maxDuration (rec (call s method body)) = maxDuration (rec s)
  /\ reports_too_long (call s method body) = false.
Proof.
  intros (H1 & H2 & H3) Hs. unfold call.
  destruct (body (rec s)) as [[x r] effects]. simpl in *.
  split; [ exact H1 | ].
  apply observe_quiet; try assumption.
  cbn [existsb]. now rewrite (benign_returned method x H3).
Qed.

Lemma sstep_keeps_quiet (s : Session) (i : Input) :
  0 < maxDuration (rec s) -> platform_input i ->
  reports_too_long s = false ->
  maxDuration (rec (sstep js_number s i)) = maxDuration (rec s)
  /\ reports_too_long (sstep js_number s i) = false.
Proof.
  intros Hmax Hin Hlog.
  destruct i as [access now | now | now | | | now | chunk | now]; simpl.
  - apply call_quiet; [ now apply quiet_start | assumption ].
  - apply call_quiet; [ apply quiet_pause | assumption ].
  - apply call_quiet; [ apply quiet_resume | assumption ].
  - destruct (quiet_stop_executor (rec s)) as (H1 & H2 & H3).
    destruct (stop_executor (rec s)) as [[[ [] | t ] r] effects]; simpl in *.
    + split; [ exact H1 | now apply observe_quiet ].
    + split; [ exact H1 | ]. apply observe_quiet; try assumption.
      simpl. rewrite orb_false_r.
      destruct t as [ [n m | e] | v ]; try reflexivity.
      simpl in H3 |- *. apply negb_true_iff in H3.
      unfold too_long_code in H3. now destruct (code e).
  - apply call_quiet; [ apply quiet_cancel | assumption ].
  - destruct (progressTimer (rec s)) as [ id | ]; [ | now split ].
    destruct (quiet_tick now (rec s) Hmax) as (H1 & H2 & H3).
    destruct (tick js_number now (rec s)) as [[[ [ | ] | t ] r] effects];
      simpl in *; (split; [ exact H1 | now apply observe_quiet ]).
  - destruct (quiet_onDataAvailable chunk (rec s)) as (H1 & H2 & H3).
    destruct (onDataAvailable chunk (rec s)) as [[x r] effects]; simpl in *.
    split; [ exact H1 | now apply observe_quiet ].
  - destruct (pendingStop s) as [ who | ]; [ | now split ].
    destruct (quiet_handleStop now (rec s)) as (H1 & H2 & H3).
    destruct (handleStop_resolves now (rec s)) as (res & r' & effects & Hh).
    rewrite Hh in *. simpl in *.
    split; [ exact H1 | now apply observe_quiet ].
Qed.

Lemma too_long_never_reported (inputs : list Input) :
  forall s : Session,
    0 < maxDuration (rec s) -> Forall platform_input inputs ->
    reports_too_long s = false ->
    reports_too_long (srun js_number s inputs) = false.
Proof.
  induction inputs as [ | i inputs IH ]; intros s Hmax Hall Hlog.
  - exact Hlog.
  - inversion Hall as [ | ? ? Hi Hrest ]; subst.
    destruct (sstep_keeps_quiet s i Hmax Hi Hlog) as (Hmd & Hq).
    change (srun js_number s (i :: inputs))
      with (srun js_number (sstep js_number s i) inputs).
    apply IH; [ now rewrite Hmd | exact Hrest | exact Hq ].
Qed.

End TooLongNeverReported.

(** What the interval callback does do at the limit: it asks the platform
    recorder to stop and clears its own interval; below the limit it reports
    the elapsed seconds to [onProgress]. *)
Section AutoStop.

Import Recorder.

Variable js_number : Q -> string.

Lemma tick_below_limit (now : Q) (r : AudioRecorder) :
  mediaRecorder r = Some MRRecording ->
  (now - startTime r) / 1000 < maxDuration r ->
  tick js_number now r
  = (Ok false, r, [OnProgress ((now - startTime r) / 1000)]).
Proof.
  intros Hrec Hlt. rewrite tick_unfold.
  assert (Hd : currentDuration r now = (now - startTime r) / 1000).
  { unfold currentDuration, state. now rewrite Hrec. }
  rewrite Hd.
  destruct (Qle_bool (maxDuration r) ((now - startTime r) / 1000)) eqn:E;
    [ | reflexivity ].
  apply Qle_bool_iff in E. exfalso. lra.
Qed.

Lemma tick_at_limit (now : Q) (r : AudioRecorder) :
  mediaRecorder r = Some MRRecording ->
  maxDuration r <= (now - startTime r) / 1000 ->
  exists (r' : AudioRecorder) (t : list Effect),
    tick js_number now r = (Ok true, r', t)
    /\ In MediaRecorderStop t
    /\ mediaRecorder r' = Some MRInactive
    /\ progressTimer r' = None
    /\ startTime r' = startTime r
    /\ forallb benign_effect t = true.
Proof.
  intros Hrec Hle. rewrite tick_unfold.
  assert (Hd : currentDuration r now = (now - startTime r) / 1000).
  { unfold currentDuration, state. now rewrite Hrec. }
  rewrite Hd. apply Qle_bool_iff in Hle. rewrite Hle.
  destruct r as [md mime mr ms ch st pt timer sq].
  simpl in Hrec. subst mr.
  destruct timer as [ id | ]; do 2 eexists;
    (split; [ reflexivity | ]); simpl; intuition.
Qed.

End AutoStop.

(** C3, on the code.  The session [unattended_session] (limit 2 s, no manual
    stop) stops itself at the tick of 2.0 s, and the promise of that [stop()]
    resolves with a duration of 2.1 s.  Nothing reports
    [RECORDING_TOO_LONG], there or in any other session with a positive
    limit: the interval callback builds that error in the [catch] handler of
    [this.stop()] only, which a [stop()] that succeeds never runs. *)
Theorem auto_stop_reports_no_too_long (js_number : Q -> string) :
  (forall (inputs : list Recorder.Input) (s : Recorder.Session),
      0 < Recorder.maxDuration (Recorder.rec s) ->
      Forall platform_input inputs ->
      Recorder.reports_too_long s = false ->
      Recorder.reports_too_long (Recorder.srun js_number s inputs) = false)
  /\ device_calls (unattended_session js_number)
     = [Recorder.MediaRecorderStart; Recorder.MediaRecorderStop;
        Recorder.TrackStop]
  /\ settled_durations (unattended_session js_number) = [21 # 10]
  /\ Recorder.state (Recorder.rec (unattended_session js_number))
     = Recorder.INACTIVE
  /\ Recorder.reports_too_long (unattended_session js_number) = false
  /\ returned "start" (unattended_session js_number) = [Ok tt].
Proof.
  split; [ exact (too_long_never_reported js_number) | ].
  vm_compute. repeat split.
Qed.

Lemma auto_stop_reports_no_too_long_witness :
  Recorder.reports_too_long
    (Recorder.srun Platform.js_number (Recorder.newSession 2 webm)
       [Recorder.CallStart (Ok tt) 0; Recorder.TimerTick 1900;
        Recorder.TimerTick 2000; Recorder.StopEvent 2100]) = false.
Proof.
  apply (proj1 (auto_stop_reports_no_too_long Platform.js_number)).
  - reflexivity.
  - repeat constructor.
  - reflexivity.
Defined.

(** ** upload.ts *)

Section MultipartProperties.

Import Upload.

Variable js_String : value -> string.
Variable cfg : UploadConfig.

Lemma uploadPart_rejects_iff (i : nat) (o : XhrOutcome) :
  is_rejected (uploadPart_settled i o) = negb (transfer_ok o).
Proof.
  destruct o as [status statusText | | ]; simpl; try reflexivity.
  now destruct (status_ok status).
Qed.




Lemma settle_sequence_in (n : nat) (order : list nat) (j : nat) :
  In j (settle_sequence n order) <-> (j < n)%nat.
Proof.
  unfold settle_sequence. rewrite in_app_iff, filter_In, in_seq, Nat.ltb_lt.
  split; [ intros [[_ H] | [_ H]]; lia | intros H; right; lia ].
Qed.






End MultipartProperties.


Example upload_part2_status_500 (js_String : value -> string) :
  Upload.upload js_String all_callbacks six_byte_voicenote (Ok three_part_plan)
    Upload.XhrError part2_status_500 [0; 2; 1]%nat
  = (Throw (ThrowError (SdkError
       (new_UploadError
          "Part 2 upload failed with status 500: Internal Server Error"
          None None None))),
     [Upload.OnProgress 0; Upload.OnProgress 10;
      Upload.XhrPut "https://s3/p1"
        {| blob_bytes := [Byte.x2a; Byte.x2a]; blob_type := "" |};
      Upload.XhrPut "https://s3/p2"
        {| blob_bytes := [Byte.x2a; Byte.x2a]; blob_type := "" |};
      Upload.XhrPut "https://s3/p3"
        {| blob_bytes := [Byte.x2a; Byte.x2a]; blob_type := "" |};
      Upload.OnError
        (new_UploadError
           "Part 2 upload failed with status 500: Internal Server Error"
           None None None)]).
Proof. vm_compute. reflexivity. Qed.



(** ** recorder-controller.ts *)

Section ControllerProperties.

Import Controller.

(** [AudioRecorder.cancel()] on an inactive recorder returns at once. *)
Lemma recorder_cancel_inactive (r : Recorder.AudioRecorder) :
  Recorder.state r = Recorder.INACTIVE ->
  Recorder.cancel r = (Ok tt, r, []).
Proof.
  intros H. unfold Recorder.cancel, Recorder.mbind, Recorder.get.
  now rewrite H.
Qed.

(** [AudioRecorder.cancel()] leaves the recorder inactive, and never throws. *)
Lemma recorder_cancel_result (r : Recorder.AudioRecorder) :
  exists (r' : Recorder.AudioRecorder) (t : list Recorder.Effect),
    Recorder.cancel r = (Ok tt, r', t)
    /\ Recorder.state r' = Recorder.INACTIVE.
Proof.
  destruct r as [md mime mr ms ch st pt timer sq].
  destruct mr as [ [ | | ] | ]; destruct timer; destruct ms;
    vm_compute; do 2 eexists; split; reflexivity.
Qed.

(** Wherever [cancel()] is called, it ends in [idle] with the capture device
    released: the states in which the amended C5 applies. *)
Lemma cancel_establishes_idle (v : VoiceRecorder) :
  exists (v' : VoiceRecorder) (t : list Effect),
    cancel v = (Ok tt, v', t)
    /\ _state v' = idle
    /\ Recorder.state (audioRecorder v') = Recorder.INACTIVE.
Proof.
  destruct (recorder_cancel_result (audioRecorder v)) as (r' & t & Hc & Hs).
  unfold cancel. rewrite Hc. unfold setState. simpl.
  do 2 eexists. split; [ reflexivity | ]. now split.
Qed.

Variable js_String : value -> string.
Variable hooks : ControllerStop.UploadHooks.

(** [AudioRecorder.cancel()] calls the device exactly when the recorder is
    not inactive. *)
Lemma recorder_cancel_silent_iff (r : Recorder.AudioRecorder) :
  snd (Recorder.cancel r) = [] <-> Recorder.state r = Recorder.INACTIVE.
Proof.
  destruct r as [md mime mr ms ch st pt timer sq].
  destruct mr as [ [ | | ] | ]; destruct timer; destruct ms;
    vm_compute; split; intros H; try reflexivity; discriminate.
Qed.

(** [cancel()] of the controller, in every state. *)
Lemma cancel_unfold (v : VoiceRecorder) :
  exists (r' : Recorder.AudioRecorder) (devs : list Recorder.Effect),
    Recorder.cancel (audioRecorder v) = (Ok tt, r', devs)
    /\ Recorder.state r' = Recorder.INACTIVE
    /\ cancel v
       = (Ok tt,
          {| audioRecorder := r'; options := options v; _state := idle;
             _duration := 0; recordingResult := None |},
          (map Device devs ++ idle_cancel_trace (options v))%list).
Proof.
  destruct (recorder_cancel_result (audioRecorder v)) as (r' & t & Hc & Hs).
  exists r', t. split; [ exact Hc | ]. split; [ exact Hs | ].
  unfold cancel. rewrite Hc. reflexivity.
Qed.

Lemma device_calls_of_cancel (devs : list Recorder.Effect)
    (o : RecorderOptions) :
  existsb is_device_call (map Device devs ++ idle_cancel_trace o)
  = negb (match devs with [] => true | _ => false end).
Proof.
  rewrite existsb_app.
  assert (H : existsb is_device_call (idle_cancel_trace o) = false).
  { unfold idle_cancel_trace.
    now destruct (has_onStateChange o); destruct (has_onCancel o). }
  rewrite H, orb_false_r. now destruct devs.
Qed.

Lemma notifications_of_cancel (devs : list Recorder.Effect)
    (o : RecorderOptions) :
  filter is_notification (map Device devs ++ idle_cancel_trace o)
  = if has_onStateChange o then [StateChange idle] else [].
Proof.
  rewrite filter_app.
  assert (H : filter is_notification (map Device devs) = []).
  { induction devs as [ | d devs IH ]; [ reflexivity | exact IH ]. }
  rewrite H. unfold idle_cancel_trace.
  now destruct (has_onStateChange o); destruct (has_onCancel o).
Qed.

(** [resume()] on an inactive recorder throws and changes nothing. *)
Lemma recorder_resume_inactive (now : Q) (r : Recorder.AudioRecorder) :
  Recorder.state r = Recorder.INACTIVE ->
  snd (fst (Recorder.resume now r)) = r.
Proof.
  intros H. unfold Recorder.resume, Recorder.mbind, Recorder.get.
  now rewrite H.
Qed.

(** No call moves the controller to [idle] over a recorder that is active,
    and none starts the recorder while the controller is [idle]. *)
Lemma call_keeps_idle_inactive (v : VoiceRecorder) (c : ControllerCall) :
  idle_means_inactive v ->
  idle_means_inactive (fst (controller_call js_String hooks v c)).
Proof.
  intros Hv. unfold idle_means_inactive in *.
  destruct c as [access now | now final presign xs xa order | | now | now | ];
    unfold controller_call.
  - unfold start.
    destruct (_state v) eqn:Es; try (cbn [fst]; rewrite Es; discriminate).
    unfold setState.
    destruct (Recorder.start access now _) as [[x r] t2].
    cbn. discriminate.
  - unfold ControllerStop.stop.
    destruct (_state v) eqn:Es; try (cbn [fst]; rewrite Es; discriminate).
    + cbn [fst]. intros _. now apply Hv.
    + destruct (Recorder.stop_executor (audioRecorder v))
        as [[[ [] | t ] r0] t0];
        [ | cbn; rewrite Es; discriminate ].
      destruct (ControllerStop.deliver final r0) as [r1 td]. cbv zeta.
      destruct (Recorder.handleStop now r1) as [[[ res | t ] r2] t2];
        [ | cbn; rewrite Es; discriminate ].
      unfold setState.
      destruct (autoUpload (options v)) as [ [ | ] | ];
        try destruct (Upload.upload _ _ res presign xs xa order)
          as [[ result | t ] u];
        cbn; discriminate.
  - destruct (cancel_unfold v) as (r' & devs & _ & Hs & ->).
    cbn. intros _. exact Hs.
  - unfold pause. rewrite pause_always_throws. cbn [fst with_recorder].
    cbn. exact Hv.
  - unfold resume. cbn [fst].
    destruct (Recorder.resume now (audioRecorder v)) as [[x r] t] eqn:E.
    cbn. intros Hidle.
    pose proof (recorder_resume_inactive now _ (Hv Hidle)) as K.
    rewrite E in K. cbn in K. subst r. now apply Hv.
  - unfold ControllerStop.destroy.
    destruct (recorder_cancel_result (audioRecorder v)) as (r' & t & -> & Hs).
    cbn. intros _. exact Hs.
Qed.

Lemma run_keeps_idle_inactive (calls : list ControllerCall) :
  forall (v : VoiceRecorder) (t : list ControllerStop.Effect),
    idle_means_inactive v ->
    idle_means_inactive
      (fst (fold_left
              (fun acc c =>
                 match controller_call js_String hooks (fst acc) c with
                 | (v', t') => (v', (snd acc ++ t')%list)
                 end)
              calls (v, t))).
Proof.
  induction calls as [ | c calls IH ]; intros v t Hv; [ exact Hv | ].
  cbn [fold_left fst snd].
  pose proof (call_keeps_idle_inactive v c Hv) as Hv'.
  destruct (controller_call js_String hooks v c) as [v' t'].
  now apply IH.
Qed.

End ControllerProperties.

(** C5, as amended.  [cancel()] on a controller in state [idle] leaves it in
    [idle] over an inactive recorder and does call [onStateChange("idle")],
    once, when that hook is set, and then [onCancel()].  It makes no call on
    the capture device or its timer exactly when the recorder below is
    inactive, and then leaves the recorder as it was.  The recorder is
    inactive in a new controller and in every idle controller reached from
    it by calls that are each awaited to their end. *)
Theorem cancel_when_idle (js_String : value -> string)
    (hooks : ControllerStop.UploadHooks) :
  (forall v : Controller.VoiceRecorder,
      Controller._state v = Controller.idle ->
      fst (fst (Controller.cancel v)) = Ok tt
      /\ Controller._state (snd (fst (Controller.cancel v))) = Controller.idle
      /\ Recorder.state (Controller.audioRecorder (snd (fst (Controller.cancel v))))
         = Recorder.INACTIVE
      /\ filter Controller.is_notification (snd (Controller.cancel v))
         = (if Controller.has_onStateChange (Controller.options v)
            then [Controller.StateChange Controller.idle] else [])
      /\ (exists devs : list Recorder.Effect,
            snd (Controller.cancel v)
            = (map Controller.Device devs
               ++ idle_cancel_trace (Controller.options v))%list)
      /\ (existsb Controller.is_device_call (snd (Controller.cancel v)) = false
          <-> Recorder.state (Controller.audioRecorder v) = Recorder.INACTIVE)
      /\ (Recorder.state (Controller.audioRecorder v) = Recorder.INACTIVE ->
          Controller.audioRecorder (snd (fst (Controller.cancel v)))
          = Controller.audioRecorder v
          /\ snd (Controller.cancel v)
             = idle_cancel_trace (Controller.options v)))
  /\ (forall (o : Controller.RecorderOptions) (mime : string)
             (calls : list ControllerCall),
         idle_means_inactive
           (fst (controller_run js_String hooks
                   (Controller.newVoiceRecorder o mime) calls))).
Proof.
  split.
  - intros v Hidle.
    destruct (cancel_unfold v) as (r' & devs & Hc & Hs & Hrun).
    rewrite Hrun. cbn [fst snd Controller._state Controller.audioRecorder].
    split; [ reflexivity | ]. split; [ reflexivity | ].
    split; [ exact Hs | ].
    split; [ apply notifications_of_cancel | ].
    split; [ now exists devs | ].
    assert (Hdevs : devs = snd (Recorder.cancel (Controller.audioRecorder v)))
      by now rewrite Hc.
    split.
    + rewrite device_calls_of_cancel, <- recorder_cancel_silent_iff, <- Hdevs.
      destruct devs; split; intros H; try reflexivity; discriminate.
    + intros Hin. rewrite (recorder_cancel_inactive _ Hin) in Hc.
      injection Hc as <- <-. now split.
  - intros o mime calls. unfold controller_run.
    apply run_keeps_idle_inactive. intros _. reflexivity.
Qed.

Lemma cancel_when_idle_witness :
  existsb Controller.is_device_call (snd (Controller.cancel fresh_controller))
  = false
  /\ Controller.audioRecorder (snd (fst (Controller.cancel fresh_controller)))
     = Controller.audioRecorder fresh_controller
  /\ snd (Controller.cancel fresh_controller) = idle_cancel_trace hooked_options
  /\ filter Controller.is_notification (snd (Controller.cancel fresh_controller))
     = [Controller.StateChange Controller.idle].
Proof.
  destruct (proj1 (cancel_when_idle Platform.js_String
                     (ControllerStop.mkUploadHooks true true true))
              fresh_controller eq_refl)
    as (_ & _ & _ & Hnote & _ & Hiff & Hsame).
  split; [ apply Hiff; reflexivity | ].
  split; [ apply Hsame; reflexivity | ].
  split; [ apply Hsame; reflexivity | exact Hnote ].
Defined.

(** C5 as stated fails: on that idle controller [cancel()] does invoke the
    state-change hook, with [idle]. *)
Lemma cancel_when_idle_notifies :
  Controller._state fresh_controller = Controller.idle
  /\ snd (Controller.cancel fresh_controller)
     = [Controller.StateChange Controller.idle; Controller.OnCancel]
  /\ existsb Controller.is_notification (snd (Controller.cancel fresh_controller))
     = true.
Proof. repeat split. Qed.

(* ================================================================= *)
(** * Further properties of the code *)

(** ** errors.ts *)

Section ErrorTaxonomy.

Lemma obj_get_set_same (k : string) (v : value) (o : obj) :
  obj_get k (obj_set k v o) = Some v.
Proof.
  induction o as [ | [k' v'] o IH ]; simpl.
  - now rewrite String.eqb_refl.
  - destruct (String.eqb k k') eqn:E; simpl; now rewrite E.
Qed.

Lemma obj_get_set_other (k k' : string) (v : value) (o : obj) :
  k <> k' -> obj_get k' (obj_set k v o) = obj_get k' o.
Proof.
  intros Hne. induction o as [ | [k0 v0] o IH ]; simpl.
  - destruct (String.eqb_spec k' k); [ congruence | reflexivity ].
  - destruct (String.eqb_spec k k0); simpl.
    + subst k0. destruct (String.eqb_spec k' k); [ congruence | reflexivity ].
    + now rewrite IH.
Qed.




Lemma createErrorFromResponse_context (status : Z) (statusText : string)
    (responseBody : value) (ctx : option obj) :
  context (createErrorFromResponse status statusText responseBody ctx)
  = obj_set "responseBody" responseBody
      (obj_set "statusText" (VStr statusText)
         (obj_set "status" (VNum (inject_Z status))
            (match ctx with Some c0 => c0 | None => [] end))).
Proof.
  unfold createErrorFromResponse.
  destruct (status =? 401)%Z; [ reflexivity | ].
  destruct (status =? 403)%Z; [ reflexivity | ].
  destruct (status =? 413)%Z; [ reflexivity | ].
  destruct (status =? 429)%Z; [ reflexivity | ].
  destruct (status >=? 500)%Z; reflexivity.
Qed.

End ErrorTaxonomy.

(** What the retry loop uses of such an error. *)
Lemma createErrorFromResponse_cases (status : Z) (statusText : string)
    (responseBody : value) (ctx : option obj) :
  let e := createErrorFromResponse status statusText responseBody ctx in
  (retryable e = true <-> (status = 429 \/ 500 <= status)%Z)
  /\ cls e = CVocaFuseError
  /\ name e = "VocaFuseError".
Proof.
  intro e. subst e. unfold createErrorFromResponse.
  destruct (Z.eqb_spec status 401) as [-> | H401].
  { simpl. repeat split; intros; try lia; try discriminate; intuition lia. }
  destruct (Z.eqb_spec status 403) as [-> | H403].
  { simpl. repeat split; intros; try lia; try discriminate; intuition lia. }
  destruct (Z.eqb_spec status 413) as [-> | H413].
  { simpl. repeat split; intros; try lia; try discriminate; intuition lia. }
  destruct (Z.eqb_spec status 429) as [-> | H429].
  { simpl. repeat split; intros; try lia; try discriminate; intuition lia. }
  destruct (Z.geb_spec status 500) as [H500 | H500]; simpl;
    repeat split; intros; try lia; try discriminate; intuition lia.
Qed.

(** X1.  [createErrorFromResponse] by status: the error is retryable exactly for
    429 and for 500 and above; its code is [AUTHENTICATION_FAILED] exactly for
    401 and 403, [FILE_TOO_LARGE] exactly for 413 and [REQUEST_FAILED] for
    every other status; it is a plain [VocaFuseError] whose message is
    [HTTP <status>: <statusText>]. *)
Theorem createErrorFromResponse_classification (status : Z) (statusText : string)
    (responseBody : value) (ctx : option obj) :
  let e := createErrorFromResponse status statusText responseBody ctx in
  (retryable e = true <-> (status = 429 \/ 500 <= status)%Z)
  /\ (code e = AUTHENTICATION_FAILED <-> (status = 401 \/ status = 403)%Z)
  /\ (code e = FILE_TOO_LARGE <-> status = 413%Z)
  /\ (code e = REQUEST_FAILED <-> (status <> 401 /\ status <> 403 /\ status <> 413)%Z)
  /\ cls e = CVocaFuseError
  /\ name e = "VocaFuseError"
  /\ message e = "HTTP " ++ string_of_Z status ++ ": " ++ statusText.
Proof.
  intro e. subst e. unfold createErrorFromResponse.
  destruct (Z.eqb_spec status 401) as [-> | H401].
  { simpl. repeat split; intros; try lia; try discriminate; intuition lia. }
  destruct (Z.eqb_spec status 403) as [-> | H403].
  { simpl. repeat split; intros; try lia; try discriminate; intuition lia. }
  destruct (Z.eqb_spec status 413) as [-> | H413].
  { simpl. repeat split; intros; try lia; try discriminate; intuition lia. }
  destruct (Z.eqb_spec status 429) as [-> | H429].
  { simpl. repeat split; intros; try lia; try discriminate; intuition lia. }
  destruct (Z.geb_spec status 500) as [H500 | H500]; simpl;
    repeat split; intros; try lia; try discriminate; intuition lia.
Qed.

(** X2.  The context of the error [createErrorFromResponse] builds always carries
    the response's [status], [statusText] and body under these three keys,
    also when the caller's context has entries of the same names; every other
    entry of the caller's context is kept. *)
Theorem createErrorFromResponse_diagnostics (status : Z) (statusText : string)
    (responseBody : value) (ctx : option obj) :
  let c := context (createErrorFromResponse status statusText responseBody ctx) in
  obj_get "status" c = Some (VNum (inject_Z status))
  /\ obj_get "statusText" c = Some (VStr statusText)
  /\ obj_get "responseBody" c = Some responseBody
  /\ (forall k : string,
         k <> "status" -> k <> "statusText" -> k <> "responseBody" ->
         obj_get k c
         = obj_get k (match ctx with Some c0 => c0 | None => [] end)).
Proof.
  intro c. subst c. rewrite createErrorFromResponse_context.
  repeat split.
  - rewrite !obj_get_set_other by discriminate. apply obj_get_set_same.
  - rewrite obj_get_set_other by discriminate. apply obj_get_set_same.
  - apply obj_get_set_same.
  - intros k H1 H2 H3. rewrite !obj_get_set_other; congruence.
Qed.


(** ** client.ts *)

Section BuildUrl.

Import Client.

Lemma string_length_app (a b : string) :
  String.length (a ++ b) = (String.length a + String.length b)%nat.
Proof. induction a as [ | ch a IH ]; simpl; [ reflexivity | now rewrite IH ]. Qed.

Lemma substring_all (s : string) : substring 0 (String.length s) s = s.
Proof. induction s as [ | ch s IH ]; simpl; [ reflexivity | now rewrite IH ]. Qed.

Lemma substring_app_head (a b : string) :
  substring 0 (String.length a) (a ++ b) = a.
Proof.
  induction a as [ | ch a IH ]; simpl.
  - now destruct b.
  - now rewrite IH.
Qed.

Lemma substring_app_tail (a b : string) :
  substring (String.length a) (String.length b) (a ++ b) = b.
Proof.
  induction a as [ | ch a IH ]; simpl; [ apply substring_all | exact IH ].
Qed.

Lemma ends_with_app (a suffix : string) : ends_with suffix (a ++ suffix) = true.
Proof.
  unfold ends_with. rewrite string_length_app.
  replace (String.length a + String.length suffix - String.length suffix)%nat
    with (String.length a) by lia.
  rewrite substring_app_tail, String.eqb_refl, andb_true_r.
  apply Nat.leb_le. lia.
Qed.

End BuildUrl.

(** X4.  [buildUrl]: an absolute URL passes through unchanged; a relative path is
    joined to the base with one slash between them, whether or not the base
    ends with a slash and whether or not the path starts with one. *)
Theorem buildUrl_one_slash (timeout : Q) (o : Client.RetryOptions)
    (base path : string) :
  (forall (c : Client.HttpClient) (url : string),
      prefix "http://" url = true \/ prefix "https://" url = true ->
      Client.buildUrl c url = url)
  /\ (Client.ends_with "/" base = false ->
      prefix "/" path = false ->
      prefix "http://" path = false -> prefix "https://" path = false ->
      let joined := base ++ "/" ++ path in
      Client.buildUrl (Client.mkHttpClient base timeout o) path = joined
      /\ Client.buildUrl (Client.mkHttpClient base timeout o) ("/" ++ path)
         = joined
      /\ Client.buildUrl (Client.mkHttpClient (base ++ "/") timeout o) path
         = joined
      /\ Client.buildUrl (Client.mkHttpClient (base ++ "/") timeout o)
           ("/" ++ path) = joined).
Proof.
  split.
  - intros c url [H | H]; unfold Client.buildUrl; rewrite H;
      [ reflexivity | now rewrite orb_true_r ].
  - intros Hbase Hpath Hhttp Hhttps joined. subst joined.
    assert (Hstrip : substring 0 (String.length (base ++ "/") - 1) (base ++ "/")
                     = base).
    { rewrite string_length_app. simpl String.length.
      replace (String.length base + 1 - 1)%nat with (String.length base) by lia.
      apply substring_app_head. }
    unfold Client.buildUrl. cbn [Client.baseUrl].
    rewrite Hhttp, Hhttps, Hbase, Hpath, (ends_with_app base "/"), Hstrip.
    change (prefix "http://" ("/" ++ path)) with false.
    change (prefix "https://" ("/" ++ path)) with false.
    assert (Hslash : prefix "/" ("/" ++ path) = true) by now destruct path.
    rewrite Hslash. cbn [orb]. repeat split.
Qed.

Lemma buildUrl_one_slash_witness :
  Client.buildUrl (Client.mkHttpClient "https://api.vocafuse.com" 30000
                     Client.defaultRetryOptions) "upload"
  = "https://api.vocafuse.com/upload"
  /\ Client.buildUrl (Client.mkHttpClient "https://api.vocafuse.com" 30000
                        Client.defaultRetryOptions) "/upload"
     = "https://api.vocafuse.com/upload"
  /\ Client.buildUrl (Client.mkHttpClient "https://api.vocafuse.com/" 30000
                        Client.defaultRetryOptions) "upload"
     = "https://api.vocafuse.com/upload"
  /\ Client.buildUrl (Client.mkHttpClient "https://api.vocafuse.com/" 30000
                        Client.defaultRetryOptions) "/upload"
     = "https://api.vocafuse.com/upload".
Proof.
  apply (proj2 (buildUrl_one_slash 30000 Client.defaultRetryOptions
                  "https://api.vocafuse.com" "upload")); reflexivity.
Defined.

(** X5.  [processResponse] never returns a value for a status outside 200..299:
    it throws a [VocaFuseError], which is the classified error of
    [createErrorFromResponse] when the body could be read and a
    non-retryable [NetworkError] when it could not; either way the error is
    retryable only for 429 and for 500 and above. *)
Theorem processResponse_rejects_error_status (r : Client.Response) :
  Client.ok r = false ->
  exists e : VocaFuseError,
    Client.processResponse r = Throw (ThrowError (SdkError e))
    /\ (forall body : value,
           Client.readBody r = Ok body ->
           e = createErrorFromResponse (Client.status r) (Client.statusText r)
                 body None)
    /\ (forall t : thrown,
           Client.readBody r = Throw t ->
           cls e = CNetworkError /\ retryable e = false
           /\ message e = "Failed to parse response")
    /\ (retryable e = true ->
        (Client.status r = 429 \/ 500 <= Client.status r)%Z).
Proof.
  intros Hok. unfold Client.processResponse. rewrite Hok. simpl negb.
  destruct (Client.readBody r) as [body | t] eqn:Hbody.
  - eexists. split; [ reflexivity | ]. split; [ | split ].
    + intros body' H. now injection H as <-.
    + intros t H. discriminate.
    + intros H.
      now apply (proj1 (createErrorFromResponse_cases
                          (Client.status r) (Client.statusText r) body None)).
  - eexists. split; [ reflexivity | ]. split; [ | split ].
    + intros body H. discriminate.
    + intros t' _. repeat split.
    + intros H. discriminate.
Qed.

Lemma processResponse_rejects_error_status_witness :
  exists e : VocaFuseError,
    Client.processResponse
      {| Client.status := 503; Client.statusText := "Service Unavailable";
         Client.headers := [("content-type", "text/plain")];
         Client.json := Throw (ThrowValue VUndefined);
         Client.text := Ok "try later" |}
    = Throw (ThrowError (SdkError e))
    /\ retryable e = true.
Proof.
  destruct (processResponse_rejects_error_status
              {| Client.status := 503; Client.statusText := "Service Unavailable";
                 Client.headers := [("content-type", "text/plain")];
                 Client.json := Throw (ThrowValue VUndefined);
                 Client.text := Ok "try later" |} eq_refl)
    as (e & He & Hbody & _).
  exists e. split; [ exact He | ].
  now rewrite (Hbody (VStr "try later") eq_refl).
Defined.

Section RetryLoop.

Import Client.

Variable js_String : value -> string.
Variable c : HttpClient.
Variable fetch_at : Z -> result Response.
Variable random_at : Z -> Q.

Lemma processResponse_throws_final (r : Response) (t : thrown) (attempt : Z) :
  processResponse r = Throw t ->
  shouldRetry c (as_Error js_String t) attempt = false.
Proof.
  unfold processResponse.
  destruct (readBody r) as [body | t0].
  - destruct (negb (ok r)); [ | discriminate ].
    intros H. injection H as <-. simpl as_Error.
    unfold shouldRetry.
    destruct (attempt >=? maxRetries (retryOptions c))%Z; [ reflexivity | ].
    assert (Hc : cls (createErrorFromResponse (status r) (statusText r) body None)
                 = CVocaFuseError
                 /\ name (createErrorFromResponse (status r) (statusText r) body None)
                    = "VocaFuseError").
    { split;
        apply (createErrorFromResponse_cases (status r) (statusText r)
                 body None). }
    destruct Hc as [Hcls Hname].
    destruct (retryable _); [ | reflexivity ].
    simpl. rewrite Hcls, Hname. reflexivity.
  - intros H. injection H as <-. simpl as_Error.
    now apply shouldRetry_nonretryable.
Qed.

(** An attempt that ends otherwise than in a transport failure is the last. *)
Lemma request_loop_final (fullUrl : string) (options : RequestOptions)
    (maxAttempts : Z) (fuel : nat) (attempt : Z) (lastError : option JsError)
    (issued : nat) (slept : list Q) :
  transient (fetch_at attempt) = false ->
  exists x : result value,
    request_loop js_String c fetch_at random_at fullUrl options maxAttempts
      (S fuel) attempt lastError issued slept
    = mkRequestRun x (S issued) slept
    /\ sdk_completion x.
Proof.
  intros Hnt.
  destruct (fetch_at attempt) as [response | [e | v]] eqn:Hfetch.
  - simpl. rewrite Hfetch. simpl executeRequest.
    destruct (processResponse response) as [v | t] eqn:Hp.
    + eexists. split; [ reflexivity | exact I ].
    + rewrite (processResponse_throws_final response t attempt Hp).
      rewrite orb_true_r. eexists. split; [ reflexivity | exact I ].
  - simpl in Hnt. apply negb_false_iff in Hnt.
    apply String.eqb_eq in Hnt.
    rewrite (request_loop_timeout js_String c fetch_at random_at fullUrl options
               maxAttempts fuel attempt lastError issued slept e Hfetch Hnt).
    eexists. split; [ reflexivity | exact I ].
  - simpl. rewrite Hfetch. simpl.
    assert (Hs : shouldRetry c (PlainError "Error" (js_String v)) attempt = false).
    { unfold shouldRetry.
      now destruct (attempt >=? maxRetries (retryOptions c))%Z. }
    rewrite Hs, orb_true_r. eexists. split; [ reflexivity | exact I ].
Qed.

(** After a transport failure the loop goes on exactly when neither the
    attempt limit nor [maxRetries] is reached. *)
Lemma request_loop_transient (fullUrl : string) (options : RequestOptions)
    (maxAttempts : Z) (fuel : nat) (attempt : Z) (lastError : option JsError)
    (issued : nat) (slept : list Q) (e : JsError) :
  fetch_at attempt = Throw (ThrowError e) ->
  String.eqb (error_name e) "AbortError" = false ->
  request_loop js_String c fetch_at random_at fullUrl options maxAttempts
    (S fuel) attempt lastError issued slept
  = if ((attempt =? maxAttempts) || (attempt >=? maxRetries (retryOptions c)))%Z
    then mkRequestRun
           (exhausted fullUrl options maxAttempts
              (Some (SdkError (transportError fullUrl e))))
           (S issued) slept
    else request_loop js_String c fetch_at random_at fullUrl options maxAttempts
           fuel (attempt + 1) (Some (SdkError (transportError fullUrl e)))
           (S issued)
           (slept ++ [calculateRetryDelay c attempt (random_at attempt)]).
Proof.
  intros Hfetch Hname. simpl. rewrite Hfetch. unfold executeRequest.
  rewrite Hname. simpl as_Error. fold (transportError fullUrl e).
  assert (Hs : shouldRetry c (SdkError (transportError fullUrl e)) attempt
               = negb (attempt >=? maxRetries (retryOptions c))%Z).
  { unfold shouldRetry.
    now destruct (attempt >=? maxRetries (retryOptions c))%Z. }
  rewrite Hs, negb_involutive. reflexivity.
Qed.


(** The loop never goes past an attempt that ends otherwise than in a
    transport failure. *)
Lemma request_loop_stops_at (fullUrl : string) (options : RequestOptions)
    (maxAttempts : Z) (k : Z) (fuel : nat) :
  forall (attempt : Z) (lastError : option JsError) (issued : nat)
         (slept : list Q),
    (attempt <= k)%Z -> transient (fetch_at k) = false ->
    (Z.of_nat (fetches
                 (request_loop js_String c fetch_at random_at fullUrl options
                    maxAttempts fuel attempt lastError issued slept))
     <= Z.of_nat issued + (k - attempt + 1))%Z.
Proof.
  induction fuel as [ | fuel IH ]; intros attempt lastError issued slept Hle Hk.
  - simpl. lia.
  - destruct (transient (fetch_at attempt)) eqn:Ht.
    + destruct (fetch_at attempt) as [r | [e | v]] eqn:Hfetch;
        try discriminate.
      simpl in Ht. apply negb_true_iff in Ht.
      rewrite (request_loop_transient fullUrl options maxAttempts fuel
                 attempt lastError issued slept e Hfetch Ht).
      destruct ((attempt =? maxAttempts)
                || (attempt >=? maxRetries (retryOptions c)))%Z.
      * simpl. lia.
      * assert (Hne : attempt <> k).
        { intros ->. rewrite Hfetch in Hk. simpl in Hk. now rewrite Ht in Hk. }
        specialize (IH (attempt + 1)%Z
                      (Some (SdkError (transportError fullUrl e))) (S issued)
                      (slept ++ [calculateRetryDelay c attempt (random_at attempt)])%list).
        assert (H1 : (attempt + 1 <= k)%Z) by lia.
        specialize (IH H1 Hk). lia.
    + destruct (request_loop_final fullUrl options maxAttempts fuel attempt
                  lastError issued slept Ht) as (x & Hx & _).
      rewrite Hx. simpl. lia.
Qed.

End RetryLoop.


Section RequestEvents.

Variable js_String : value -> string.
Variable c : Client.HttpClient.
Variable fetch_at : Z -> result Client.Response.
Variable random_at : Z -> Q.


End RequestEvents.


(** X7.  [request] never goes past an attempt that ends otherwise than with the
    [fetch] rejected by an [Error] not named [AbortError].  In particular a
    response, whatever its status (the retryable 429 and 5xx included), a body
    that cannot be parsed, and a timeout all end the request at that
    attempt. *)
Theorem request_retries_transport_failures_only (js_String : value -> string)
    (c : Client.HttpClient) (fetch_at : Z -> result Client.Response)
    (random_at : Z -> Q) (url : string) (options : Client.RequestOptions)
    (k : Z) :
  (1 <= k)%Z ->
  transient (fetch_at k) = false ->
  (Z.of_nat
     (Client.fetches (Client.request js_String c fetch_at random_at url options))
   <= k)%Z.
Proof.
  intros Hk Hnt. unfold Client.request.
  pose proof (request_loop_stops_at js_String c fetch_at random_at
                (Client.buildUrl c url) options
                (match Client.retries options with
                 | Some r => r
                 | None => Client.maxRetries (Client.retryOptions c)
                 end + 1)%Z k
                (Z.to_nat
                   (match Client.retries options with
                    | Some r => r
                    | None => Client.maxRetries (Client.retryOptions c)
                    end + 1)%Z)
                1 None 0 [] Hk Hnt) as H.
  simpl in H. lia.
Qed.

(** A 503 answer to the first attempt: one fetch, though the error raised is
    flagged retryable. *)
Lemma request_retries_transport_failures_only_witness :
  (Z.of_nat
     (Client.fetches
        (Client.request Platform.js_String Client.defaultClient
           (fun _ =>
              Ok {| Client.status := 503;
                    Client.statusText := "Service Unavailable";
                    Client.headers := [];
                    Client.json := Throw (ThrowValue VUndefined);
                    Client.text := Ok "" |})
           (fun _ => 0%Q) "/upload"
           {| Client.method := Some "POST"; Client.retries := None |}))
   <= 1)%Z.
Proof.
  apply request_retries_transport_failures_only; [ lia | reflexivity ].
Defined.

(** ** token.ts *)

Section TokenCache.

Import Token.




End TokenCache.





Section RefreshSharing.

Import Token.

Lemma refreshToken_followers_world (calls : list (nat * Q)) :
  forall (w : World) (p : nat),
    refreshPromise (mgr w) = Some p ->
    run w (map refreshToken_call calls)
    = {| mgr := mgr w; issued := issued w; inflight := inflight w;
         waiting :=
           (waiting w ++ map (fun c => RefreshFollower (fst c) p) calls)%list;
         delivered := delivered w |}.
Proof.
  induction calls as [ | [caller now] calls IH ]; intros w p Hp.
  - simpl. rewrite app_nil_r. now destruct w.
  - change (run w (map refreshToken_call ((caller, now) :: calls)))
      with (run (refreshToken caller w) (map refreshToken_call calls)).
    assert (Hs : refreshToken caller w
                 = {| mgr := mgr w; issued := issued w; inflight := inflight w;
                      waiting := (waiting w ++ [RefreshFollower caller p])%list;
                      delivered := delivered w |}).
    { unfold refreshToken. now rewrite Hp. }
    rewrite Hs.
    rewrite (IH {| mgr := mgr w; issued := issued w; inflight := inflight w;
                   waiting := (waiting w ++ [RefreshFollower caller p])%list;
                   delivered := delivered w |} p Hp).
    simpl. now rewrite <- app_assoc.
Qed.

Lemma refresh_calls_world (endpoint : string) (now_at : nat -> Q) (n : nat) :
  run (initWorld endpoint) (concurrent_calls RefreshToken now_at (S n))
  = {| mgr := set_refreshPromise (Some 0%nat) (newTokenManager endpoint);
       issued := 1; inflight := [0%nat];
       waiting :=
         RefreshOwner 0 0
         :: map (fun c => RefreshFollower (fst c) 0)
              (map (fun i => (i, now_at i)) (seq 1 n));
       delivered := [] |}.
Proof.
  rewrite concurrent_calls_refreshToken.
  change (seq 0 (S n)) with (0%nat :: seq 1 n).
  change (run (initWorld endpoint)
            (map refreshToken_call
               (map (fun i => (i, now_at i)) (0%nat :: seq 1 n))))
    with (run (refreshToken 0 (initWorld endpoint))
            (map refreshToken_call (map (fun i => (i, now_at i)) (seq 1 n)))).
  now rewrite (refreshToken_followers_world
                 (map (fun i => (i, now_at i)) (seq 1 n))
                 (refreshToken 0 (initWorld endpoint)) 0%nat eq_refl).
Qed.

Lemma resume_followers (r : result unit) (p : nat) (calls : list (nat * Q)) :
  forall (m : TokenManager) (out : list (nat * result string)),
    fold_left (fun acc x => resume r x acc)
      (map (fun c => RefreshFollower (fst c) p) calls) (m, out)
    = (m, (out ++ map (fun c => (fst c, token_or_error m r)) calls)%list).
Proof.
  induction calls as [ | [caller now] calls IH ]; intros m out; simpl.
  - now rewrite app_nil_r.
  - rewrite IH. now rewrite <- app_assoc.
Qed.

Lemma followers_all_wait (p : nat) (calls : list (nat * Q)) :
  filter (fun x => Nat.eqb (waits_on x) p)
    (map (fun c => RefreshFollower (fst c) p) calls)
  = map (fun c => RefreshFollower (fst c) p) calls
  /\ filter (fun x => negb (Nat.eqb (waits_on x) p))
       (map (fun c => RefreshFollower (fst c) p) calls) = [].
Proof.
  induction calls as [ | c calls [IH1 IH2] ]; [ now split | ].
  simpl. rewrite Nat.eqb_refl. simpl. now rewrite IH1, IH2.
Qed.

Lemma token_or_error_refreshPromise (m : TokenManager) (p : option nat)
    (r : result unit) :
  token_or_error (set_refreshPromise p m) r = token_or_error m r.
Proof. now destruct r. Qed.

End RefreshSharing.

(** X10.  [n + 1] overlapping [refreshToken()] calls on a fresh manager issue one
    fetch; when it settles, with a token or with a failure, every caller's
    promise settles to the same result, nobody is left waiting, and
    [refreshPromise] is cleared, so that the next [refreshToken()] fetches
    anew. *)
Theorem refreshToken_callers_share_result (endpoint : string)
    (now_at : nat -> Q) (n : nat) (settled : result Token.TokenHttpResponse)
    (now : Q) :
  let w :=
    Token.run (Token.initWorld endpoint)
      (Token.concurrent_calls Token.RefreshToken now_at (S n)
       ++ [Token.FetchSettled 0 settled now])%list in
  let fetched :=
    Token.fetchTokenData_settled
      (Token.set_refreshPromise (Some 0%nat) (Token.newTokenManager endpoint))
      settled now in
  Token.issued w = 1%nat
  /\ Token.inflight w = []
  /\ Token.waiting w = []
  /\ Token.refreshPromise (Token.mgr w) = None
  /\ Token.delivered w
     = map (fun i => (i, Token.token_or_error (fst fetched) (snd fetched)))
         (seq 0 (S n))
  /\ forall caller : nat,
       Token.issued (Token.refreshToken caller w) = 2%nat.
Proof.
  intros w fetched. subst w.
  unfold Token.run. rewrite fold_left_app.
  change (fold_left Token.step
            (Token.concurrent_calls Token.RefreshToken now_at (S n))
            (Token.initWorld endpoint))
    with (Token.run (Token.initWorld endpoint)
            (Token.concurrent_calls Token.RefreshToken now_at (S n))).
  rewrite refresh_calls_world.
  cbn [fold_left Token.step Token.fetchSettled].
  unfold Token.fetchSettled.
  cbn [Token.inflight Token.refreshToken Token.initWorld Token.mgr
       Token.refreshPromise Token.newTokenManager Token.issued Token.waiting
       Token.delivered existsb Nat.eqb orb app].
  fold fetched. destruct fetched as [m1 r] eqn:Hf.
  cbn [filter Token.waits_on Nat.eqb negb app].
  destruct (followers_all_wait 0 (map (fun i => (i, now_at i)) (seq 1 n)))
    as [Hall Hnone].
  rewrite Hall, Hnone.
  cbn [fold_left Token.resume app].
  rewrite resume_followers.
  cbn [fst snd Token.issued Token.inflight Token.waiting Token.mgr
       Token.delivered].
  repeat split.
  - rewrite map_map. cbn [fst map app].
    change (seq 0 (S n)) with (0%nat :: seq 1 n). cbn [map].
    f_equal; try (apply map_ext; intros i; cbn [fst];
                  now rewrite token_or_error_refreshPromise).
Qed.

Section JwtSegments.

Import Token.

Lemma repeat_string_length (n : nat) :
  String.length (repeat_string "=" n) = n.
Proof. induction n as [ | n IH ]; simpl; [ reflexivity | now rewrite IH ]. Qed.

Lemma padding_completes (len : nat) :
  ((len + Z.to_nat (Z.rem (4 - Z.rem (Z.of_nat len) 4) 4)) mod 4 = 0)%nat.
Proof.
  assert (Hr : (0 <= Z.rem (Z.of_nat len) 4 < 4)%Z)
    by (apply Z.rem_bound_pos; lia).
  assert (Hdiv : Z.of_nat len
                 = (4 * (Z.of_nat len ÷ 4) + Z.rem (Z.of_nat len) 4)%Z)
    by (apply Z.quot_rem'; lia).
  set (r := Z.rem (Z.of_nat len) 4) in *.
  set (q := (Z.of_nat len ÷ 4)%Z) in *.
  assert (Hq : (0 <= q)%Z) by (apply Z.quot_pos; lia).
  assert (Hcases : (r = 0 \/ r = 1 \/ r = 2 \/ r = 3)%Z) by lia.
  assert (Hpad : (Z.rem (4 - r) 4 = if (r =? 0)%Z then 0 else 4 - r)%Z).
  { destruct Hcases as [-> | [-> | [-> | ->]]]; reflexivity. }
  rewrite Hpad.
  assert (Hsum : exists k : nat,
             (len + Z.to_nat (if (r =? 0)%Z then 0 else 4 - r)
              = 4 * k)%nat).
  { destruct (Z.eqb_spec r 0) as [H0 | H0].
    - exists (Z.to_nat q). simpl Z.to_nat. lia.
    - exists (Z.to_nat q + 1)%nat. lia. }
  destruct Hsum as [k ->].
  rewrite Nat.mul_comm. apply Nat.Div0.mod_mul.
Qed.

Lemma split_nonempty (sep : ascii) (s : string) : split sep s <> [].
Proof.
  destruct s as [ | ch rest ]; simpl; [ discriminate | ].
  destruct (Ascii.eqb ch sep); [ discriminate | ].
  destruct (split sep rest); discriminate.
Qed.

Lemma split_length (sep : ascii) (s : string) :
  List.length (split sep s) = S (count sep s).
Proof.
  induction s as [ | ch rest IH ]; simpl; [ reflexivity | ].
  destruct (Ascii.eqb ch sep); simpl.
  - now rewrite IH.
  - destruct (split sep rest) as [ | h t ] eqn:E; [ discriminate | exact IH ].
Qed.

Lemma split_concat (sep : ascii) (s : string) :
  String.concat (String sep EmptyString) (split sep s) = s.
Proof.
  induction s as [ | ch rest IH ]; simpl; [ reflexivity | ].
  destruct (Ascii.eqb_spec ch sep) as [-> | Hne].
  - destruct (split sep rest) as [ | h t ] eqn:E.
    + now destruct (split_nonempty sep rest).
    + simpl. simpl in IH. now rewrite IH.
  - destruct (split sep rest) as [ | h t ] eqn:E.
    + now destruct (split_nonempty sep rest).
    + cbn [String.concat] in IH |- *. destruct t as [ | h' t' ].
      * now rewrite IH.
      * change (String ch h ++ String sep EmptyString
                ++ String.concat (String sep EmptyString) (h' :: t'))
          with (String ch (h ++ String sep EmptyString
                ++ String.concat (String sep EmptyString) (h' :: t'))).
        now rewrite IH.
Qed.

End JwtSegments.

(** X11.  The string [decodeJwtPayload] hands to [atob], for a token of
    three segments, is the middle segment followed by at most three [=]
    signs, and its length is a multiple of 4; the padding never makes
    [repeat] throw. *)
Theorem paddedPayload_length (token : string) :
  (String.length (paddedPayload token) mod 4 = 0)%nat
  /\ (exists k : nat,
        (k <= 3)%nat
        /\ paddedPayload token
           = nth 1 (Token.split "." token) EmptyString
             ++ Token.repeat_string "=" k)
  /\ forall (atob : string -> result string)
            (JSON_parse : string -> result value),
       List.length (Token.split "." token) = 3%nat ->
       Token.decodeJwtPayload atob JSON_parse token
       = match atob (paddedPayload token) with
         | Throw _ => Ok VNull
         | Ok decoded =>
             match JSON_parse decoded with
             | Throw _ => Ok VNull
             | Ok v => Ok v
             end
         end.
Proof.
  split; [ | split ].
  - unfold paddedPayload. rewrite string_length_app, repeat_string_length.
    apply padding_completes.
  - unfold paddedPayload.
    exists (Z.to_nat (Token.padding (nth 1 (Token.split "." token) EmptyString))).
    split; [ | reflexivity ].
    pose proof (padding_range (nth 1 (Token.split "." token) EmptyString)). lia.
  - intros atob JSON_parse H. rewrite decodeJwtPayload_cases, H. reflexivity.
Qed.

(** X12.  The segments [split] cuts a token into, joined by dots again, give the
    token back, and there is one more of them than there are dots; so
    [decodeJwtPayload] returns [null] for every token whose number of dots
    is not two, without calling [atob] or [JSON.parse]. *)
Theorem decodeJwtPayload_needs_two_dots (atob : string -> result string)
    (JSON_parse : string -> result value) (token : string) :
  String.concat "." (Token.split "." token) = token
  /\ List.length (Token.split "." token) = S (count "." token)
  /\ (count "." token <> 2%nat ->
      Token.decodeJwtPayload atob JSON_parse token = Ok VNull).
Proof.
  split; [ apply split_concat | ]. split; [ apply split_length | ].
  intros H. rewrite decodeJwtPayload_cases, split_length.
  destruct (Nat.eqb_spec (S (count "." token)) 3) as [E | E]; [ lia | reflexivity ].
Qed.

Lemma decodeJwtPayload_needs_two_dots_witness :
  Token.decodeJwtPayload Platform.atob Platform.JSON_parse_literals
    "a.b.c.d" = Ok VNull.
Proof.
  apply (proj2 (proj2 (decodeJwtPayload_needs_two_dots Platform.atob
                         Platform.JSON_parse_literals "a.b.c.d"))).
  discriminate.
Defined.

(** X13.  Expiry is monotone in time: a token [isJwtExpired] reports as expired at
    one time is reported as expired at every later time. *)
Theorem isJwtExpired_monotone (atob : string -> result string)
    (JSON_parse : string -> result value) (token : string) (now now' : Q) :
  now <= now' ->
  Token.isJwtExpired atob JSON_parse token now = Ok true ->
  Token.isJwtExpired atob JSON_parse token now' = Ok true.
Proof.
  intros Hle. unfold Token.isJwtExpired.
  destruct (decodeJwtPayload_returns atob JSON_parse token) as [payload ->].
  cbn [Token.bind]. destruct (negb (truthy payload)); [ reflexivity | ].
  destruct (number_property "exp" payload) as [exp | ]; [ | reflexivity ].
  cbv zeta. intros H. injection H as H. f_equal.
  apply Qle_bool_iff in H. apply Qle_bool_iff.
  apply (Qle_trans _ (inject_Z (Qfloor (now / 1000)))); [ exact H | ].
  rewrite <- Zle_Qle. apply Qfloor_resp_le.
  unfold Qdiv. apply Qmult_le_compat_r; [ exact Hle | discriminate ].
Qed.

Lemma isJwtExpired_monotone_witness :
  Token.isJwtExpired Platform.atob Platform.JSON_parse_literals "a.bnVsbA.c"
    1700000001000 = Ok true.
Proof.
  apply (isJwtExpired_monotone Platform.atob Platform.JSON_parse_literals
           "a.bnVsbA.c" 1700000000000 1700000001000).
  - discriminate.
  - reflexivity.
Defined.

(** ** recorder.ts: releasing, starting, and one whole capture *)

Section RecorderLifecycle.

Import Recorder.

Variable js_number : Q -> string.

Lemma cleanup_computes (r : AudioRecorder) :
  cleanup r = (Ok tt, released r, releases r).
Proof.
  destruct r as [md mime mr ms ch st pt timer sq].
  destruct timer as [ id | ]; destruct ms; reflexivity.
Qed.

Lemma releases_released (r : AudioRecorder) : releases (released r) = [].
Proof. reflexivity. Qed.

Lemma released_released (r : AudioRecorder) :
  released (released r) = released r.
Proof. reflexivity. Qed.

Lemma start_granted (r : AudioRecorder) (t0 : Q) :
  start (Ok tt) t0 (released r)
  = (Ok tt, capturing r t0 [],
     [MediaRecorderStart; SetInterval (S (timerSeq r))]).
Proof. destruct r as [md mime mr ms ch st pt timer sq]. reflexivity. Qed.

Lemma srun_app (s : Session) (a b : list Input) :
  srun js_number s (a ++ b) = srun js_number (srun js_number s a) b.
Proof. apply fold_left_app. Qed.

Lemma data_delivered (cs : list Blob) :
  forall (r : AudioRecorder) (t0 : Q) (held : list Blob)
         (p : option StopOrigin) (l : list Obs),
    srun js_number {| rec := capturing r t0 held; pendingStop := p; log := l |}
      (map DataAvailable cs)
    = {| rec := capturing r t0 (held ++ kept cs); pendingStop := p;
         log := (l ++ map (fun c => Eff (OnDataAvailable c)) (kept cs))%list |}.
Proof.
  induction cs as [ | c cs IH ]; intros r t0 held p l.
  - simpl. now rewrite !app_nil_r.
  - change (srun js_number ?s (map DataAvailable (c :: cs)))
      with (srun js_number (sstep js_number s (DataAvailable c))
              (map DataAvailable cs)).
    unfold kept. cbn [filter]. fold (kept cs).
    destruct (0 <? blob_size c)%Z eqn:E.
    + replace (sstep js_number _ (DataAvailable c))
        with {| rec := capturing r t0 (held ++ [c]); pendingStop := p;
                log := (l ++ [Eff (OnDataAvailable c)])%list |}.
      * rewrite IH. cbn [map]. now rewrite <- !app_assoc.
      * unfold sstep. cbn [rec].
        unfold onDataAvailable, mbind, get. rewrite E. reflexivity.
    + replace (sstep js_number _ (DataAvailable c))
        with {| rec := capturing r t0 held; pendingStop := p; log := l |}.
      * apply IH.
      * unfold sstep. cbn [rec].
        unfold onDataAvailable, mbind, get. rewrite E.
        unfold observe, ret. cbn. now rewrite app_nil_r.
Qed.

Lemma kept_bytes (cs : list Blob) :
  List.concat (map blob_bytes (kept cs)) = List.concat (map blob_bytes cs).
Proof.
  induction cs as [ | c cs IH ]; [ reflexivity | ].
  unfold kept. cbn [filter]. fold (kept cs).
  destruct (0 <? blob_size c)%Z eqn:E; cbn [map List.concat].
  - now rewrite IH.
  - rewrite IH. apply Z.ltb_ge in E. unfold blob_size in E.
    destruct (blob_bytes c); [ reflexivity | simpl in E; lia ].
Qed.

Lemma flat_map_eff_data (cs : list Blob) :
  flat_map
    (fun o => match o with Eff (OnDataAvailable c) => [c] | _ => [] end)
    (map (fun c => Eff (OnDataAvailable c)) cs) = cs.
Proof. induction cs as [ | c cs IH ]; [ reflexivity | simpl; now rewrite IH ]. Qed.

Lemma flat_map_eff_settled (cs : list Blob) :
  flat_map
    (fun o => match o with StopSettled _ x => [x] | _ => [] end)
    (map (fun c => Eff (OnDataAvailable c)) cs) = [].
Proof. induction cs as [ | c cs IH ]; [ reflexivity | simpl; now rewrite IH ]. Qed.

Lemma capture_log (r : AudioRecorder) (t0 t1 : Q) (cs : list Blob) :
  capture js_number (released r) t0 cs t1
  = {| rec := released (capturing r t0 []);
       pendingStop := None;
       log :=
         ([Eff MediaRecorderStart; Eff (SetInterval (S (timerSeq r)));
           Returned "start" (Ok tt)]
          ++ map (fun c => Eff (OnDataAvailable c)) (kept cs)
          ++ [Eff MediaRecorderStop; Eff (ClearInterval (S (timerSeq r)));
              Eff TrackStop;
              StopSettled ByCaller
                (Ok {| blob := new_Blob (kept cs) (supportedMimeType r);
                       mimeType := supportedMimeType r;
                       duration := (t1 - t0) / 1000;
                       size := blob_size
                                 (new_Blob (kept cs) (supportedMimeType r));
                       format :=
                         extractFormatFromMimeType (supportedMimeType r) |})])%list
    |}.
Proof.
  unfold capture.
  change (srun js_number ?s (CallStart (Ok tt) t0 :: ?rest))
    with (srun js_number (sstep js_number s (CallStart (Ok tt) t0)) rest).
  replace (sstep js_number _ (CallStart (Ok tt) t0))
    with {| rec := capturing r t0 []; pendingStop := None;
            log := [Eff MediaRecorderStart; Eff (SetInterval (S (timerSeq r)));
                    Returned "start" (Ok tt)] |}
    by (unfold sstep, call; cbn [rec]; now rewrite start_granted).
  rewrite srun_app, data_delivered. cbn [app].
  destruct r as [md mime mr ms ch st pt timer sq].
  unfold srun. cbn [fold_left]. unfold sstep at 2. cbn [rec].
  unfold stop_executor, mbind, get. cbn.
  unfold observe. cbn [log rec pendingStop map app].
  f_equal. do 3 f_equal. now rewrite <- !app_assoc.
Qed.

End RecorderLifecycle.

(** [cleanup] never throws, releases the interval and the stream the
    recorder holds, and is idempotent: run again, it changes nothing and
    calls nothing. *)
Lemma cleanup_idempotent (r : Recorder.AudioRecorder) :
  exists (r' : Recorder.AudioRecorder) (t : list Recorder.Effect),
    Recorder.cleanup r = (Ok tt, r', t)
    /\ Recorder.state r' = Recorder.INACTIVE
    /\ Recorder.mediaStream r' = false
    /\ Recorder.chunks r' = []
    /\ Recorder.progressTimer r' = None
    /\ (forall id : nat,
          In (Recorder.ClearInterval id) t <-> Recorder.progressTimer r = Some id)
    /\ (In Recorder.TrackStop t <-> Recorder.mediaStream r = true)
    /\ Recorder.cleanup r' = (Ok tt, r', []).
Proof.
  exists (released r), (releases r).
  split; [ apply cleanup_computes | ].
  repeat (split; [ reflexivity | ]).
  split; [ | split ].
  - intros id. unfold releases.
    destruct (Recorder.progressTimer r) as [ id' | ];
      destruct (Recorder.mediaStream r); simpl; split;
      intuition (try discriminate; try congruence).
  - unfold releases.
    destruct (Recorder.progressTimer r) as [ id' | ];
      destruct (Recorder.mediaStream r); simpl; split;
      intuition (try discriminate; try congruence).
  - now rewrite cleanup_computes.
Qed.

(** X14.  One whole capture delivers every byte: when [start()], the chunks [cs]
    and [stop()] follow one another on a released recorder, the promise of
    [stop()] resolves, once, with a blob that holds the bytes of all the
    chunks in the order they came, of the detected type, with the elapsed
    wall-clock time as duration; [onDataAvailable] saw the chunks that have
    bytes; and the recorder ends inactive, holding nothing. *)
Theorem capture_delivers_every_byte (js_number : Q -> string)
    (r : Recorder.AudioRecorder) (t0 t1 : Q) (cs : list Blob) :
  let s := capture js_number (released r) t0 cs t1 in
  exists res : Recorder.VoicenoteResult,
    stop_results s = [Ok res]
    /\ blob_bytes (Recorder.blob res) = List.concat (map blob_bytes cs)
    /\ blob_type (Recorder.blob res) = Recorder.supportedMimeType r
    /\ Recorder.size res
       = Z.of_nat (List.length (List.concat (map blob_bytes cs)))
    /\ Recorder.duration res = (t1 - t0) / 1000
    /\ data_callbacks s = kept cs
    /\ inactive (Recorder.rec s) = true
    /\ releases (Recorder.rec s) = []
    /\ Recorder.chunks (Recorder.rec s) = [].
Proof.
  intros s. subst s. rewrite capture_log.
  eexists. split.
  - unfold stop_results. cbn [Recorder.log].
    rewrite !flat_map_app, flat_map_eff_settled. reflexivity.
  - cbn [Recorder.blob Recorder.size Recorder.duration Recorder.rec].
    split; [ apply kept_bytes | ]. split; [ reflexivity | ].
    split; [ unfold blob_size, new_Blob; cbn [blob_bytes];
             now rewrite kept_bytes | ].
    split; [ reflexivity | ]. split; [ | now repeat split ].
    unfold data_callbacks. cbn [Recorder.log].
    rewrite !flat_map_app, flat_map_eff_data. cbn. apply app_nil_r.
Qed.

(** X15.  A [start()] whose microphone request fails: the recorder is released
    (no platform recorder was started), and what is thrown tells the cause:
    [MICROPHONE_ACCESS_DENIED] for [NotAllowedError], with the message of
    [requestMicrophoneAccess]; [RECORDING_NOT_SUPPORTED] for [NotFoundError]
    and [NotSupportedError]; [UNKNOWN_ERROR] with the platform's message for
    anything else.  The platform's error is kept as [originalError]. *)
Theorem start_failure_classification (n m : string) (now : Q)
    (r : Recorder.AudioRecorder) :
  inactive r = true ->
  exists e : VocaFuseError,
    Recorder.start (Throw (ThrowError (PlainError n m))) now r
    = (Throw (ThrowError (SdkError e)), released r, releases r)
    /\ originalError e = Some (PlainError n m)
    /\ (n = "NotAllowedError" ->
        code e = MICROPHONE_ACCESS_DENIED
        /\ message e
           = "Microphone access denied. Please allow microphone access and try again.")
    /\ (n = "NotFoundError" \/ n = "NotSupportedError" ->
        code e = RECORDING_NOT_SUPPORTED)
    /\ (n <> "NotAllowedError" -> n <> "NotFoundError" ->
        n <> "NotSupportedError" ->
        code e = UNKNOWN_ERROR /\ message e = m).
Proof.
  intros Hin. unfold inactive in Hin.
  unfold Recorder.start, Recorder.mcatch, Recorder.mbind at 1, Recorder.get.
  rewrite Hin. cbn [negb].
  unfold Recorder.mbind at 1, Recorder.ret.
  unfold Recorder.mbind at 1, Recorder.requestMicrophoneAccess.
  cbn [error_name].
  destruct (String.eqb_spec n "NotAllowedError") as [E1 | E1].
  - unfold Recorder.throw, Recorder.mbind at 1. rewrite cleanup_computes.
    cbn [instanceof_class cls new_VoicenoteError subclass].
    unfold Recorder.rethrow. cbn [app]. rewrite app_nil_r.
    eexists. split; [ reflexivity | ].
    split; [ reflexivity | ]. split; [ now split | ].
    split; [ intros [H | H]; subst n; discriminate | ].
    intros H; now destruct H.
  - unfold Recorder.rethrow, Recorder.mbind at 1. rewrite cleanup_computes.
    cbn [instanceof_class error_name].
    apply String.eqb_neq in E1. rewrite E1.
    destruct (String.eqb_spec n "NotFoundError") as [E2 | E2];
      [ | destruct (String.eqb_spec n "NotSupportedError") as [E3 | E3] ];
      unfold Recorder.throw; cbn [app]; rewrite app_nil_r;
      eexists; (split; [ reflexivity | ]);
      (split; [ reflexivity | ]); apply String.eqb_neq in E1.
    + split; [ now intros H | ]. split; [ reflexivity | ].
      intros _ H; now destruct H.
    + split; [ now intros H | ]. split; [ reflexivity | ].
      intros _ _ H; now destruct H.
    + split; [ now intros H | ].
      split; [ intros [H | H]; contradiction | ].
      intros _ _ _. now split.
Qed.

Lemma start_failure_classification_witness :
  exists e : VocaFuseError,
    Recorder.start (Throw (ThrowError (PlainError "NotFoundError" "no device")))
      0 (Recorder.newAudioRecorder 60 webm)
    = (Throw (ThrowError (SdkError e)),
       released (Recorder.newAudioRecorder 60 webm),
       releases (Recorder.newAudioRecorder 60 webm))
    /\ code e = RECORDING_NOT_SUPPORTED.
Proof.
  destruct (start_failure_classification "NotFoundError" "no device" 0
              (Recorder.newAudioRecorder 60 webm) eq_refl)
    as (e & Hrun & _ & _ & Hcode & _).
  exists e. split; [ exact Hrun | apply Hcode; now left ].
Defined.

(** X16.  [start()] on a recorder that is not inactive throws [RECORDING_FAILED]
    and, through the [cleanup] of its [catch] clause, tears the running
    capture down: the chunks recorded so far are dropped, the stream and the
    interval are released, and the platform recorder is let go without being
    stopped. *)
Theorem start_while_active_discards_capture (access : result unit) (now : Q)
    (r : Recorder.AudioRecorder) :
  inactive r = false ->
  exists t : list Recorder.Effect,
    Recorder.start access now r
    = (Throw (ThrowError (SdkError
         (new_VoicenoteError RECORDING_FAILED
            ("Cannot start voicenote: current state is " ++ Recorder.state r)
            None None))),
       released r, t)
    /\ ~ In Recorder.MediaRecorderStop t
    /\ ~ In Recorder.MediaRecorderStart t
    /\ Recorder.chunks (released r) = []
    /\ inactive (released r) = true.
Proof.
  intros Hact. unfold inactive in Hact.
  unfold Recorder.start, Recorder.mcatch, Recorder.mbind at 1, Recorder.get.
  rewrite Hact. cbn [negb].
  unfold Recorder.mbind at 1, Recorder.throw.
  unfold Recorder.mbind at 1. rewrite cleanup_computes.
  cbn [instanceof_class cls new_VoicenoteError subclass].
  unfold Recorder.rethrow. cbn [app]. rewrite app_nil_r.
  eexists. split; [ reflexivity | ].
  unfold releases.
  destruct (Recorder.progressTimer r); destruct (Recorder.mediaStream r);
    simpl; intuition discriminate.
Qed.

Lemma start_while_active_discards_capture_witness :
  exists t : list Recorder.Effect,
    fst (Recorder.start (Ok tt) 5000
           (capturing (Recorder.newAudioRecorder 60 webm) 0 [six_bytes]))
    = (Throw (ThrowError (SdkError
         (new_VoicenoteError RECORDING_FAILED
            "Cannot start voicenote: current state is recording" None None))),
       released (capturing (Recorder.newAudioRecorder 60 webm) 0 [six_bytes]))
    /\ ~ In Recorder.MediaRecorderStop t.
Proof.
  destruct (start_while_active_discards_capture (Ok tt) 5000
              (capturing (Recorder.newAudioRecorder 60 webm) 0 [six_bytes])
              eq_refl)
    as (t & Hrun & Hstop & _).
  exists t. split; [ now rewrite Hrun | exact Hstop ].
Defined.

Section RecorderInvariant.

Import Recorder.

Variable js_number : Q -> string.

Ltac recorder_cases r :=
  destruct r as [md mime [ [ | | ] | ] ms ch st pt [ id | ] sq].









Lemma tick_progress (now : Q) (r : AudioRecorder) :
  progress_values (snd (tick js_number now r))
  = if Qle_bool (maxDuration r) (currentDuration r now) then []
    else [currentDuration r now].
Proof.
  rewrite tick_unfold.
  destruct (Qle_bool (maxDuration r) (currentDuration r now)) eqn:E;
    [ | reflexivity ].
  clear E. recorder_cases r; reflexivity.
Qed.



End RecorderInvariant.


(** X18.  [onProgress] never hears of a duration at or past the limit: a timer
    tick, in any state of the recorder, reports the elapsed time the
    recorder reads at that moment when it is below [maxDuration], and
    reports nothing otherwise. *)
Theorem onProgress_below_limit (js_number : Q -> string) (now : Q)
    (r : Recorder.AudioRecorder) :
  progress_values (snd (Recorder.tick js_number now r))
  = (if Qle_bool (Recorder.maxDuration r) (Recorder.currentDuration r now)
     then [] else [Recorder.currentDuration r now])
  /\ Forall (fun d => d < Recorder.maxDuration r)
       (progress_values (snd (Recorder.tick js_number now r))).
Proof.
  split; [ apply tick_progress | ]. rewrite tick_progress.
  destruct (Qle_bool (Recorder.maxDuration r) (Recorder.currentDuration r now))
    eqn:E; constructor; [ | constructor ].
  apply Qnot_le_lt. intros Hle. apply Qle_bool_iff in Hle. congruence.
Qed.

(** ** recorder.ts and upload.ts: formats and the upload request *)

Section FormatProperties.

Lemma count_app (ch : ascii) (s1 s2 : string) :
  count ch (s1 ++ s2) = (count ch s1 + count ch s2)%nat.
Proof.
  induction s1 as [ | x s1 IH ]; [ reflexivity | ].
  simpl. rewrite IH. lia.
Qed.

Lemma replace_punctuation_clean (s : string) :
  count ":" (UploadRequest.replace_punctuation s) = 0%nat
  /\ count "." (UploadRequest.replace_punctuation s) = 0%nat
  /\ String.length (UploadRequest.replace_punctuation s) = String.length s.
Proof.
  induction s as [ | ch s (IH1 & IH2 & IH3) ]; [ now repeat split | ].
  cbn [UploadRequest.replace_punctuation count String.length].
  rewrite IH1, IH2, IH3.
  destruct (Ascii.eqb_spec ch ":") as [-> | H1]; [ now repeat split | ].
  destruct (Ascii.eqb_spec ch ".") as [-> | H2]; [ now repeat split | ].
  cbn [orb].
  apply Ascii.eqb_neq in H1, H2. rewrite H1, H2. now repeat split.
Qed.

Lemma getFileExtension_cases (format : string) :
  UploadRequest.getFileExtension format = "webm"
  \/ UploadRequest.getFileExtension format = "ogg"
  \/ UploadRequest.getFileExtension format = "mp4".
Proof.
  unfold UploadRequest.getFileExtension. cbv zeta.
  destruct (String.eqb (Client.lower format) "webm"); [ now left | ].
  destruct (String.eqb (Client.lower format) "ogg"); [ now right; left | ].
  destruct (String.eqb (Client.lower format) "mp4"); [ now right; right | ].
  now left.
Qed.

End FormatProperties.


(** X20.  The request [createUploadRequest] builds: the file name is
    [voicenote-], the timestamp with its colons and dots replaced, a dot and
    the extension, so it has exactly one dot and no colon, and the extension
    is [webm], [ogg] or [mp4]; multipart is asked for exactly above 5 MiB;
    and the metadata repeats the size, the duration and the format of the
    request, which are the size, the rounded duration and the format of the
    recording. *)
Theorem createUploadRequest_shape (hundredths : Q -> Q)
    (voicenote : Recorder.VoicenoteResult) (iso : string) :
  let request := UploadRequest.createUploadRequest hundredths voicenote iso in
  count "." (UploadRequest.file_name request) = 1%nat
  /\ count ":" (UploadRequest.file_name request) = 0%nat
  /\ (exists stem ext : string,
        UploadRequest.file_name request = stem ++ "." ++ ext
        /\ (ext = "webm" \/ ext = "ogg" \/ ext = "mp4")
        /\ String.length stem = (10 + String.length iso)%nat)
  /\ (UploadRequest.use_multipart request = true
      <-> (5242880 < Recorder.size voicenote)%Z)
  /\ UploadRequest.file_size request = Recorder.size voicenote
  /\ UploadRequest.audio_format request = Recorder.format voicenote
  /\ UploadRequest.duration_seconds request
     = hundredths (Recorder.duration voicenote)
  /\ UploadRequest.m_duration_seconds (UploadRequest.sdk_metadata request)
     = UploadRequest.duration_seconds request
  /\ UploadRequest.file_size_bytes (UploadRequest.sdk_metadata request)
     = UploadRequest.file_size request
  /\ UploadRequest.codec (UploadRequest.sdk_metadata request)
     = UploadRequest.audio_format request.
Proof.
  intros request. subst request. unfold UploadRequest.createUploadRequest.
  cbv zeta.
  cbn [UploadRequest.file_name UploadRequest.duration_seconds
       UploadRequest.use_multipart UploadRequest.sdk_metadata
       UploadRequest.m_duration_seconds UploadRequest.file_size_bytes
       UploadRequest.file_size UploadRequest.codec UploadRequest.audio_format].
  destruct (replace_punctuation_clean iso) as (Hc & Hd & Hl).
  pose proof (getFileExtension_cases (Recorder.format voicenote)) as Hext.
  set (ext := UploadRequest.getFileExtension (Recorder.format voicenote)) in *.
  assert (Hext_dot : count "." ext = 0%nat /\ count ":" ext = 0%nat)
    by (destruct Hext as [-> | [-> | ->]]; now split).
  split; [ | split; [ | split; [ | split ] ] ].
  - rewrite !count_app, Hd, (proj1 Hext_dot). reflexivity.
  - rewrite !count_app, Hc, (proj2 Hext_dot). reflexivity.
  - exists ("voicenote-" ++ UploadRequest.replace_punctuation iso), ext.
    split; [ | split; [ exact Hext | ] ].
    + reflexivity.
    + rewrite string_length_app, Hl. reflexivity.
  - change (5 * 1024 * 1024)%Z with 5242880%Z. apply Z.ltb_lt.
  - now repeat split.
Qed.

(** ** upload.ts: how an upload ends *)

Section UploadProperties.

Import Upload.

Variable js_String : value -> string.
Variable cfg : UploadConfig.





Lemma promise_all_fulfilled (n : nat) (xhr_at : nat -> XhrOutcome)
    (order : list nat) :
  promise_all n (fun index => uploadPart_settled index (xhr_at index)) order
  = Ok tt
  <-> forallb (fun i => transfer_ok (xhr_at i)) (seq 0 n) = true.
Proof.
  unfold promise_all.
  destruct (find _ (settle_sequence n order)) as [ i | ] eqn:E.
  - apply find_some in E. destruct E as [Hin Hrej].
    apply settle_sequence_in in Hin.
    split.
    + intros H. rewrite H in Hrej. discriminate.
    + intros H. rewrite forallb_forall in H.
      rewrite uploadPart_rejects_iff, (H i) in Hrej; [ discriminate | ].
      apply in_seq. lia.
  - split; [ intros _ | reflexivity ].
    apply forallb_forall. intros i Hi. apply in_seq in Hi.
    pose proof (find_none _ _ E i) as Hnone. cbv beta in Hnone.
    rewrite uploadPart_rejects_iff in Hnone.
    apply negb_false_iff, Hnone, settle_sequence_in. lia.
Qed.

Lemma sent_ok_iff (voicenote : Recorder.VoicenoteResult)
    (response : PresignedUrlResponse)
    (xhr_single : XhrOutcome) (xhr_at : nat -> XhrOutcome) (order : list nat) :
  fst (match upload_type response with
       | Single => uploadSingle (Recorder.blob voicenote) response xhr_single
       | Multipart =>
           uploadMultipart (Recorder.blob voicenote) response xhr_at order
       end) = Ok tt
  <-> transfers_succeed response xhr_single xhr_at = true.
Proof.
  unfold transfers_succeed, uploadSingle, uploadMultipart.
  destruct (upload_type response).
  - destruct (presigned_url response) as [ url | ];
      [ | split; discriminate ].
    destruct (String.eqb url ""); cbn [fst negb andb];
      [ split; discriminate | ].
    destruct xhr_single as [ status statusText | | ]; cbn;
      try (split; discriminate).
    destruct (status_ok status); split; auto; discriminate.
  - destruct (upload_info response) as [ parts | ];
      [ | split; discriminate ].
    cbn [fst]. apply promise_all_fulfilled.
Qed.

End UploadProperties.

Section UploadCallbackProperties.

Import Upload.

Variable js_String : value -> string.
Variable cb : UploadCallbacks.Callbacks.




Lemma upload_body_resolves (voicenote : Recorder.VoicenoteResult)
    (response : PresignedUrlResponse)
    (xhr_single : XhrOutcome) (xhr_at : nat -> XhrOutcome) (order : list nat) :
  fst (UploadCallbacks.upload_body js_String cb voicenote (Ok response)
         xhr_single xhr_at order)
  = (if transfers_succeed response xhr_single xhr_at
        && calls_return cb (upload_result voicenote response)
     then Ok (upload_result voicenote response)
     else fst (UploadCallbacks.upload_body js_String cb voicenote (Ok response)
                 xhr_single xhr_at order))
  /\ (transfers_succeed response xhr_single xhr_at
      && calls_return cb (upload_result voicenote response) = false ->
      exists t : thrown,
        fst (UploadCallbacks.upload_body js_String cb voicenote (Ok response)
               xhr_single xhr_at order) = Throw t).
Proof.
  pose proof (sent_ok_iff voicenote response xhr_single xhr_at order) as Hsent.
  unfold UploadCallbacks.upload_body, calls_return, requestPresignedUrl.
  destruct (UploadCallbacks.notifyProgress cb 0) as [[ [] | e0 ] t0];
    cbn [fst andb];
    [ | rewrite andb_false_r; split; [ reflexivity | intros _; now exists e0 ] ].
  destruct (UploadCallbacks.notifyProgress cb 10) as [[ [] | e10 ] t10];
    cbn [fst andb]; cbv zeta;
    [ | rewrite andb_false_r; split; [ reflexivity | intros _; now exists e10 ] ].
  destruct (match upload_type response with
            | Single => _ | Multipart => _ end) as [[ [] | e2 ] t2];
    cbn [fst] in Hsent.
  2:{ assert (Hf : transfers_succeed response xhr_single xhr_at = false).
      { destruct (transfers_succeed response xhr_single xhr_at) eqn:E;
          [ | reflexivity ].
        discriminate (proj2 Hsent eq_refl). }
      rewrite Hf. cbn [andb fst].
      split; [ reflexivity | intros _; now exists e2 ]. }
  rewrite (proj1 Hsent eq_refl). cbn [andb].
  destruct (UploadCallbacks.notifyProgress cb 100) as [[ [] | e100 ] t100];
    cbn [fst andb]; cbv zeta;
    [ | split; [ reflexivity | intros _; now exists e100 ] ].
  destruct (UploadCallbacks.onComplete cb) as [ f | ].
  - unfold upload_result.
    destruct (f _) as [ [] | t ]; cbn [fst];
      split; try reflexivity; try discriminate.
    intros _. now exists t.
  - cbn [fst]. split; [ reflexivity | discriminate ].
Qed.


End UploadCallbackProperties.


(** X22.  Once the presigned response is there, [upload()] returns a result
    exactly when every transfer the response asks for can be sent and ends
    with a status in [200, 300) and every callback called on the way (the
    progress callback at 0, 10 and 100, [onComplete] at the result) returns
    normally; the result then carries the identifiers of the response and
    the size, duration and format of the recording.  In every other case it
    throws; so a callback that throws turns an upload whose transfers all
    succeeded into a failure. *)
Theorem upload_resolves_iff_transfers_and_callbacks_succeed (js_String : value -> string)
    (cb : UploadCallbacks.Callbacks) (voicenote : Recorder.VoicenoteResult)
    (response : Upload.PresignedUrlResponse)
    (xhr_single : Upload.XhrOutcome) (xhr_at : nat -> Upload.XhrOutcome)
    (order : list nat) :
  let run :=
    UploadCallbacks.upload js_String cb voicenote (Ok response) xhr_single
      xhr_at order in
  let returns :=
    transfers_succeed response xhr_single xhr_at
    && calls_return cb (upload_result voicenote response) in
  (returns = true -> fst run = Ok (upload_result voicenote response))
  /\ (returns = false -> exists t : thrown, fst run = Throw t)
  /\ ((exists r : Upload.UploadResult, fst run = Ok r) <-> returns = true)
  /\ (transfers_succeed response xhr_single xhr_at = true ->
      fst (UploadCallbacks.upload js_String throwing_onComplete voicenote
             (Ok response) xhr_single xhr_at order)
      = Throw (ThrowError (SdkError
          (wrapUnknownError
             (ThrowError (PlainError "TypeError" "x is undefined"))
             (Some [("operation", VStr "upload voicenote")]))))).
Proof.
  intros run returns. subst run returns.
  assert (Hup : forall cb' : UploadCallbacks.Callbacks,
    (transfers_succeed response xhr_single xhr_at
     && calls_return cb' (upload_result voicenote response) = true ->
     fst (UploadCallbacks.upload js_String cb' voicenote (Ok response)
            xhr_single xhr_at order)
     = Ok (upload_result voicenote response))
    /\ (transfers_succeed response xhr_single xhr_at
        && calls_return cb' (upload_result voicenote response) = false ->
        exists t : thrown,
          fst (UploadCallbacks.upload js_String cb' voicenote (Ok response)
                 xhr_single xhr_at order) = Throw t
          /\ exists t0 : thrown,
               fst (UploadCallbacks.upload_body js_String cb' voicenote
                      (Ok response) xhr_single xhr_at order) = Throw t0)).
  { intros cb'.
    destruct (upload_body_resolves js_String cb' voicenote response xhr_single
                xhr_at order) as [Hres Hrej].
    unfold UploadCallbacks.upload.
    destruct (transfers_succeed response xhr_single xhr_at
              && calls_return cb' (upload_result voicenote response)).
    - split; [ intros _ | discriminate ].
      destruct (UploadCallbacks.upload_body js_String cb' voicenote
                  (Ok response) xhr_single xhr_at order) as [[ r | e ] trace];
        cbn [fst] in Hres |- *; [ exact Hres | discriminate ].
    - split; [ discriminate | intros _ ].
      destruct (Hrej eq_refl) as [t0 Ht0].
      destruct (UploadCallbacks.upload_body js_String cb' voicenote
                  (Ok response) xhr_single xhr_at order) as [[ r | e ] trace];
        cbn [fst] in Ht0; [ discriminate | ].
      cbv zeta.
      destruct (UploadCallbacks.onError cb') as [ g | ];
        [ destruct (g _) as [ [] | t' ] | ]; cbn [fst];
        eexists; (split; [ reflexivity | now exists e ]). }
  destruct (Hup cb) as [Hres Hrej].
  split; [ exact Hres | ].
  split; [ intros H; destruct (Hrej H) as (t & Ht & _); now exists t | ].
  split.
  - destruct (transfers_succeed response xhr_single xhr_at
              && calls_return cb (upload_result voicenote response)).
    + split; [ reflexivity | intros _; eexists; now apply Hres ].
    + split; [ | discriminate ].
      intros [r Hr]. destruct (Hrej eq_refl) as (t & Ht & _). congruence.
  - intros Et.
    pose proof (sent_ok_iff voicenote response xhr_single xhr_at order) as Hsent.
    apply Hsent in Et.
    unfold UploadCallbacks.upload, UploadCallbacks.upload_body,
      Upload.requestPresignedUrl.
    cbn [UploadCallbacks.notifyProgress UploadCallbacks.onUploadProgress
         UploadCallbacks.onProgress throwing_onComplete].
    cbv zeta.
    destruct (match Upload.upload_type response with
              | Upload.Single => _ | Upload.Multipart => _ end) as [sent t2].
    cbn [fst] in Et. subst sent. reflexivity.
Qed.

Section UploadTargets.

Import Upload.

Lemma slice_bytes (b : Blob) (from last : Z) :
  (0 <= from)%Z -> (from <= last)%Z -> (last + 1 <= blob_size b)%Z ->
  blob_bytes (blob_slice b from (last + 1))
  = firstn (Z.to_nat (last + 1 - from)) (skipn (Z.to_nat from) (blob_bytes b)).
Proof.
  intros H0 H1 H2. unfold blob_slice. cbv zeta. cbn [blob_bytes].
  destruct (Z.ltb_spec from 0) as [Hneg | _]; [ lia | ].
  destruct (Z.ltb_spec (last + 1) 0) as [Hneg | _]; [ lia | ].
  rewrite !Z.min_l by lia. rewrite Z.max_l by lia. reflexivity.
Qed.

Lemma tiles_bytes (b : Blob) (parts : list Part) :
  forall from : Z,
    (0 <= from)%Z -> tiles from parts (blob_size b) ->
    (from <= blob_size b)%Z
    /\ put_bytes (part_requests b parts)
       = skipn (Z.to_nat from) (blob_bytes b).
Proof.
  induction parts as [ | p parts IH ]; intros from H0 Ht.
  - simpl in Ht. subst from. split; [ lia | ].
    unfold blob_size. rewrite Nat2Z.id. now rewrite skipn_all.
  - destruct Ht as (Hs & Hle & Hrest).
    destruct (IH (end_byte p + 1)%Z ltac:(lia) Hrest) as [Hsize Hbytes].
    split; [ lia | ].
    change (put_bytes (part_requests b (p :: parts)))
      with (blob_bytes (blob_slice b (start_byte p) (end_byte p + 1))
            ++ put_bytes (part_requests b parts))%list.
    rewrite Hbytes, Hs, slice_bytes by lia.
    replace (Z.to_nat (end_byte p + 1))
      with (Z.to_nat (end_byte p + 1 - from) + Z.to_nat from)%nat by lia.
    rewrite <- skipn_skipn. apply firstn_skipn.
Qed.

End UploadTargets.

(** X23.  A multipart upload sends every byte, once and in order: when the parts
    of the plan tile the recording, each with inclusive first and last byte,
    the bodies of the [PUT] requests, one per part, concatenate to the
    recording's bytes. *)
Theorem multipart_sends_every_byte (b : Blob)
    (response : Upload.PresignedUrlResponse) (parts : list Upload.Part)
    (xhr_at : nat -> Upload.XhrOutcome) (order : list nat) :
  Upload.upload_info response = Some parts ->
  tiles 0 parts (blob_size b) ->
  let sent := snd (Upload.uploadMultipart b response xhr_at order) in
  put_bytes sent = blob_bytes b
  /\ List.length sent = List.length parts
  /\ map (fun e => match e with
                   | Upload.XhrPut url _ => url
                   | _ => EmptyString
                   end) sent
     = map Upload.part_presigned_url parts.
Proof.
  intros Hinfo Ht sent. subst sent. unfold Upload.uploadMultipart.
  rewrite Hinfo. cbn [snd]. fold (part_requests b parts).
  split; [ | split ].
  - now destruct (tiles_bytes b parts 0%Z ltac:(lia) Ht) as [_ ->].
  - unfold part_requests. apply length_map.
  - unfold part_requests. rewrite map_map. reflexivity.
Qed.

Lemma multipart_sends_every_byte_witness :
  put_bytes (snd (Upload.uploadMultipart six_bytes three_part_plan
                    part2_status_500 []))
  = blob_bytes six_bytes.
Proof.
  apply (multipart_sends_every_byte six_bytes three_part_plan three_parts
           part2_status_500 []).
  - reflexivity.
  - simpl. repeat split; lia.
Defined.


(** ** recorder-controller.ts: the controller's states *)

Section ControllerProperties.

Import Controller.

Variable js_String : value -> string.
Variable hooks : ControllerStop.UploadHooks.

Lemma notifications_app (t1 t2 : list ControllerStop.Effect) :
  ControllerStop.notifications (t1 ++ t2)
  = (ControllerStop.notifications t1 ++ ControllerStop.notifications t2)%list.
Proof. apply flat_map_app. Qed.

Lemma notifications_device (l : list Recorder.Effect) :
  ControllerStop.notifications (map ControllerStop.Ctl (map Device l)) = [].
Proof. induction l as [ | e l IH ]; [ reflexivity | exact IH ]. Qed.

Lemma notifications_relay (u : list Upload.Effect) :
  ControllerStop.notifications (flat_map (ControllerStop.relay hooks) u) = [].
Proof.
  induction u as [ | e u IH ]; [ reflexivity | ].
  cbn [flat_map]. rewrite notifications_app, IH, app_nil_r.
  destruct e; try reflexivity.
  cbn. now destruct (ControllerStop.has_onError hooks).
Qed.

Lemma notifications_setState (s : RecorderState) (v : VoiceRecorder) :
  ControllerStop.notifications (map ControllerStop.Ctl (snd (setState s v)))
  = if has_onStateChange (options v) then [s] else [].
Proof. unfold setState. cbn [snd]. now destruct (has_onStateChange _). Qed.

Lemma upload_effects_app (t1 t2 : list ControllerStop.Effect) :
  upload_effects (t1 ++ t2) = (upload_effects t1 ++ upload_effects t2)%list.
Proof. apply flat_map_app. Qed.

Lemma upload_effects_ctl (l : list Effect) :
  upload_effects (map ControllerStop.Ctl l) = [].
Proof. induction l as [ | e l IH ]; [ reflexivity | exact IH ]. Qed.

Lemma deliver_computes (final : list Blob) :
  forall r : Recorder.AudioRecorder,
    ControllerStop.deliver final r
    = (with_chunks r (Recorder.chunks r ++ kept final),
       map Recorder.OnDataAvailable (kept final)).
Proof.
  induction final as [ | c final IH ]; intros r.
  - destruct r. unfold with_chunks. cbn. now rewrite app_nil_r.
  - cbn [ControllerStop.deliver]. unfold kept. cbn [filter]. fold (kept final).
    unfold Recorder.onDataAvailable, Recorder.mbind, Recorder.get.
    destruct (0 <? blob_size c)%Z.
    + destruct r as [md mime mr ms ch st pt timer sq]. cbn.
      rewrite IH. unfold with_chunks. cbn. now rewrite <- app_assoc.
    + cbn. rewrite IH. reflexivity.
Qed.

(** [stop()] and the platform's [stop] event on an active recorder, with
    the chunks [cs] held when the event arrives. *)
Lemma stop_then_handle (r : Recorder.AudioRecorder) (now : Q) :
  inactive r = false ->
  exists (r0 : Recorder.AudioRecorder) (t0 t2 : list Recorder.Effect),
    Recorder.stop_executor r = (Ok tt, r0, t0)
    /\ Recorder.chunks r0 = Recorder.chunks r
    /\ (forall cs : list Blob,
          Recorder.handleStop now (with_chunks r0 cs)
          = (Ok (recording_of (with_chunks r cs) now), released r, t2))
    /\ In Recorder.MediaRecorderStop t0.
Proof.
  destruct r as [md mime [ [ | | ] | ] ms ch st pt [ id | ] sq];
    intros H; try discriminate; destruct ms;
    do 3 eexists; (split; [ reflexivity | ]);
    (split; [ reflexivity | ]);
    (split; [ intros cs; reflexivity | ]); simpl; auto.
Qed.

Lemma stop_inactive (r : Recorder.AudioRecorder) :
  inactive r = true ->
  Recorder.stop_executor r
  = (Throw (ThrowError (SdkError
       (new_VoicenoteError RECORDING_FAILED
          "Cannot stop voicenote: no active voicenote" None None))),
     r, []).
Proof.
  unfold inactive. intros H.
  unfold Recorder.stop_executor, Recorder.mbind, Recorder.get.
  now rewrite H.
Qed.

Lemma start_denied (t : thrown) (now : Q) (r : Recorder.AudioRecorder) :
  inactive r = true ->
  exists t' : thrown,
    Recorder.start (Throw t) now r = (Throw t', released r, releases r).
Proof.
  intros Hin. unfold inactive in Hin.
  unfold Recorder.start, Recorder.mcatch, Recorder.mbind at 1, Recorder.get.
  rewrite Hin. cbn [negb].
  unfold Recorder.mbind at 1, Recorder.ret.
  unfold Recorder.mbind at 1, Recorder.requestMicrophoneAccess.
  destruct t as [ e | v ].
  - destruct (String.eqb (error_name e) "NotAllowedError").
    + unfold Recorder.throw, Recorder.mbind at 1. rewrite cleanup_computes.
      cbn [instanceof_class cls new_VoicenoteError subclass].
      unfold Recorder.rethrow. cbn [app]. rewrite app_nil_r.
      eexists. reflexivity.
    + unfold Recorder.rethrow, Recorder.mbind at 1. rewrite cleanup_computes.
      unfold Recorder.throw.
      repeat match goal with
             | |- context [String.eqb ?a ?b] => destruct (String.eqb a b)
             | |- context [instanceof_class ?c ?x] =>
                 destruct (instanceof_class c x)
             end; cbn [app]; rewrite ?app_nil_r; eexists; reflexivity.
  - unfold Recorder.rethrow, Recorder.mbind at 1. rewrite cleanup_computes.
    cbn [instanceof_class]. unfold Recorder.throw. cbn [app].
    rewrite app_nil_r. eexists. reflexivity.
Qed.

Lemma call_keeps_clear (v : VoiceRecorder) (c : ControllerCall) :
  _state v <> error ->
  _state (fst (controller_call js_String hooks v c)) <> error
  /\ ~ In error
         (ControllerStop.notifications
            (snd (controller_call js_String hooks v c))).
Proof.
  intros Hv.
  assert (Hset : forall (s : RecorderState) (w : VoiceRecorder),
             s <> error ->
             ~ In error (ControllerStop.notifications
                           (map ControllerStop.Ctl (snd (setState s w))))).
  { intros s w Hs. rewrite notifications_setState.
    destruct (has_onStateChange (options w)); simpl; intuition. }
  destruct c as [access now | now final presign xs xa order | | now | now | ];
    unfold controller_call.
  - unfold start.
    destruct (_state v) eqn:Es; try (cbn; now rewrite Es);
      try now destruct Hv.
    destruct (setState recording v) as [v1 t1] eqn:E1.
    assert (H1 : _state v1 = recording)
      by (unfold setState in E1; injection E1 as <- _; reflexivity).
    destruct (Recorder.start access now (audioRecorder v1)) as [[x r] t2].
    cbn [fst snd with_recorder _state]. rewrite H1. split; [ discriminate | ].
    rewrite map_app, notifications_app.
    change t1 with (snd (v1, t1)). rewrite <- E1.
    rewrite notifications_device, app_nil_r.
    apply Hset. discriminate.
  - unfold ControllerStop.stop.
    destruct (_state v) eqn:Es; try (cbn; now rewrite Es).
    destruct (Recorder.stop_executor (audioRecorder v)) as [[[ [] | t ] r0] t0].
    2:{ cbn [fst snd with_recorder _state]. rewrite Es.
        split; [ discriminate | ]. now rewrite notifications_device. }
    destruct (ControllerStop.deliver final r0) as [r1 td]. cbv zeta.
    set (t1 := (t0 ++ td)%list).
    destruct (Recorder.handleStop now r1) as [[[ res | t ] r2] t2].
    2:{ cbn [fst snd with_recorder _state]. rewrite Es.
        split; [ discriminate | ]. now rewrite notifications_device. }
    cbv zeta.
    set (v1 := ControllerStop.set_result (Some res) (with_recorder r2 v)).
    pose proof (Hset stopped v1 ltac:(discriminate)) as N1.
    destruct (setState stopped v1) as [v2 n1] eqn:E2. cbn [snd] in N1.
    assert (H2 : _state v2 = stopped)
      by (unfold setState in E2; injection E2 as <- _; reflexivity).
    pose proof (Hset uploading v2 ltac:(discriminate)) as N2.
    pose proof (Hset uploaded (fst (setState uploading v2))
                  ltac:(discriminate)) as N3.
    destruct (match autoUpload (options v) with
              | Some false => false | _ => true end).
    + destruct (setState uploading v2) as [v3 n2] eqn:E3.
      cbn [fst snd] in N2, N3.
      assert (H3 : _state v3 = uploading)
        by (unfold setState in E3; injection E3 as <- _; reflexivity).
      destruct (Upload.upload _ _ res presign xs xa order) as [[ result | t ] u].
      * destruct (setState uploaded v3) as [v4 n3] eqn:E4. cbn [snd] in N3.
        assert (H4 : _state v4 = uploaded)
          by (unfold setState in E4; injection E4 as <- _; reflexivity).
        cbn [fst snd]. rewrite H4. split; [ discriminate | ].
        rewrite !notifications_app, notifications_device, notifications_relay.
        cbn [app]. rewrite !in_app_iff. cbn [In]. tauto.
      * cbn [fst snd]. rewrite H3. split; [ discriminate | ].
        rewrite !notifications_app, notifications_device, notifications_relay.
        cbn [app]. rewrite !in_app_iff. cbn [In]. tauto.
    + cbn [fst snd]. rewrite H2. split; [ discriminate | ].
      rewrite !notifications_app, notifications_device.
      cbn [app]. exact N1.
  - unfold cancel.
    destruct (Recorder.cancel (audioRecorder v)) as [[[ [] | t ] r] t1].
    + pose proof (Hset idle (with_recorder r v) ltac:(discriminate)) as N.
      destruct (setState idle (with_recorder r v)) as [v1 t2] eqn:E1.
      cbn [snd] in N.
      assert (H1 : _state v1 = idle)
        by (unfold setState in E1; injection E1 as <- _; reflexivity).
      cbn [fst snd _state]. rewrite H1. split; [ discriminate | ].
      rewrite !map_app, !notifications_app, notifications_device.
      cbn [app]. rewrite in_app_iff. intros [H | H]; [ now apply N | ].
      now destruct (has_onCancel (options v)).
    + cbn [fst snd with_recorder _state]. split; [ exact Hv | ].
      now rewrite notifications_device.
  - unfold pause. destruct (Recorder.pause now (audioRecorder v)) as [[x r] t].
    cbn [fst snd with_recorder _state]. split; [ exact Hv | ].
    now rewrite notifications_device.
  - unfold resume. destruct (Recorder.resume now (audioRecorder v)) as [[x r] t].
    cbn [fst snd with_recorder _state]. split; [ exact Hv | ].
    now rewrite notifications_device.
  - unfold ControllerStop.destroy.
    destruct (Recorder.cancel (audioRecorder v)) as [[x r] t].
    cbn [fst snd with_recorder _state]. split; [ exact Hv | ].
    now rewrite notifications_device.
Qed.

Lemma run_keeps_clear (calls : list ControllerCall) :
  forall (v : VoiceRecorder) (t : list ControllerStop.Effect),
    _state v <> error -> ~ In error (ControllerStop.notifications t) ->
    let out :=
      fold_left
        (fun acc c =>
           match controller_call js_String hooks (fst acc) c with
           | (v', t') => (v', (snd acc ++ t')%list)
           end)
        calls (v, t) in
    _state (fst out) <> error
    /\ ~ In error (ControllerStop.notifications (snd out)).
Proof.
  induction calls as [ | c calls IH ]; intros v t Hv Ht; [ now split | ].
  cbn [fold_left fst snd].
  destruct (call_keeps_clear v c Hv) as [Hv' Ht'].
  destruct (controller_call js_String hooks v c) as [v' t'].
  cbn [fst snd] in Hv', Ht'.
  apply IH; [ exact Hv' | ].
  rewrite notifications_app, in_app_iff. tauto.
Qed.

End ControllerProperties.

(** X25.  The controller never enters its [error] state and never reports it to
    [onStateChange], whatever is called and however the calls end: a failure
    leaves the state where the failing call had put it. *)
Theorem controller_never_enters_error (js_String : value -> string)
    (hooks : ControllerStop.UploadHooks) (o : Controller.RecorderOptions)
    (mime : string) (calls : list ControllerCall) :
  let out :=
    controller_run js_String hooks (Controller.newVoiceRecorder o mime) calls in
  Controller._state (fst out) <> Controller.error
  /\ ~ In Controller.error (ControllerStop.notifications (snd out)).
Proof.
  apply (run_keeps_clear js_String hooks calls
           (Controller.newVoiceRecorder o mime) []).
  - discriminate.
  - simpl. tauto.
Qed.

(** X26.  A [start()] of the controller whose microphone request fails throws,
    but has already moved the controller to [recording] and said so to
    [onStateChange]; the recorder below stays inactive, no platform recorder
    having been started. *)
Theorem controller_start_failure_leaves_recording (t : thrown) (now : Q)
    (v : Controller.VoiceRecorder) :
  Controller._state v = Controller.idle ->
  inactive (Controller.audioRecorder v) = true ->
  let run := Controller.start (Throw t) now v in
  (exists t' : thrown, fst (fst run) = Throw t')
  /\ Controller._state (snd (fst run)) = Controller.recording
  /\ inactive (Controller.audioRecorder (snd (fst run))) = true
  /\ filter Controller.is_notification (snd run)
     = (if Controller.has_onStateChange (Controller.options v)
        then [Controller.StateChange Controller.recording] else [])
  /\ ~ In (Controller.Device Recorder.MediaRecorderStart) (snd run).
Proof.
  intros Hidle Hin run. subst run. unfold Controller.start.
  rewrite Hidle. unfold Controller.setState.
  cbn [Controller.audioRecorder].
  destruct (start_denied t now (Controller.audioRecorder v) Hin) as [t' ->].
  cbn [fst snd Controller.with_recorder Controller._state
       Controller.audioRecorder].
  split; [ now exists t' | ]. split; [ reflexivity | ].
  split; [ reflexivity | ].
  unfold releases.
  destruct (Controller.has_onStateChange (Controller.options v));
    destruct (Recorder.progressTimer (Controller.audioRecorder v));
    destruct (Recorder.mediaStream (Controller.audioRecorder v));
    cbn; (split; [ reflexivity | intuition discriminate ]).
Qed.

Lemma controller_start_failure_leaves_recording_witness :
  Controller._state
    (snd (fst (Controller.start
                 (Throw (ThrowError (PlainError "NotAllowedError" "denied")))
                 0 fresh_controller)))
  = Controller.recording.
Proof.
  apply (controller_start_failure_leaves_recording
           (ThrowError (PlainError "NotAllowedError" "denied")) 0
           fresh_controller); reflexivity.
Defined.

(** X27.  A controller that says [recording] over a recorder that is inactive (a
    failed [start()], or a capture the time limit has stopped) is stuck
    there: [stop()] throws [RECORDING_FAILED] and changes nothing, sending
    nothing; [start()] throws [RECORDING_FAILED]; only [cancel()] brings the
    controller back to [idle]. *)
Theorem controller_stop_without_capture (js_String : value -> string)
    (hooks : ControllerStop.UploadHooks) (now : Q) (final : list Blob)
    (presign : result Upload.PresignedUrlResponse)
    (xhr_single : Upload.XhrOutcome) (xhr_at : nat -> Upload.XhrOutcome)
    (order : list nat) (access : result unit) (v : Controller.VoiceRecorder) :
  Controller._state v = Controller.recording ->
  inactive (Controller.audioRecorder v) = true ->
  ControllerStop.stop js_String hooks now final presign xhr_single xhr_at
    order v
  = (Throw (ThrowError (SdkError
       (new_VoicenoteError RECORDING_FAILED
          "Cannot stop voicenote: no active voicenote" None None))),
     v, [])
  /\ Controller.start access now v
     = (Throw (ThrowError (SdkError
          (new_VoicenoteError RECORDING_FAILED
             "Cannot start recording from state: recording" None None))),
        v, [])
  /\ Controller._state (snd (fst (Controller.cancel v))) = Controller.idle.
Proof.
  intros Hrec Hin. split; [ | split ].
  - unfold ControllerStop.stop. rewrite Hrec, (stop_inactive _ Hin).
    destruct v; reflexivity.
  - unfold Controller.start. now rewrite Hrec.
  - unfold Controller.cancel.
    destruct (recorder_cancel_result (Controller.audioRecorder v))
      as (r & t & -> & _).
    reflexivity.
Qed.

Lemma controller_stop_without_capture_witness :
  fst (fst (ControllerStop.stop Platform.js_String
              (ControllerStop.mkUploadHooks true true true) 1000 [six_bytes]
              (Ok three_part_plan) Upload.XhrError part2_status_500 []
              (snd (fst (Controller.start
                           (Throw (ThrowError (PlainError "NotFoundError" "none")))
                           0 fresh_controller)))))
  = Throw (ThrowError (SdkError
      (new_VoicenoteError RECORDING_FAILED
         "Cannot stop voicenote: no active voicenote" None None))).
Proof.
  rewrite (proj1 (controller_stop_without_capture Platform.js_String
                    (ControllerStop.mkUploadHooks true true true) 1000
                    [six_bytes]
                    (Ok three_part_plan) Upload.XhrError part2_status_500 []
                    (Ok tt)
                    (snd (fst (Controller.start
                                 (Throw (ThrowError
                                           (PlainError "NotFoundError" "none")))
                                 0 fresh_controller)))
                    eq_refl eq_refl)).
  reflexivity.
Defined.

(** X28.  [stop()] of the controller over a running capture, the
    application's hooks returning normally: the recording is taken and kept,
    and the recorder released; it holds the bytes of the chunks held at the
    call followed by those of the chunks the platform delivers before
    [handleStop] builds the blob, and the elapsed wall-clock time.  With [autoUpload] off it
    is returned and the state is [stopped].  Otherwise it is uploaded: the
    states notified are [stopped], [uploading] and, when the upload succeeds,
    [uploaded], in this order; when the upload fails its error is thrown and
    the state stays [uploading]. *)
Theorem controller_stop_reports_each_stage (js_String : value -> string)
    (hooks : ControllerStop.UploadHooks) (now : Q) (final : list Blob)
    (presign : result Upload.PresignedUrlResponse)
    (xhr_single : Upload.XhrOutcome) (xhr_at : nat -> Upload.XhrOutcome)
    (order : list nat) (v : Controller.VoiceRecorder) :
  Controller._state v = Controller.recording ->
  inactive (Controller.audioRecorder v) = false ->
  let run :=
    ControllerStop.stop js_String hooks now final presign xhr_single xhr_at
      order v in
  let held := Recorder.chunks (Controller.audioRecorder v) in
  let res :=
    recording_of
      (with_chunks (Controller.audioRecorder v) (held ++ kept final)) now in
  let shown (states : list Controller.RecorderState) :=
    if Controller.has_onStateChange (Controller.options v) then states else [] in
  Controller.recordingResult (snd (fst run)) = Some res
  /\ blob_bytes (Recorder.blob res)
     = (List.concat (map blob_bytes held)
        ++ List.concat (map blob_bytes final))%list
  /\ Recorder.duration res
     = (now - Recorder.startTime (Controller.audioRecorder v)) / 1000
  /\ Controller.audioRecorder (snd (fst run))
     = released (Controller.audioRecorder v)
  /\ match Controller.autoUpload (Controller.options v) with
     | Some false =>
         fst (fst run) = Ok (inr res)
         /\ Controller._state (snd (fst run)) = Controller.stopped
         /\ ControllerStop.notifications (snd run) = shown [Controller.stopped]
         /\ upload_effects (snd run) = []
     | _ =>
         match fst (Upload.upload js_String (ControllerStop.uploaderConfig hooks)
                      res presign xhr_single xhr_at order) with
         | Ok result =>
             fst (fst run) = Ok (inl result)
             /\ Controller._state (snd (fst run)) = Controller.uploaded
             /\ ControllerStop.notifications (snd run)
                = shown [Controller.stopped; Controller.uploading;
                         Controller.uploaded]
         | Throw t =>
             fst (fst run) = Throw t
             /\ Controller._state (snd (fst run)) = Controller.uploading
             /\ ControllerStop.notifications (snd run)
                = shown [Controller.stopped; Controller.uploading]
         end
     end.
Proof.
  intros Hrec Hact run held res shown. subst run held res shown.
  unfold ControllerStop.stop. rewrite Hrec.
  destruct (stop_then_handle (Controller.audioRecorder v) now Hact)
    as (r0 & t0 & t2 & -> & Hch & Hh & _).
  rewrite deliver_computes, Hch, Hh.
  cbv zeta. unfold Controller.setState.
  cbn [Controller.options ControllerStop.set_result Controller.with_recorder].
  assert (Hbytes :
    blob_bytes
      (Recorder.blob
         (recording_of
            (with_chunks (Controller.audioRecorder v)
               (Recorder.chunks (Controller.audioRecorder v) ++ kept final))
            now))
    = (List.concat (map blob_bytes (Recorder.chunks (Controller.audioRecorder v)))
       ++ List.concat (map blob_bytes final))%list).
  { unfold recording_of, with_chunks, new_Blob.
    cbn [Recorder.blob blob_bytes Recorder.chunks].
    now rewrite map_app, concat_app, kept_bytes. }
  destruct (Controller.autoUpload (Controller.options v)) as [ [ | ] | ].
  - destruct (Upload.upload _ _ _ presign xhr_single xhr_at order)
      as [[ result | t ] u]; cbn [fst snd Controller.recordingResult
        Controller.audioRecorder Controller._state];
      (split; [ reflexivity | ]); (split; [ exact Hbytes | ]);
      (split; [ reflexivity | ]); (split; [ reflexivity | ]);
      (split; [ reflexivity | ]); (split; [ reflexivity | ]);
      rewrite !notifications_app, notifications_device, notifications_relay;
      now destruct (Controller.has_onStateChange (Controller.options v)).
  - cbn [fst snd Controller.recordingResult Controller.audioRecorder
         Controller._state].
    split; [ reflexivity | ]. split; [ exact Hbytes | ].
    split; [ reflexivity | ]. split; [ reflexivity | ].
    split; [ reflexivity | ]. split; [ reflexivity | ].
    rewrite notifications_app, notifications_device.
    rewrite upload_effects_app.
    rewrite (upload_effects_ctl (map Controller.Device _)),
      upload_effects_ctl.
    now destruct (Controller.has_onStateChange (Controller.options v)).
  - destruct (Upload.upload _ _ _ presign xhr_single xhr_at order)
      as [[ result | t ] u]; cbn [fst snd Controller.recordingResult
        Controller.audioRecorder Controller._state];
      (split; [ reflexivity | ]); (split; [ exact Hbytes | ]);
      (split; [ reflexivity | ]); (split; [ reflexivity | ]);
      (split; [ reflexivity | ]); (split; [ reflexivity | ]);
      rewrite !notifications_app, notifications_device, notifications_relay;
      now destruct (Controller.has_onStateChange (Controller.options v)).
Qed.

Lemma controller_stop_reports_each_stage_witness :
  Controller.recordingResult
    (snd (fst (ControllerStop.stop Platform.js_String
                 (ControllerStop.mkUploadHooks true true true) 600 [six_bytes]
                 (Ok three_part_plan) Upload.XhrError part2_status_500 []
                 (snd (fst (Controller.start (Ok tt) 0 fresh_controller))))))
  = Some (recording_of
            (with_chunks
               (Controller.audioRecorder
                  (snd (fst (Controller.start (Ok tt) 0 fresh_controller))))
               [six_bytes])
            600).
Proof.
  apply (proj1 (controller_stop_reports_each_stage Platform.js_String
                  (ControllerStop.mkUploadHooks true true true) 600 [six_bytes]
                  (Ok three_part_plan) Upload.XhrError part2_status_500 []
                  (snd (fst (Controller.start (Ok tt) 0 fresh_controller)))
                  eq_refl eq_refl)).
Defined.

(** ** index.ts and token.ts: the SDK object and the token information *)

(** X29.  [new VocaFuseSDK(config)] throws exactly when [tokenEndpoint] is empty.
    Otherwise the token manager starts without a token, and the HTTP client
    has a time limit that is not zero and waits, before retry [n] (from 1),
    between one and ten seconds. *)
Theorem new_VocaFuseSDK_policy (config : Sdk.SDKConfig) :
  match Sdk.new_VocaFuseSDK config with
  | Throw t =>
      Sdk.tokenEndpoint config = EmptyString
      /\ t = ThrowError (SdkError
               (new_ConfigurationError
                  "tokenEndpoint is required in SDK configuration" None))
  | Ok sdk =>
      Sdk.tokenEndpoint config <> EmptyString
      /\ Token.tokenEndpoint (Sdk.tokenManager sdk) = Sdk.tokenEndpoint config
      /\ (forall now : Q,
            Token.hasValidToken (Sdk.tokenManager sdk) now = false)
      /\ Client.maxRetries (Client.retryOptions (Sdk.httpClient sdk))
         = match Sdk.retries config with Some r => r | None => 3%Z end
      /\ ~ Client.timeout (Sdk.httpClient sdk) == 0
      /\ (forall (n : Z) (random : Q),
            (1 <= n)%Z -> 0 <= random ->
            1000 <= Client.calculateRetryDelay (Sdk.httpClient sdk) n random
            /\ Client.calculateRetryDelay (Sdk.httpClient sdk) n random
               <= 10000)
  end.
Proof.
  unfold Sdk.new_VocaFuseSDK.
  destruct (String.eqb_spec (Sdk.tokenEndpoint config) "") as [E | E].
  - now split.
  - cbv zeta.
    cbn [Sdk.tokenManager Sdk.httpClient Sdk.new_HttpClient Client.retryOptions
         Client.maxRetries Client.timeout Sdk.cfg_retries Sdk.cfg_timeout
         Token.tokenEndpoint Token.newTokenManager].
    split; [ exact E | ]. split; [ reflexivity | ].
    split; [ reflexivity | ]. split; [ reflexivity | ].
    split.
    + unfold Token.q_or.
      destruct (Qeq_bool _ 0) eqn:Q0; [ discriminate | ].
      now apply Qeq_bool_neq.
    + intros n random Hn Hr. split.
      * unfold Client.calculateRetryDelay. cbv zeta.
        cbn [Sdk.httpClient Sdk.new_HttpClient Sdk.cfg_retries
             Client.retryOptions Client.baseDelay Client.backoffFactor
             Client.maxDelay].
        assert (Hp : 1 <= 2 ^ (n - 1)).
        { change 1 with (2 ^ 0) at 1.
          apply Qpower_le_compat_l; [ lia | discriminate ]. }
        apply Q.min_glb; [ | discriminate ].
        set (p := 2 ^ (n - 1)) in *.
        assert (Hd : 1000 <= 1000 * p) by lra.
        assert (Hj : 0 <= random * (1 # 10) * (1000 * p)).
        { apply Qmult_le_0_compat; lra. }
        lra.
      * apply Q.le_min_r.
Qed.

(** X30.  [getTokenInfo] says [isValid] exactly when [getToken] would answer from
    the cache without a fetch; it then gives an expiry that lies more than
    the refresh buffer ahead, and the token [getToken] answers with is not
    empty.  After [clearToken] it says invalid. *)
Theorem getTokenInfo_agrees_with_getToken (w : Token.World) (caller : nat)
    (now : Q) :
  let info := TokenInfo.getTokenInfo (Token.mgr w) now in
  (TokenInfo.isValid info = true
   <-> Token.issued (Token.getToken caller now w) = Token.issued w)
  /\ (TokenInfo.isValid info = true ->
      exists (ct : Token.CachedToken) (token : string),
        Token.cachedToken (Token.mgr w) = Some ct
        /\ TokenInfo.expiresAt info = Some (Token.expiresAt ct)
        /\ now + Token.refreshBuffer (Token.mgr w) * 1000 < Token.expiresAt ct
        /\ token <> EmptyString
        /\ Token.delivered (Token.getToken caller now w)
           = (Token.delivered w ++ [(caller, Ok token)])%list)
  /\ TokenInfo.isValid
       (TokenInfo.getTokenInfo (Token.mgr (Token.clearToken w)) now) = false.
Proof.
  intros info. subst info.
  unfold TokenInfo.getTokenInfo, Token.getToken.
  split; [ | split; [ | reflexivity ] ].
  - destruct (Token.hasValidToken (Token.mgr w) now) eqn:E; cbn [negb].
    + unfold Token.hasValidToken in E.
      destruct (Token.actualJwtToken (Token.mgr w)); [ | discriminate ].
      destruct (Token.cachedToken (Token.mgr w)); [ | discriminate ].
      now split.
    + cbn. split; [ discriminate | lia ].
  - destruct (Token.hasValidToken (Token.mgr w) now) eqn:E; cbn [negb];
      [ | discriminate ].
    unfold Token.hasValidToken, Token.isTokenValid in E.
    destruct (Token.actualJwtToken (Token.mgr w)) as [ tok | ];
      [ | discriminate ].
    destruct (Token.cachedToken (Token.mgr w)) as [ ct | ]; [ | discriminate ].
    apply andb_true_iff in E. destruct E as [Htok Hexp].
    apply negb_true_iff in Htok, Hexp.
    intros _. exists ct, tok.
    split; [ reflexivity | ]. split; [ reflexivity | ].
    split.
    { apply Qnot_le_lt. intros Hle. apply Qle_bool_iff in Hle.
      cbv zeta in Hexp. congruence. }
    split.
    { intros ->. discriminate. }
    cbn [Token.delivered]. do 3 f_equal.
    unfold str_or. now rewrite Htok.
Qed.
